(** * Templator.js: the three command-line front ends

    A shallow embedding of the orchestration code of the repository:
    - the simple CLI   ([src/templator.js], module [Simple]),
    - the enhanced CLI (module [Enhanced]),
    - the merged CLI   (module [Merged]).

    The template engine ([Mark.up]), [JSON.parse], Node's [fs] and [path]
    modules, [mkdirp], [shelljs] and [easy-zip] are libraries the scripts
    import; they are the fields of a [Host] record the programs are
    parameterised by.  Every effect of a run is appended to a trace of
    events. *)

From Stdlib Require Import String Ascii List ZArith Bool Lia DecimalString.
Import ListNotations.
Local Open Scope string_scope.
Local Open Scope Z_scope.
Set Warnings "-register-all".

(** ** JavaScript values *)

(** The values [JSON.parse] produces, plus the named properties an array
    object can be given by assignment ([props] of [VArr]; [JSON.parse]
    itself leaves it empty).  Objects keep their properties in insertion
    order.  The scripts only test numbers for truthiness, so a number is
    kept as an integer. *)
Inductive value : Type :=
| VNull
| VBool (b : bool)
| VNum (n : Z)
| VStr (s : string)
| VArr (elems : list value) (props : list (string * value))
| VObj (props : list (string * value)).

(** A JavaScript expression evaluates to a value or to [undefined]. *)
Definition jv : Type := option value.
Definition undefined : jv := None.

(** Pure computations that may throw; [Err] carries [err.message]. *)
Inductive result (A : Type) : Type :=
| Ok (a : A)
| Err (message : string).
Arguments Ok {A} a.
Arguments Err {A} message.

Definition rbind {A B} (r : result A) (k : A -> result B) : result B :=
  match r with
  | Ok a => k a
  | Err e => Err e
  end.

Module JS.

Definition truthy (v : jv) : bool :=
  match v with
  | None => false
  | Some VNull => false
  | Some (VBool b) => b
  | Some (VNum n) => negb (n =? 0)
  | Some (VStr s) => negb (s =? "")%string
  | Some (VArr _ _) => true
  | Some (VObj _) => true
  end.

(** [a || b] and [a && b]. *)
Definition or (a b : jv) : jv := if truthy a then a else b.
Definition and (a b : jv) : jv := if truthy a then b else a.

Definition instanceof_Array (v : jv) : bool :=
  match v with
  | Some (VArr _ _) => true
  | _ => false
  end.

Definition str (s : string) : jv := Some (VStr s).

(** Own properties, in insertion order. *)
Fixpoint assoc (k : string) (ps : list (string * value)) : jv :=
  match ps with
  | [] => None
  | (k', v) :: ps' => if (k =? k')%string then Some v else assoc k ps'
  end.

(** [o[k] = v]: an existing key keeps its position, a new one goes last. *)
Fixpoint assoc_set (k : string) (v : value) (ps : list (string * value))
  : list (string * value) :=
  match ps with
  | [] => [(k, v)]
  | (k', v') :: ps' =>
      if (k =? k')%string then (k', v) :: ps' else (k', v') :: assoc_set k v ps'
  end.

Fixpoint assoc_del (k : string) (ps : list (string * value))
  : list (string * value) :=
  match ps with
  | [] => []
  | (k', v') :: ps' =>
      if (k =? k')%string then assoc_del k ps' else (k', v') :: assoc_del k ps'
  end.

(** The canonical decimal spelling of an array index. *)
Definition index_key (i : nat) : string :=
  NilZero.string_of_uint (Nat.to_uint i).

(** The index below [len] that the property key [k] spells, if any. *)
Definition array_index (k : string) (len : nat) : option nat :=
  find (fun i => (index_key i =? k)%string) (seq 0 len).

(** [v[k]] (also written [v.k]).  Reading a property of [null] or
    [undefined] throws a TypeError.  Members inherited from the built-in
    prototypes are functions (or, for [__proto__], the prototype); none of
    them has a property the scripts read and the scripts only ever use such
    a member as [m || {}] followed by a read, so they are given as
    [undefined] here. *)
Definition get (v : jv) (k : string) : result jv :=
  match v with
  | None => Err "Cannot read properties of undefined"
  | Some VNull => Err "Cannot read properties of null"
  | Some (VBool _) => Ok None
  | Some (VNum _) => Ok None
  | Some (VStr s) =>
      if (k =? "length")%string then Ok (Some (VNum (Z.of_nat (String.length s))))
      else match array_index k (String.length s) with
           | Some i => Ok (Some (VStr (String.substring i 1 s)))
           | None => Ok None
           end
  | Some (VArr l ps) =>
      if (k =? "length")%string then Ok (Some (VNum (Z.of_nat (List.length l))))
      else match array_index k (List.length l) with
           | Some i => Ok (nth_error l i)
           | None => Ok (assoc k ps)
           end
  | Some (VObj ps) => Ok (assoc k ps)
  end.

(** [v.k = x] for the property names the scripts assign ([items] and
    [files], neither an index nor [length]); the result is the object after
    the assignment.  The scripts run in sloppy mode, where assigning a
    property of a primitive is silently dropped. *)
Definition set (v : value) (k : string) (x : value) : result value :=
  match v with
  | VNull => Err "Cannot set properties of null"
  | VObj ps => Ok (VObj (assoc_set k x ps))
  | VArr l ps => Ok (VArr l (assoc_set k x ps))
  | p => Ok p
  end.

(** [delete v.k], for the property names the scripts delete (none is an
    index). *)
Definition delete (v : value) (k : string) : result value :=
  match v with
  | VNull => Err "Cannot convert undefined or null to object"
  | VObj ps => Ok (VObj (assoc_del k ps))
  | VArr l ps => Ok (VArr l (assoc_del k ps))
  | p => Ok p
  end.

Definition empty_object : value := VObj [].
Definition empty_array : value := VArr [] [].

End JS.

(** ** The host: Node, the file system and the imported libraries *)

(** What [fs.statSync] returns, as far as the scripts look at it. *)
Record stats : Type := mkStats {
  isFile : bool;
  isDirectory : bool;
  mode : Z
}.

(** The options object handed to [Mark.up]:
    [{ openDelimiter: od, closeDelimiter: cd }]. *)
Record options : Type := mkOptions {
  openDelimiter : jv;
  closeDelimiter : jv
}.

Record Host : Type := mkHost {
  fsys : Type;
  (* fs *)
  readFileSync : fsys -> string -> result string;
  writeFileSync : fsys -> string -> string -> option Z -> result fsys;
  existsSync : fsys -> string -> bool;
  statSync : fsys -> string -> result stats;
  readdirSync : fsys -> string -> result (list string);
  mkdirSync_recursive : fsys -> string -> result fsys;
  chmodSync_self : fsys -> result fsys;
  (* mkdirp, shelljs, require *)
  mkdirp_sync : fsys -> string -> result fsys;
  shell_pushd : fsys -> string -> fsys;
  shell_exec : fsys -> string -> fsys;
  shell_popd : fsys -> fsys;
  require_resolved : fsys -> string -> result value;
  (* path *)
  path_basename : string -> string;
  path_dirname : string -> string;
  path_extname : string -> string;
  path_join : string -> string -> string;
  (* process *)
  platform_win32 : bool;
  (* JSON.parse and the template engine; the third argument of [Mark_up]
     is absent when the script passes no options object *)
  JSON_parse : string -> result value;
  Mark_up : string -> value -> option options -> result string
}.

(** ** Effects *)

(** A console message is kept as the source's template literal with the
    values interpolated into it. *)
Inductive event : Type :=
| Stdout (data : string)
| ConsoleLog (text : string) (args : list jv)
| ConsoleError (text : string) (args : list jv)
| Rendered (template : string) (context : value) (opts : option options)
| Wrote (path data : string) (file_mode : option Z)
| MadeDir (path : string)
| Pushd (dir : string)
| ShellExec (command : string)
| Popd
| Zipped (dir : string)
| ChmodSelf.

(** How a computation ends: normally, by a thrown exception or by
    [process.exit].  A [try]/[catch] handles the second, not the third. *)
Inductive outcome (A : Type) : Type :=
| Ret (a : A)
| Throw (message : string)
| Exit (code : Z).
Arguments Ret {A} a.
Arguments Throw {A} message.
Arguments Exit {A} code.

Section Effects.

Variable H : Host.

Record world : Type := mkWorld {
  w_fs : fsys H;
  w_trace : list event
}.

Definition M (A : Type) : Type := world -> outcome A * world.

Definition ret {A} (a : A) : M A := fun w => (Ret a, w).

Definition bind {A B} (m : M A) (k : A -> M B) : M B :=
  fun w =>
    match m w with
    | (Ret a, w') => k a w'
    | (Throw e, w') => (Throw e, w')
    | (Exit c, w') => (Exit c, w')
    end.

Definition throw {A} (e : string) : M A := fun w => (Throw e, w).

Definition process_exit {A} (c : Z) : M A := fun w => (Exit c, w).

Definition try_catch {A} (m : M A) (handler : string -> M A) : M A :=
  fun w =>
    match m w with
    | (Throw e, w') => handler e w'
    | r => r
    end.

Definition lift {A} (r : result A) : M A :=
  match r with
  | Ok a => ret a
  | Err e => throw e
  end.

Definition emit (e : event) : M unit :=
  fun w => (Ret tt, mkWorld (w_fs w) (w_trace w ++ [e])).

Definition console_log (text : string) (args : list jv) : M unit :=
  emit (ConsoleLog text args).

Definition console_error (text : string) (args : list jv) : M unit :=
  emit (ConsoleError text args).

Definition stdout_write (data : string) : M unit := emit (Stdout data).

(** A host call that reads the file system. *)
Definition fs_read {A} (f : fsys H -> result A) : M A :=
  fun w => lift (f (w_fs w)) w.

(** A host call that changes the file system; [e] is recorded when the
    call succeeds. *)
Definition fs_update (f : fsys H -> result (fsys H)) (e : event) : M unit :=
  fun w =>
    match f (w_fs w) with
    | Ok fs' => (Ret tt, mkWorld fs' (w_trace w ++ [e]))
    | Err msg => (Throw msg, w)
    end.

Definition fs_readFileSync (p : string) : M string :=
  fs_read (fun fs => readFileSync H fs p).

Definition fs_writeFileSync (p data : string) (md : option Z) : M unit :=
  fs_update (fun fs => writeFileSync H fs p data md) (Wrote p data md).

Definition fs_existsSync (p : string) : M bool :=
  fun w => (Ret (existsSync H (w_fs w) p), w).

Definition fs_statSync (p : string) : M stats :=
  fs_read (fun fs => statSync H fs p).

Definition fs_readdirSync (p : string) : M (list string) :=
  fs_read (fun fs => readdirSync H fs p).

Definition fs_mkdirSync (p : string) : M unit :=
  fs_update (fun fs => mkdirSync_recursive H fs p) (MadeDir p).

Definition mkdirp (p : string) : M unit :=
  fs_update (fun fs => mkdirp_sync H fs p) (MadeDir p).

(** [Mark.up(template, context, options)]. *)
Definition mark_up (tpl : string) (ctx : value) (o : option options) : M string :=
  bind (emit (Rendered tpl ctx o)) (fun _ => lift (Mark_up H tpl ctx o)).

(** The last statement of each script:
    [if (process.platform !== 'win32') { try { fs.chmodSync(__filename, 0o755) } catch (_) {} }]. *)
Definition make_executable : M unit :=
  if platform_win32 H then ret tt
  else try_catch (fs_update (chmodSync_self H) ChmodSelf) (fun _ => ret tt).

(** The status the process ends with; Node ends a process that dies of
    an uncaught exception with status 1. *)
Definition exit_code {A} (r : outcome A * world) : Z :=
  match fst r with
  | Ret _ => 0
  | Throw _ => 1
  | Exit c => c
  end.

End Effects.

Arguments ret {H A} a.
Arguments bind {H A B} m k.
Arguments throw {H A} e.
Arguments process_exit {H A} c.
Arguments try_catch {H A} m handler.
Arguments lift {H A} r.
Arguments exit_code {H A} r.
Arguments w_fs {H} w.
Arguments w_trace {H} w.
Arguments mkWorld {H} _ _.

Declare Scope js_scope.
Delimit Scope js_scope with js.
Notation "x <- m ;; k" := (bind m (fun x => k))
  (at level 100, m at next level, right associativity) : js_scope.
Notation "m ;;; k" := (bind m (fun _ => k))
  (at level 100, right associativity) : js_scope.
Notation "' p <- m ;; k" := (bind m (fun x => let 'p := x in k))
  (at level 100, p pattern, m at next level, right associativity) : js_scope.
Local Open Scope js_scope.

(** ** The [items] field of the context

    Both [src/templator.js] (lines 42-46) and the enhanced CLI (lines
    143-147) run, inside the [try] that loads the context:
<<
    if (context.items === undefined) { context.items = []; }
    else if (!(context.items instanceof Array)) { context.items = [context.items]; }
>>
*)
Definition ensure_items (context : value) : result value :=
  rbind (JS.get (Some context) "items") (fun items =>
  match items with
  | None => JS.set context "items" JS.empty_array
  | Some it =>
      if JS.instanceof_Array items then Ok context
      else JS.set context "items" (VArr [it] [])
  end).

(** ** The simple CLI: [src/templator.js] *)

Module Simple.
Section Program.

Variable H : Host.

Record cli : Type := mkCli {
  cli_open : jv;
  cli_close : jv;
  cli_files : list string
}.

(** Lines 13-26.  [argv[++i]] past the end of [argv] is [undefined]. *)
Fixpoint parse_args (argv : list string) (c : cli) : cli :=
  match argv with
  | [] => c
  | arg :: rest =>
      if ((arg =? "--openDelimiter") || (arg =? "-o"))%string then
        match rest with
        | [] => mkCli undefined (cli_close c) (cli_files c)
        | v :: rest' => parse_args rest' (mkCli (JS.str v) (cli_close c) (cli_files c))
        end
      else if ((arg =? "--closeDelimiter") || (arg =? "-c"))%string then
        match rest with
        | [] => mkCli (cli_open c) undefined (cli_files c)
        | v :: rest' => parse_args rest' (mkCli (cli_open c) (JS.str v) (cli_files c))
        end
      else parse_args rest (mkCli (cli_open c) (cli_close c) (cli_files c ++ [arg]))
  end.

Definition initial_cli : cli := mkCli (JS.str "{{") (JS.str "}}") [].

Definition path_arg (files : list string) (i : nat) : jv :=
  option_map VStr (nth_error files i).

(** Lines 36-50. *)
Definition load_context (infoPath : string) : M H value :=
  try_catch
    (jsonData <- fs_readFileSync H infoPath ;;
     context <- lift (JSON_parse H jsonData) ;;
     lift (ensure_items context))
    (fun err =>
       console_error H "Error reading or parsing JSON file at ${infoPath}: ${err.message}"
         [JS.str infoPath; JS.str err] ;;;
       process_exit 2).

(** Lines 53-59. *)
Definition load_template (templatePath : string) : M H string :=
  try_catch
    (fs_readFileSync H templatePath)
    (fun err =>
       console_error H "Error reading template file at ${templatePath}: ${err.message}"
         [JS.str templatePath; JS.str err] ;;;
       process_exit 3).

(** Lines 62-80. *)
Definition render (template : string) (context : value) (od cd : jv) : M H string :=
  try_catch
    (console_error H "INFO: Rendering template with delimiters '${openDelimiter}' and '${closeDelimiter}'"
       [od; cd] ;;;
     console_error H "INFO: Context data structure: ${Object.keys(context).join(', ')}"
       [Some context] ;;;
     mark_up H template context (Some (mkOptions od cd)))
    (fun err =>
       console_error H "Error rendering template: ${err.message}" [JS.str err] ;;;
       console_error H "Template: ${template.substring(0, 100)}..." [JS.str template] ;;;
       console_error H "Context keys: ${Object.keys(context).join(', ')}" [Some context] ;;;
       process_exit 4).

(** Lines 83-93. *)
Definition write_output (outPath : jv) (output : string) : M H unit :=
  match outPath with
  | Some (VStr p) =>
      if JS.truthy outPath then
        try_catch
          (fs_writeFileSync H p output None ;;;
           console_log H "Rendered output written to ${outPath}" [outPath])
          (fun err =>
             console_error H "Error writing output to ${outPath}: ${err.message}"
               [outPath; JS.str err] ;;;
             process_exit 5)
      else stdout_write H output
  | _ => stdout_write H output
  end.

Definition usage : string :=
  "Usage: run-markup.js [--openDelimiter <open>] [--closeDelimiter <close>] <info.json> <template.yaml> [output.txt]".

Definition main (argv : list string) : M H unit :=
  let c := parse_args argv initial_cli in
  let infoPath := path_arg (cli_files c) 0 in
  let templatePath := path_arg (cli_files c) 1 in
  let outPath := path_arg (cli_files c) 2 in
  match infoPath, templatePath with
  | Some (VStr info), Some (VStr tpl) =>
      if negb (JS.truthy infoPath) || negb (JS.truthy templatePath) then
        console_error H usage [] ;;; process_exit 1
      else
        context <- load_context info ;;
        template <- load_template tpl ;;
        output <- render template context (cli_open c) (cli_close c) ;;
        write_output outPath output ;;;
        make_executable H
  | _, _ => console_error H usage [] ;;; process_exit 1
  end.

(** A run of the script on a file system, from an empty trace. *)
Definition run (argv : list string) (fs : fsys H) : outcome unit * world H :=
  main argv (mkWorld fs []).

End Program.
End Simple.

(** ** Reading delimiter settings out of a configuration object

    The pattern the enhanced and merged CLIs repeat:
<<
    if (c.options && c.options.delimiters) {
      if (c.options.delimiters.open)  globalOpen  = c.options.delimiters.open;
      if (c.options.delimiters.close) globalClose = c.options.delimiters.close;
    }
>>
*)
Module Delimiters.

(** [c.options && c.options.delimiters]. *)
Definition configured (c : jv) : result jv :=
  rbind (JS.get c "options") (fun o =>
  if JS.truthy o then JS.get o "delimiters" else Ok o).

(** [if (candidate) current = candidate]. *)
Definition override (current candidate : jv) : jv :=
  if JS.truthy candidate then candidate else current.

(** The global pair after the block above has run on [c]. *)
Definition apply (c : jv) (g : jv * jv) : result (jv * jv) :=
  rbind (configured c) (fun d =>
  if JS.truthy d then
    rbind (JS.get d "open") (fun o =>
    rbind (JS.get d "close") (fun cl =>
    Ok (override (fst g) o, override (snd g) cl)))
  else Ok g).

(** The pair a file is rendered with:
    [fileCfg.openDelimiter || openDel], where
    [fileCfg = files[fileName] || {}]. *)
Definition file_config (files : jv) (fileName : string) : result jv :=
  rbind (JS.get files fileName) (fun fc =>
  Ok (JS.or fc (Some JS.empty_object))).

End Delimiters.

(** ** The enhanced CLI *)

Module Enhanced.
Section Program.

Variable H : Host.

Record args : Type := mkArgs {
  configPath : jv;
  argOpenDelimiter : jv;
  argCloseDelimiter : jv;
  templateDir : jv;
  outputDir : jv;
  infoPath : jv;
  templatePath : jv;
  outPath : jv;
  isDirectoryMode : bool
}.

Definition initial_args : args :=
  mkArgs (Some VNull) (JS.str "{{") (JS.str "}}") (Some VNull) (Some VNull)
         (Some VNull) (Some VNull) (Some VNull) false.

Definition is_flag (arg long short : string) : bool :=
  ((arg =? long) || (arg =? short))%string.

(** Lines 28-48.  [value_of rest] is [argv[++i]]. *)
Definition value_of (rest : list string) : jv := option_map VStr (hd_error rest).

Definition positional (arg : string) (a : args) : args :=
  if negb (JS.truthy (infoPath a)) then
    mkArgs (configPath a) (argOpenDelimiter a) (argCloseDelimiter a) (templateDir a)
           (outputDir a) (JS.str arg) (templatePath a) (outPath a) (isDirectoryMode a)
  else if negb (JS.truthy (templatePath a)) then
    mkArgs (configPath a) (argOpenDelimiter a) (argCloseDelimiter a) (templateDir a)
           (outputDir a) (infoPath a) (JS.str arg) (outPath a) (isDirectoryMode a)
  else if negb (JS.truthy (outPath a)) then
    mkArgs (configPath a) (argOpenDelimiter a) (argCloseDelimiter a) (templateDir a)
           (outputDir a) (infoPath a) (templatePath a) (JS.str arg) (isDirectoryMode a)
  else a.

Definition flagged (arg : string) (v : jv) (a : args) : option args :=
  if is_flag arg "--config" "-f" then
    Some (mkArgs v (argOpenDelimiter a) (argCloseDelimiter a) (templateDir a)
                 (outputDir a) (infoPath a) (templatePath a) (outPath a) (isDirectoryMode a))
  else if is_flag arg "--openDelimiter" "-o" then
    Some (mkArgs (configPath a) v (argCloseDelimiter a) (templateDir a)
                 (outputDir a) (infoPath a) (templatePath a) (outPath a) (isDirectoryMode a))
  else if is_flag arg "--closeDelimiter" "-c" then
    Some (mkArgs (configPath a) (argOpenDelimiter a) v (templateDir a)
                 (outputDir a) (infoPath a) (templatePath a) (outPath a) (isDirectoryMode a))
  else if is_flag arg "--templateDir" "-t" then
    Some (mkArgs (configPath a) (argOpenDelimiter a) (argCloseDelimiter a) v
                 (outputDir a) (infoPath a) (templatePath a) (outPath a) true)
  else if is_flag arg "--outputDir" "-d" then
    Some (mkArgs (configPath a) (argOpenDelimiter a) (argCloseDelimiter a) (templateDir a)
                 v (infoPath a) (templatePath a) (outPath a) (isDirectoryMode a))
  else None.

Fixpoint parse_args (argv : list string) (a : args) : args :=
  match argv with
  | [] => a
  | arg :: rest =>
      match flagged arg (value_of rest) a with
      | Some a' =>
          match rest with
          | [] => a'
          | _ :: rest' => parse_args rest' a'
          end
      | None => parse_args rest (positional arg a)
      end
  end.

(** The script's mutable globals [config], [globalOpenDelimiter] and
    [globalCloseDelimiter]. *)
Record settings : Type := mkSettings {
  config : value;
  globalOpenDelimiter : jv;
  globalCloseDelimiter : jv
}.

Definition initial_config : value := VObj [("files", JS.empty_object)].

(** Lines 66-87, the body of the [try]. *)
Definition read_config (configObj : value) (s : settings) : result settings :=
  rbind (JS.get (Some configObj) "templator-js") (fun tj =>
  let config0 := match tj with
                 | Some c => if JS.truthy tj then c else configObj
                 | None => configObj
                 end in
  rbind (JS.get (Some config0) "files") (fun files =>
  rbind (if negb (JS.truthy files) then JS.set config0 "files" JS.empty_object
         else Ok config0) (fun config1 =>
  rbind (Delimiters.apply (Some config1)
           (globalOpenDelimiter s, globalCloseDelimiter s)) (fun g =>
  Ok (mkSettings config1 (fst g) (snd g)))))).

(** Lines 62-92. *)
Definition load_config (a : args) (s : settings) : M H settings :=
  match configPath a with
  | Some (VStr p) =>
      if JS.truthy (configPath a) then
        try_catch
          (configData <- fs_readFileSync H p ;;
           configObj <- lift (JSON_parse H configData) ;;
           lift (read_config configObj s))
          (fun err =>
             console_error H "Error reading or parsing config file at ${configPath}: ${err.message}"
               [configPath a; JS.str err] ;;;
             process_exit 2)
      else ret s
  | _ => ret s
  end.

(** Lines 101-138: the configuration embedded in the context document.
    Returns the data that is left and the updated globals. *)
Definition extract_config (jsonObj : value) (s : settings) : result (value * settings) :=
  rbind (JS.get (Some jsonObj) "templator-js") (fun templatorConfig =>
  if JS.truthy templatorConfig then
    rbind (Delimiters.apply templatorConfig
             (globalOpenDelimiter s, globalCloseDelimiter s)) (fun g =>
    rbind (JS.get templatorConfig "files") (fun files =>
    rbind (match files with
           | Some f => if JS.truthy files then JS.set (config s) "files" f
                       else Ok (config s)
           | None => Ok (config s)
           end) (fun config1 =>
    rbind (JS.delete jsonObj "templator-js") (fun jsonObj1 =>
    Ok (jsonObj1, mkSettings config1 (fst g) (snd g))))))
  else
    rbind (JS.get (Some jsonObj) "options") (fun opts =>
    rbind (JS.get (Some jsonObj) "files") (fun files =>
    match JS.and opts files with
    | Some f =>
        if JS.truthy (JS.and opts files) then
          rbind (JS.get opts "delimiters") (fun d =>
          rbind (if JS.truthy d then
                   rbind (JS.get d "open") (fun o =>
                   rbind (JS.get d "close") (fun cl =>
                   Ok (Delimiters.override (globalOpenDelimiter s) o,
                       Delimiters.override (globalCloseDelimiter s) cl)))
                 else Ok (globalOpenDelimiter s, globalCloseDelimiter s)) (fun g =>
          rbind (JS.set (config s) "files" f) (fun config1 =>
          rbind (JS.delete jsonObj "options") (fun jsonObj1 =>
          rbind (JS.delete jsonObj1 "files") (fun jsonObj2 =>
          Ok (jsonObj2, mkSettings config1 (fst g) (snd g)))))))
        else Ok (jsonObj, s)
    | None => Ok (jsonObj, s)
    end))).

(** Lines 95-151. *)
Definition load_context (info : string) (s : settings) : M H (value * settings) :=
  try_catch
    (jsonData <- fs_readFileSync H info ;;
     jsonObj <- lift (JSON_parse H jsonData) ;;
     '(data, s') <- lift (extract_config jsonObj s) ;;
     context <- lift (ensure_items data) ;;
     ret (context, s'))
    (fun err =>
       console_error H "Error reading or parsing JSON file at ${infoPath}: ${err.message}"
         [JS.str info; JS.str err] ;;;
       process_exit 3).

(** Lines 158-162: the delimiters [renderTemplate] settles on. *)
Definition resolve_delimiters (s : settings) (templateFilePath : string)
    (openDel closeDel : jv) : result options :=
  let fileName := path_basename H templateFilePath in
  rbind (JS.get (Some (config s)) "files") (fun files =>
  rbind (Delimiters.file_config files fileName) (fun fileConfig =>
  rbind (JS.get fileConfig "openDelimiter") (fun fo =>
  rbind (JS.get fileConfig "closeDelimiter") (fun fc =>
  Ok (mkOptions (JS.or (JS.or fo openDel) (globalOpenDelimiter s))
                (JS.or (JS.or fc closeDel) (globalCloseDelimiter s))))))).

(** Lines 156-194. *)
Definition renderTemplate (s : settings) (templateFilePath outputFilePath : string)
    (ctx : value) (openDel closeDel : jv) : M H bool :=
  o <- lift (resolve_delimiters s templateFilePath openDel closeDel) ;;
  try_catch
    (template <- fs_readFileSync H templateFilePath ;;
     console_log H "Rendering ${templateFilePath} with delimiters '${openDelimiter}' and '${closeDelimiter}'"
       [JS.str templateFilePath; openDelimiter o; closeDelimiter o] ;;;
     output <- mark_up H template ctx (Some o) ;;
     let outputDir := path_dirname H outputFilePath in
     dir_exists <- fs_existsSync H outputDir ;;
     (if negb dir_exists then fs_mkdirSync H outputDir else ret tt) ;;;
     fs_writeFileSync H outputFilePath output None ;;;
     console_log H "Rendered output written to ${outputFilePath}" [JS.str outputFilePath] ;;;
     ret true)
    (fun err =>
       console_error H "Error processing template ${templateFilePath}: ${err.message}"
         [JS.str templateFilePath; JS.str err] ;;;
       ret false).

(** Lines 207-225: one turn of the [for ... of] loop. *)
Definition process_entry (s : settings) (tdir odir : string) (context : value)
    (file : string) (successCount : Z) : M H Z :=
  let templateFilePath := path_join H tdir file in
  st <- fs_statSync H templateFilePath ;;
  if negb (isFile st) then ret successCount
  else
    let outputFilePath := path_join H odir file in
    files <- lift (JS.get (Some (config s)) "files") ;;
    fileConfig <- lift (Delimiters.file_config files file) ;;
    fo <- lift (JS.get fileConfig "openDelimiter") ;;
    fc <- lift (JS.get fileConfig "closeDelimiter") ;;
    let openDelimiter := JS.or fo (globalOpenDelimiter s) in
    let closeDelimiter := JS.or fc (globalCloseDelimiter s) in
    ok <- renderTemplate s templateFilePath outputFilePath context
            openDelimiter closeDelimiter ;;
    ret (if ok : bool then successCount + 1 else successCount).

Fixpoint process_entries (s : settings) (tdir odir : string) (context : value)
    (files : list string) (successCount : Z) : M H Z :=
  match files with
  | [] => ret successCount
  | file :: rest =>
      n <- process_entry s tdir odir context file successCount ;;
      process_entries s tdir odir context rest n
  end.

(** Lines 197-231. *)
Definition directory_mode (s : settings) (tdir odir : string) (context : value)
  : M H unit :=
  try_catch
    (out_exists <- fs_existsSync H odir ;;
     (if negb out_exists then fs_mkdirSync H odir else ret tt) ;;;
     files <- fs_readdirSync H tdir ;;
     successCount <- process_entries s tdir odir context files 0 ;;
     console_log H "Successfully processed ${successCount} of ${files.length} files"
       [Some (VNum successCount); Some (VNum (Z.of_nat (List.length files)))])
    (fun err =>
       console_error H "Error processing directory: ${err.message}" [JS.str err] ;;;
       process_exit 4).

(** Lines 233-245. *)
Definition single_file_mode (s : settings) (tpl : string) (out : jv) (context : value)
  : M H unit :=
  let outputFilePath := match JS.or out (JS.str "stdout") with
                        | Some (VStr p) => p
                        | _ => "stdout"
                        end in
  renderTemplate s tpl outputFilePath context
    (globalOpenDelimiter s) (globalCloseDelimiter s) ;;;
  if negb (JS.truthy out) then
    template <- fs_readFileSync H tpl ;;
    output <- mark_up H template context
                (Some (mkOptions (globalOpenDelimiter s) (globalCloseDelimiter s))) ;;
    stdout_write H output
  else ret tt.

Definition usage_directory : string :=
  "Directory mode usage: templator.js --config <config.json> --templateDir <template_dir> --outputDir <output_dir> <info.json>".
Definition usage_single : string :=
  "Single file usage: templator.js [--config <config.json>] [--openDelimiter <open>] [--closeDelimiter <close>] <info.json> <template.yaml> [output.txt]".

Definition main (argv : list string) : M H unit :=
  let a := parse_args argv initial_args in
  if isDirectoryMode a
     && (negb (JS.truthy (infoPath a)) || negb (JS.truthy (templateDir a))
         || negb (JS.truthy (outputDir a)))
  then console_error H usage_directory [] ;;; process_exit 1
  else if negb (isDirectoryMode a)
     && (negb (JS.truthy (infoPath a)) || negb (JS.truthy (templatePath a)))
  then console_error H usage_single [] ;;; process_exit 1
  else
    s <- load_config a (mkSettings initial_config (argOpenDelimiter a) (argCloseDelimiter a)) ;;
    match infoPath a with
    | Some (VStr info) =>
        '(context, s') <- load_context info s ;;
        (if isDirectoryMode a then
           match templateDir a, outputDir a with
           | Some (VStr tdir), Some (VStr odir) => directory_mode s' tdir odir context
           | _, _ => ret tt
           end
         else
           match templatePath a with
           | Some (VStr tpl) => single_file_mode s' tpl (outPath a) context
           | _ => ret tt
           end) ;;;
        make_executable H
    | _ => ret tt
    end.

Definition run (argv : list string) (fs : fsys H) : outcome unit * world H :=
  main argv (mkWorld fs []).

End Program.
End Enhanced.

(** ** The merged CLI *)

Module Merged.
Section Program.

Variable H : Host.

(** The script's mutable globals [tplConfig], [globalOpen] and
    [globalClose]. *)
Record settings : Type := mkSettings {
  tplConfig : value;
  globalOpen : jv;
  globalClose : jv
}.

(** [minimist] declares every path option as a string; Node's [fs] and
    [path] functions throw a TypeError on anything else. *)
Definition as_path (v : jv) : result string :=
  match v with
  | Some (VStr p) => Ok p
  | _ => Err "The path argument must be of type string"
  end.

(** [Array.prototype.forEach] with a callback that has effects. *)
Fixpoint forEach {A} (l : list A) (f : A -> M H unit) : M H unit :=
  match l with
  | [] => ret tt
  | x :: l' => f x ;;; forEach l' f
  end.

(** A [shelljs] call: it changes the host's state and does not throw. *)
Definition shell (f : fsys H -> fsys H) (e : event) : M H unit :=
  fun w => (Ret tt, mkWorld (f (w_fs w)) (w_trace w ++ [e])).

(** Lines 35-60; the usage text is abbreviated. *)
Definition help_text : string := "Usage: templator --config ... --configuration ...".

Definition help : M H unit := console_log H help_text [].

(** Lines 69-75, the body of the [try] after the file is read. *)
Definition read_config (obj : value) (s : settings) : result settings :=
  rbind (JS.get (Some obj) "templator-js") (fun tj =>
  let tplConfig0 := match JS.or tj (Some obj) with
                    | Some c => c
                    | None => obj
                    end in
  rbind (JS.get (Some tplConfig0) "files") (fun files =>
  rbind (match JS.or files (Some JS.empty_object) with
         | Some f => JS.set tplConfig0 "files" f
         | None => Ok tplConfig0
         end) (fun tplConfig1 =>
  rbind (Delimiters.apply (Some tplConfig1) (globalOpen s, globalClose s)) (fun g =>
  Ok (mkSettings tplConfig1 (fst g) (snd g)))))).

(** Lines 28-31: the defaults [minimist] fills in for the options that
    are not given on the command line. *)
Definition defaults : list (string * value) :=
  [("templates", VStr "."); ("destination", VStr "generated")].

Definition with_defaults (given : list (string * value)) : list (string * value) :=
  fold_left (fun ps d => match JS.assoc (fst d) ps with
                         | Some _ => ps
                         | None => (ps ++ [d])%list
                         end) defaults given.

(** Lines 63-80; [parameters] are the properties of the object
    [minimist] returns. *)
Definition load_config (parameters : list (string * value)) : M H settings :=
  let s := mkSettings (VObj [("files", JS.empty_object)])
             (JS.or (JS.assoc "openDelimiter" parameters) (JS.str "{{"))
             (JS.or (JS.assoc "closeDelimiter" parameters) (JS.str "}}")) in
  if JS.truthy (JS.assoc "config" parameters) then
    try_catch
      (p <- lift (as_path (JS.assoc "config" parameters)) ;;
       raw <- fs_readFileSync H p ;;
       obj <- lift (JSON_parse H raw) ;;
       lift (read_config obj s))
      (fun err =>
         console_error H "Error loading templator config at ${parameters.config}: ${err.message}"
           [JS.assoc "config" parameters; JS.str err] ;;;
         process_exit 2)
  else ret s.

Definition own_options : list string :=
  ["_"; "config"; "configuration"; "templates"; "templateDir"; "outputDir";
   "destination"; "zip"; "help"; "debug"; "openDelimiter"; "closeDelimiter"].

(** Lines 83-106; [None] stands for [{ ok: false }] and [Some ctx] for
    [{ ok: true, context: ctx }]. *)
Definition initContext (params : list (string * value)) : M H (option value) :=
  if JS.truthy (JS.assoc "help" params) then
    help ;;; ret None
  else if JS.truthy (JS.assoc "configuration" params) then
    try_catch
      (p <- lift (as_path (JS.assoc "configuration" params)) ;;
       ctx <- fs_read H (fun fs => require_resolved H fs p) ;;
       ret (Some ctx))
      (fun err =>
         console_error H "Context JSON ${params.configuration} not found or invalid"
           [JS.assoc "configuration" params] ;;;
         ret None)
  else
    ret (Some (VObj (fold_left (fun ps k => JS.assoc_del k ps) own_options params))).

(** Lines 111-113. *)
Definition resolve_delimiters (s : settings) (srcPath : string) (openDel closeDel : jv)
  : result options :=
  let fileName := path_basename H srcPath in
  rbind (JS.get (Some (tplConfig s)) "files") (fun files =>
  rbind (Delimiters.file_config files fileName) (fun fileCfg =>
  rbind (JS.get fileCfg "openDelimiter") (fun fo =>
  rbind (JS.get fileCfg "closeDelimiter") (fun fc =>
  Ok (mkOptions (JS.or fo openDel) (JS.or fc closeDel)))))).

Definition is_stdout (outPath : jv) : bool :=
  match outPath with
  | Some (VStr p) => (p =? "stdout")%string
  | _ => false
  end.

(** Lines 109-130. *)
Definition renderTemplate (s : settings) (srcPath : string) (outPath : jv)
    (ctx : value) (openDel closeDel : jv) : M H bool :=
  o <- lift (resolve_delimiters s srcPath openDel closeDel) ;;
  try_catch
    (tpl <- fs_readFileSync H srcPath ;;
     console_log H "Rendering ${srcPath} with delimiters '${od}' and '${cd}'"
       [JS.str srcPath; openDelimiter o; closeDelimiter o] ;;;
     result <- mark_up H tpl ctx (Some o) ;;
     (if is_stdout outPath then stdout_write H result
      else
        p <- lift (as_path outPath) ;;
        mkdirp H (path_dirname H p) ;;;
        fs_writeFileSync H p result None ;;;
        console_log H "Written to ${outPath}" [outPath]) ;;;
     ret true)
    (fun err =>
       console_error H "Error rendering ${srcPath}: ${err.message}"
         [JS.str srcPath; JS.str err] ;;;
       ret false).

(** Lines 133-138.  The archive is written by callbacks that run after
    the script's last statement; the trace records the request. *)
Definition zipGenerated (dir : string) : M H unit := emit H (Zipped dir).

(** Lines 140-152. *)
Definition processTemplateFile (src dest : string) (ctx : value) : M H unit :=
  let ext := path_extname H src in
  stat <- fs_statSync H src ;;
  tpl <- fs_readFileSync H src ;;
  out <- mark_up H tpl ctx None ;;
  if (ext =? ".script")%string then
    shell (fun fs => shell_pushd H fs (path_dirname H dest)) (Pushd (path_dirname H dest)) ;;;
    shell (fun fs => shell_exec H fs out) (ShellExec out) ;;;
    shell (shell_popd H) Popd
  else
    fs_writeFileSync H dest out (Some (mode stat)).

(** [s.substr(n)]. *)
Definition substr (s : string) (n : nat) : string :=
  String.substring n (String.length s) s.

(** Lines 155-167.  The recursion follows the directory tree; [depth]
    bounds the call stack, and running out of it is the RangeError
    JavaScript throws when the stack is exhausted. *)
Fixpoint generateDir (depth : nat) (srcDir baseDir destDir : string) (ctx : value)
  : M H unit :=
  match depth with
  | O => throw "Maximum call stack size exceeded"
  | S depth' =>
      items <- fs_readdirSync H srcDir ;;
      forEach items (fun item =>
        let srcPath := path_join H srcDir item in
        let rel := substr srcPath (String.length baseDir) in
        let destPath := path_join H destDir rel in
        st <- fs_statSync H srcPath ;;
        if isDirectory st then
          mkdirp H destPath ;;;
          generateDir depth' srcPath baseDir destDir ctx
        else processTemplateFile srcPath destPath ctx)
  end.

(** Lines 183-189. *)
Definition batch_mode (depth : nat) (parameters : list (string * value))
    (srcInput : string) (context : value) : M H unit :=
  let outDir := JS.or (JS.assoc "outputDir" parameters) (JS.assoc "destination" parameters) in
  dir <- lift (as_path outDir) ;;
  mkdirp H dir ;;;
  generateDir depth srcInput srcInput dir context ;;;
  console_log H "Successfully processed directory ${srcInput}" [JS.str srcInput] ;;;
  if JS.truthy (JS.assoc "zip" parameters) then zipGenerated dir else ret tt.

(** Lines 191-193. *)
Definition single_file_mode (s : settings) (parameters : list (string * value))
    (srcInput : string) (context : value) : M H unit :=
  let outFile := JS.or (JS.or (JS.assoc "destination" parameters)
                              (JS.assoc "outputDir" parameters))
                       (JS.str "stdout") in
  renderTemplate s srcInput outFile context (globalOpen s) (globalClose s) ;;;
  ret tt.

(** Lines 170-199. *)
Definition main (depth : nat) (parameters : list (string * value)) : M H unit :=
  s <- load_config parameters ;;
  init <- initContext parameters ;;
  match init with
  | None => process_exit 1
  | Some context =>
      (if JS.truthy (JS.assoc "debug" parameters)
       then console_log H "Context:" [Some context] else ret tt) ;;;
      let srcInput := JS.or (JS.assoc "templateDir" parameters)
                            (JS.assoc "templates" parameters) in
      match srcInput with
      | Some (VStr src) =>
          found <- fs_existsSync H src ;;
          if negb found then
            console_error H "Source path ${srcInput} not found" [srcInput] ;;;
            process_exit 1
          else
            stat <- fs_statSync H src ;;
            (if isDirectory stat then batch_mode depth parameters src context
             else single_file_mode s parameters src context) ;;;
            make_executable H
      | _ =>
          console_error H "Source path ${srcInput} not found" [srcInput] ;;;
          process_exit 1
      end
  end.

Definition run (depth : nat) (parameters : list (string * value)) (fs : fsys H)
  : outcome unit * world H :=
  main depth parameters (mkWorld fs []).

End Program.
End Merged.

(** ** A small concrete host

    Files and directories are association lists; paths use [/].  The
    engine of this host spells out the delimiters it was given and throws on
    a template with an unclosed section; [JSON.parse] knows a table of
    documents. *)

Module Demo.

Record disk : Type := mkDisk {
  d_files : list (string * (string * Z));
  d_dirs : list (string * list string);
  d_readonly : list string
}.

Fixpoint lookup {A} (k : string) (l : list (string * A)) : option A :=
  match l with
  | [] => None
  | (k', a) :: l' => if (k =? k')%string then Some a else lookup k l'
  end.

Fixpoint update {A} (k : string) (a : A) (l : list (string * A)) : list (string * A) :=
  match l with
  | [] => [(k, a)]
  | (k', a') :: l' => if (k =? k')%string then (k, a) :: l' else (k', a') :: update k a l'
  end.

Definition mem (k : string) (l : list string) : bool :=
  existsb (fun k' => (k =? k')%string) l.

Definition read (d : disk) (p : string) : result string :=
  match lookup p (d_files d) with
  | Some (c, _) => Ok c
  | None => Err "ENOENT: no such file or directory"
  end.

Definition write (d : disk) (p data : string) (md : option Z) : result disk :=
  if mem p (d_readonly d) then Err "EACCES: permission denied"
  else
    let m := match lookup p (d_files d), md with
             | Some (_, m0), _ => m0
             | None, Some m1 => m1
             | None, None => 438
             end in
    Ok (mkDisk (update p (data, m) (d_files d)) (d_dirs d) (d_readonly d)).

Definition exists_ (d : disk) (p : string) : bool :=
  match lookup p (d_files d), lookup p (d_dirs d) with
  | None, None => false
  | _, _ => true
  end.

Definition stat (d : disk) (p : string) : result stats :=
  match lookup p (d_files d), lookup p (d_dirs d) with
  | Some (_, m), _ => Ok (mkStats true false m)
  | None, Some _ => Ok (mkStats false true 493)
  | None, None => Err "ENOENT: no such file or directory"
  end.

Definition readdir (d : disk) (p : string) : result (list string) :=
  match lookup p (d_dirs d) with
  | Some names => Ok names
  | None => Err "ENOENT: no such file or directory"
  end.

Definition mkdir (d : disk) (p : string) : result disk :=
  if mem p (d_readonly d) then Err "EACCES: permission denied"
  else match lookup p (d_dirs d) with
       | Some _ => Ok d
       | None => Ok (mkDisk (d_files d) (d_dirs d ++ [(p, [])]) (d_readonly d))
       end.

(** The text after the last [/], and the text before it. *)
Fixpoint split_path (s dir cur : string) (slash : bool) : string * string :=
  match s with
  | EmptyString => (if slash then dir else ".", cur)
  | String c s' =>
      if Ascii.eqb c "/"%char
      then split_path s' (if slash then dir ++ "/" ++ cur else cur) "" true
      else split_path s' dir (cur ++ String c "") slash
  end.

Definition basename (p : string) : string := snd (split_path p "" "" false).
Definition dirname (p : string) : string := fst (split_path p "" "" false).

Fixpoint ext_of (s : string) (ext : string) : string :=
  match s with
  | EmptyString => ext
  | String c s' =>
      if Ascii.eqb c "."%char then ext_of s' (String c "")
      else ext_of s' (match ext with EmptyString => ext | _ => ext ++ String c "" end)
  end.

Definition extname (p : string) : string := ext_of (basename p) "".

Definition join (a b : string) : string :=
  match b with
  | String "/"%char _ => a ++ b
  | _ => a ++ "/" ++ b
  end.

Definition delimiter_text (d : jv) : string :=
  match d with
  | Some (VStr s) => s
  | _ => "undefined"
  end.

Definition engine (tpl : string) (ctx : value) (o : option options) : result string :=
  if (tpl =? "{{#a}}no close")%string then Err "Unmatched section a"
  else match o with
       | Some o' => Ok (delimiter_text (openDelimiter o') ++ tpl ++ delimiter_text (closeDelimiter o'))
       | None => Ok ("{{" ++ tpl ++ "}}")
       end.

Definition parse (docs : list (string * value)) (text : string) : result value :=
  match lookup text docs with
  | Some v => Ok v
  | None => Err "Unexpected token in JSON"
  end.

Definition host (docs : list (string * value)) : Host :=
  {| fsys := disk;
     readFileSync := read;
     writeFileSync := write;
     existsSync := exists_;
     statSync := stat;
     readdirSync := readdir;
     mkdirSync_recursive := mkdir;
     chmodSync_self := fun d => Ok d;
     mkdirp_sync := mkdir;
     shell_pushd := fun d _ => d;
     shell_exec := fun d _ => d;
     shell_popd := fun d => d;
     require_resolved := fun d p => rbind (read d p) (parse docs);
     path_basename := basename;
     path_dirname := dirname;
     path_extname := extname;
     path_join := join;
     platform_win32 := false;
     JSON_parse := parse docs;
     Mark_up := engine |}.

(** The documents and the disk of the examples. *)
Definition page_override : value :=
  VObj [("files", VObj [("page.tpl", VObj [("openDelimiter", VStr "<%");
                                          ("closeDelimiter", VStr "%>")])])].

Definition docs : list (string * value) :=
  [("{ctx}", VObj [("name", VStr "World"); ("items", VStr "a")]);
   ("{}", VObj []);
   ("{cfg}", page_override);
   ("{cfg2}", VObj [("templator-js",
                     VObj [("options", VObj [("delimiters",
                             VObj [("open", VStr "[["); ("close", VStr "]]")])])])])].

Definition disk0 : disk :=
  mkDisk [("info.json", ("{ctx}", 420)); ("empty.json", ("{}", 420));
          ("config.json", ("{cfg}", 420)); ("config2.json", ("{cfg2}", 420));
          ("page.tpl", ("Hello", 420));
          ("site/page.tpl", ("P", 384)); ("site/run.script", ("echo hi", 493));
          ("site/sub/deep.tpl", ("D", 420));
          ("pages/page.tpl", ("P", 420));
          ("broken/a.tpl", ("{{#a}}no close", 420)); ("broken/b.tpl", ("B", 420))]
         [("site", ["page.tpl"; "run.script"; "sub"]); ("site/sub", ["deep.tpl"]);
          ("pages", ["page.tpl"]);
          ("broken", ["a.tpl"; "b.tpl"]); ("out", []); (".", [])]
         ["locked.txt"].

Definition h : Host := host docs.

End Demo.

(** ** Vocabulary of the statements *)

(** Every event a computation appends to the trace, run from [w] or from
    any world, satisfies [P]. *)
Definition appends_at {H : Host} {A} (P : event -> Prop) (m : M H A) (w : world H) : Prop :=
  exists evs, w_trace (snd (m w)) = (w_trace w ++ evs)%list /\ Forall P evs.

Definition appends {H : Host} {A} (P : event -> Prop) (m : M H A) : Prop :=
  forall w, appends_at P m w.

(** An engine call made without an options object. *)
Definition without_options (e : event) : Prop :=
  forall t c o, e = Rendered t c o -> o = None.

(** The engine calls among the events have [ctx] for their context. *)
Definition renders_with (ctx : value) (e : event) : Prop :=
  forall t c o, e = Rendered t c o -> c = ctx.

(** The options of the calls to the engine, in the order of the calls. *)
Fixpoint engine_calls (t : list event) : list (option options) :=
  match t with
  | [] => []
  | Rendered _ _ o :: t' => o :: engine_calls t'
  | _ :: t' => engine_calls t'
  end.

Definition is_write (e : event) : bool :=
  match e with
  | Wrote _ _ _ => true
  | _ => false
  end.

Definition is_error_message (e : event) : bool :=
  match e with
  | ConsoleError _ _ => true
  | _ => false
  end.

(** A field of a parsed document that is an object. *)
Definition field (k : string) (doc : value) : jv :=
  match doc with
  | VObj ps => JS.assoc k ps
  | _ => None
  end.

(** Resolution by precedence: the first candidate that is given (a
    non-empty string, or any other truthy value), and the fallback when none
    is. *)
Fixpoint precedence (candidates : list jv) (fallback : jv) : jv :=
  match candidates with
  | [] => fallback
  | c :: cs => if JS.truthy c then c else precedence cs fallback
  end.

(** The delimiter [k] that the [files] mapping [fm] of the configuration
    gives for the file called [name]. *)
Definition file_override (fm : list (string * value)) (name k : string) : jv :=
  match JS.assoc name fm with
  | Some (VObj entry) => JS.assoc k entry
  | _ => None
  end.

(** The entry of a file in the [files] mapping is an object, when there
    is one. *)
Definition entry_is_mapping (fm : list (string * value)) (name : string) : Prop :=
  JS.assoc name fm = None \/ exists entry, JS.assoc name fm = Some (VObj entry).

(** The console messages of the enhanced CLI's directory mode. *)
Definition log_written (out : string) : event :=
  ConsoleLog "Rendered output written to ${outputFilePath}" [JS.str out].

Definition log_failed (path e : string) : event :=
  ConsoleError "Error processing template ${templateFilePath}: ${err.message}"
    [JS.str path; JS.str e].

Definition log_processed (successCount : Z) (total : nat) : event :=
  ConsoleLog "Successfully processed ${successCount} of ${files.length} files"
    [Some (VNum successCount); Some (VNum (Z.of_nat total))].



(** The failure categories of the specification that the simple CLI can
    meet; it loads no configuration document. *)
Inductive failure : Type :=
| ContextParse
| TemplateRead
| Render
| OutputWrite.

(** The first thing that fails when the simple CLI is given the context
    document [info], the template [tpl] and the output path [out] on the file
    system [fs], if anything does. *)
Definition simple_failure (H : Host) (od cd : jv) (info tpl : string) (out : jv)
    (fs : fsys H) : option failure :=
  match rbind (readFileSync H fs info) (fun text =>
        rbind (JSON_parse H text) ensure_items) with
  | Err _ => Some ContextParse
  | Ok context =>
      match readFileSync H fs tpl with
      | Err _ => Some TemplateRead
      | Ok template =>
          match Mark_up H template context (Some (mkOptions od cd)) with
          | Err _ => Some Render
          | Ok output =>
              match out with
              | Some (VStr p) =>
                  if JS.truthy out then
                    match writeFileSync H fs p output None with
                    | Err _ => Some OutputWrite
                    | Ok _ => None
                    end
                  else None
              | _ => None
              end
          end
      end
  end.

(** The exit status the simple CLI gives each outcome. *)
Definition simple_status (f : option failure) : Z :=
  match f with
  | None => 0
  | Some ContextParse => 2
  | Some TemplateRead => 3
  | Some Render => 4
  | Some OutputWrite => 5
  end.


(** The arguments of the enhanced CLI pass its two usage checks. *)
Definition enhanced_usage_ok (a : Enhanced.args) : bool :=
  negb (Enhanced.isDirectoryMode a
        && (negb (JS.truthy (Enhanced.infoPath a))
            || negb (JS.truthy (Enhanced.templateDir a))
            || negb (JS.truthy (Enhanced.outputDir a))))
  && negb (negb (Enhanced.isDirectoryMode a)
           && (negb (JS.truthy (Enhanced.infoPath a))
               || negb (JS.truthy (Enhanced.templatePath a)))).

(** The globals of the enhanced CLI when its arguments are parsed. *)
Definition enhanced_initial_settings (a : Enhanced.args) : Enhanced.settings :=
  Enhanced.mkSettings Enhanced.initial_config
    (Enhanced.argOpenDelimiter a) (Enhanced.argCloseDelimiter a).

(** The globals of the merged CLI before it loads a configuration. *)
Definition merged_initial_settings (parameters : list (string * value))
  : Merged.settings :=
  Merged.mkSettings (VObj [("files", JS.empty_object)])
    (JS.or (JS.assoc "openDelimiter" parameters) (JS.str "{{"))
    (JS.or (JS.assoc "closeDelimiter" parameters) (JS.str "}}")).

(** A command-line argument that is neither delimiter flag of the
    enhanced CLI. *)
Definition no_delimiter_flag (arg : string) : bool :=
  negb (Enhanced.is_flag arg "--openDelimiter" "-o")
  && negb (Enhanced.is_flag arg "--closeDelimiter" "-c").

(** The configuration inside a configuration document: what is under
    the [templator-js] wrapper, or the document itself. *)
Definition config_root (doc : value) : value :=
  match field "templator-js" doc with
  | Some r => if JS.truthy (Some r) then r else doc
  | None => doc
  end.

(** The delimiter a configuration document supplies:
    [options.delimiters.open] or [options.delimiters.close] of its
    configuration. *)
Definition document_delimiter (which : string) (doc : value) : jv :=
  match field "options" (config_root doc) with
  | Some o =>
      match field "delimiters" o with
      | Some d => field which d
      | None => None
      end
  | None => None
  end.

(** ** Vocabulary of the further properties *)

(** *** Command lines *)

(** A delimiter flag of the simple CLI. *)
Definition simple_flag (arg : string) : bool :=
  ((arg =? "--openDelimiter") || (arg =? "-o")
   || (arg =? "--closeDelimiter") || (arg =? "-c"))%string.

(** No argument of [argv] is one. *)
Definition no_simple_flag (argv : list string) : bool :=
  forallb (fun arg => negb (simple_flag arg)) argv.

(** *** Properties of events *)

(** What the simple CLI may do: print, render, make the script
    executable, and write its output path. *)
Definition simple_effect (outPath : jv) (e : event) : Prop :=
  match e with
  | Wrote p _ file_mode => outPath = Some (VStr p) /\ file_mode = None
  | MadeDir _ | Pushd _ | ShellExec _ | Popd | Zipped _ => False
  | _ => True
  end.

(** An event that reaches standard output. *)
Definition to_stdout (e : event) : bool :=
  match e with
  | Stdout _ | ConsoleLog _ _ => true
  | _ => false
  end.

(** The console messages the properties mention. *)
Definition simple_log_written (outPath : jv) : event :=
  ConsoleLog "Rendered output written to ${outPath}" [outPath].

(** *** Property names *)

(** A decimal digit. *)
Definition is_digit (c : ascii) : bool :=
  (48 <=? nat_of_ascii c)%nat && (nat_of_ascii c <=? 57)%nat.

(** A property name that does not start with a digit. *)
Definition is_name (k : string) : bool :=
  match k with
  | String c _ => negb (is_digit c)
  | EmptyString => true
  end.

(** An argument that the enhanced CLI takes for one of its flags. *)
Definition enhanced_flag (arg : string) : bool :=
  Enhanced.is_flag arg "--config" "-f"
  || Enhanced.is_flag arg "--openDelimiter" "-o"
  || Enhanced.is_flag arg "--closeDelimiter" "-c"
  || Enhanced.is_flag arg "--templateDir" "-t"
  || Enhanced.is_flag arg "--outputDir" "-d".

(** No argument of [argv] is one. *)
Definition no_enhanced_flag (argv : list string) : bool :=
  forallb (fun arg => negb (enhanced_flag arg)) argv.

(** The positional argument at [i], or [null] when there is none. *)
Definition positional_or_null (argv : list string) (i : nat) : jv :=
  match nth_error argv i with
  | Some p => JS.str p
  | None => Some VNull
  end.

(** No argument of [argv] is the flag of the output directory. *)
Definition no_output_dir_flag (argv : list string) : bool :=
  forallb (fun arg => negb (Enhanced.is_flag arg "--outputDir" "-d")) argv.

(** *** Configurations *)

(** The enhanced CLI finds a configuration in the context document [ps]
    under the legacy keys: both [options] and [files] are given. *)
Definition legacy_configuration (ps : list (string * value)) : bool :=
  JS.truthy (JS.and (JS.assoc "options" ps) (JS.assoc "files" ps)).

(** The configuration the enhanced CLI finds inside the context document
    [ps]: what is under [templator-js], or the document itself when it has
    both legacy keys. *)
Definition embedded_root (ps : list (string * value)) : jv :=
  if JS.truthy (JS.assoc "templator-js" ps) then JS.assoc "templator-js" ps
  else if legacy_configuration ps then Some (VObj ps)
  else None.

(** The delimiter it gives. *)
Definition embedded_delimiter (which : string) (ps : list (string * value)) : jv :=
  match embedded_root ps with
  | Some r =>
      match field "options" r with
      | Some o =>
          match field "delimiters" o with
          | Some d => field which d
          | None => None
          end
      | None => None
      end
  | None => None
  end.

(** The [files] mapping it gives. *)
Definition embedded_files (ps : list (string * value)) : jv :=
  match embedded_root ps with
  | Some r => field "files" r
  | None => None
  end.

(** A global delimiter after a configuration is read: the one there was,
    or a value that is given (not empty, not missing). *)
Definition kept_or_given (before after : jv) : Prop :=
  after = before \/ JS.truthy after = true.

(** A boolean, a number or a string: a value on which an assignment of a
    property is dropped. *)
Definition is_primitive (v : value) : bool :=
  match v with
  | VBool _ | VNum _ | VStr _ => true
  | _ => false
  end.

(** The [files] mapping of a configuration can be indexed. *)
Definition has_files (config : value) : Prop :=
  exists fm, JS.get (Some config) "files" = Ok fm /\ JS.truthy fm = true.

(** The console messages of [renderTemplate], in the enhanced and in the
    merged CLI, and those of the merged CLI's main part. *)
Definition log_rendering (path : string) (o : options) : event :=
  ConsoleLog "Rendering ${templateFilePath} with delimiters '${openDelimiter}' and '${closeDelimiter}'"
    [JS.str path; openDelimiter o; closeDelimiter o].

Definition merged_log_rendering (path : string) (o : options) : event :=
  ConsoleLog "Rendering ${srcPath} with delimiters '${od}' and '${cd}'"
    [JS.str path; openDelimiter o; closeDelimiter o].

Definition merged_log_written (out : string) : event :=
  ConsoleLog "Written to ${outPath}" [JS.str out].

Definition merged_log_failed (path e : string) : event :=
  ConsoleError "Error rendering ${srcPath}: ${err.message}" [JS.str path; JS.str e].

(** The entries directory mode works on: the listing of the template
    directory, read once the output directory is there; no entry when either
    step fails. *)
Definition directory_listing (H : Host) (tdir odir : string) (fs : fsys H) : list string :=
  match (if existsSync H fs odir then Ok fs else mkdirSync_recursive H fs odir) with
  | Ok fs0 =>
      match readdirSync H fs0 tdir with
      | Ok files => files
      | Err _ => []
      end
  | Err _ => []
  end.

(** What the enhanced CLI's directory mode may do, given the entries
    [files] it works on: print on the console, render, create the output
    directory or the directory of an entry's output file, and write the
    output file of an entry. *)
Definition directory_effect (H : Host) (odir : string) (files : list string)
    (e : event) : Prop :=
  match e with
  | Wrote p _ file_mode =>
      file_mode = None /\ exists file, In file files /\ p = path_join H odir file
  | MadeDir p =>
      p = odir \/ exists file, In file files /\ p = path_dirname H (path_join H odir file)
  | Stdout _ | Pushd _ | ShellExec _ | Popd | Zipped _ | ChmodSelf => False
  | _ => True
  end.

(** What [generateDir] may do: render with the context it was given and no
    options, write, create directories and change directory below the
    destination, and execute commands.  It prints nothing. *)
Definition batch_effect (H : Host) (destDir : string) (ctx : value) (e : event) : Prop :=
  match e with
  | Rendered _ c o => c = ctx /\ o = None
  | Wrote p _ _ => exists rel, p = path_join H destDir rel
  | MadeDir p => exists rel, p = path_join H destDir rel
  | Pushd d => exists rel, d = path_dirname H (path_join H destDir rel)
  | ShellExec _ | Popd => True
  | Stdout _ | ConsoleLog _ _ | ConsoleError _ _ | Zipped _ | ChmodSelf => False
  end.

(** The message that ends a batch. *)
Definition merged_log_processed (srcInput : string) : event :=
  ConsoleLog "Successfully processed directory ${srcInput}" [JS.str srcInput].

(** The events [evs] show no sign of a completed batch: neither the
    message that the directory is processed nor a request for an archive. *)
Definition unreported (srcInput : string) (evs : list event) : Prop :=
  ~ In (merged_log_processed srcInput) evs /\ forall dir, ~ In (Zipped dir) evs.

(** The source path the merged CLI works on. *)
Definition merged_source (parameters : list (string * value)) : jv :=
  JS.or (JS.assoc "templateDir" parameters) (JS.assoc "templates" parameters).

(** What [--debug] prints, and the complaint about the source path. *)
Definition merged_log_context (context : value) : event :=
  ConsoleLog "Context:" [Some context].

Definition merged_log_not_found (srcInput : jv) : event :=
  ConsoleError "Source path ${srcInput} not found" [srcInput].

(** The events of a run up to the point where the source path is
    examined: the context, when [--debug] asks for it. *)
Definition debug_output (parameters : list (string * value)) (context : value)
  : list event :=
  if JS.truthy (JS.assoc "debug" parameters) then [merged_log_context context] else [].

(** The source path names something that exists. *)
Definition source_exists (H : Host) (fs : fsys H) (srcInput : jv) : bool :=
  match srcInput with
  | Some (VStr src) => existsSync H fs src
  | _ => false
  end.

(** The complaint about the context document. *)
Definition merged_log_no_context (configuration : jv) : event :=
  ConsoleError "Context JSON ${params.configuration} not found or invalid" [configuration].

(** The output path of the merged CLI's single-file mode. *)
Definition merged_out_file (parameters : list (string * value)) : jv :=
  JS.or (JS.or (JS.assoc "destination" parameters) (JS.assoc "outputDir" parameters))
        (JS.str "stdout").

(** The option names the merged CLI keeps for itself. *)
Definition is_own_option (k : string) : bool := existsb (String.eqb k) Merged.own_options.

(** An engine call that passes delimiters passes two that are given. *)
Definition delimiters_given (e : event) : Prop :=
  forall t c o, e = Rendered t c (Some o) ->
    JS.truthy (openDelimiter o) = true /\ JS.truthy (closeDelimiter o) = true.

(** What the merged CLI may do when its source is a file: print, render,
    and write the one output file (never one called [stdout]) after creating
    its directory. *)
Definition single_file_effect (H : Host) (outFile : jv) (e : event) : Prop :=
  match e with
  | Wrote p _ file_mode => outFile = Some (VStr p) /\ p <> "stdout" /\ file_mode = None
  | MadeDir d => exists p, outFile = Some (VStr p) /\ p <> "stdout" /\ d = path_dirname H p
  | Pushd _ | ShellExec _ | Popd | Zipped _ => False
  | _ => True
  end.

(** The second rendering of the enhanced CLI's single-file mode, for
    standard output: the template read again and rendered with the global
    pair. *)
Definition rendered_for_stdout (H : Host) (s : Enhanced.settings) (tpl : string)
    (ctx : value) (fs : fsys H) : result string :=
  rbind (readFileSync H fs tpl) (fun template =>
  Mark_up H template ctx
    (Some (mkOptions (Enhanced.globalOpenDelimiter s) (Enhanced.globalCloseDelimiter s)))).

(** *** A host for a run in the current directory *)

(** [path.join] as Node normalises it when its first argument is [.]:
    the result does not start with [./]. *)
Definition join_normalised (a b : string) : string :=
  if (a =? ".")%string then b else Demo.join a b.

(** The small host with that [path.join], and a disk whose current
    directory holds the context document and one template. *)
Definition cwd_host : Host :=
  {| fsys := Demo.disk;
     readFileSync := Demo.read;
     writeFileSync := Demo.write;
     existsSync := Demo.exists_;
     statSync := Demo.stat;
     readdirSync := Demo.readdir;
     mkdirSync_recursive := Demo.mkdir;
     chmodSync_self := fun d => Ok d;
     mkdirp_sync := Demo.mkdir;
     shell_pushd := fun d _ => d;
     shell_exec := fun d _ => d;
     shell_popd := fun d => d;
     require_resolved := fun d p => rbind (Demo.read d p) (Demo.parse Demo.docs);
     path_basename := Demo.basename;
     path_dirname := Demo.dirname;
     path_extname := Demo.extname;
     path_join := join_normalised;
     platform_win32 := false;
     JSON_parse := Demo.parse Demo.docs;
     Mark_up := Demo.engine |}.

Definition cwd_disk : Demo.disk :=
  Demo.mkDisk [("info.json", ("{ctx}", 420)); ("page.tpl", ("Hello", 420))]
              [(".", ["info.json"; "page.tpl"])]
              [].

(** *** Context documents *)






(** *** Loops *)

(** The worlds a loop goes through: [turn x w w1] holds of each element
    of the list in order, each starting in the world its predecessor left. *)
Inductive turns {H : Host} {A : Type} (turn : A -> world H -> world H -> Prop)
  : list A -> world H -> world H -> Prop :=
| turns_nil (w : world H) : turns turn [] w w
| turns_cons (x : A) (l : list A) (w w1 w2 : world H) :
    turn x w w1 -> turns turn l w1 w2 -> turns turn (x :: l) w w2.

(** *** The walk of [generateDir] *)

(** Where [generateDir] sends the source path [srcPath]:
    [path.join(destDir, srcPath.substr(baseDir.length))]. *)
Definition destination (H : Host) (baseDir destDir srcPath : string) : string :=
  path_join H destDir (Merged.substr srcPath (String.length baseDir)).

(** The turn of the entry [item] of [srcDir] in [generateDir], when it
    completes: [fs.statSync] succeeds on the joined path; a directory is
    created at its destination and walked, with one stack frame less;
    anything else is handed to [processTemplateFile] with its destination. *)
Definition entry_done (H : Host) (depth : nat) (srcDir baseDir destDir : string)
    (ctx : value) (item : string) (w w1 : world H) : Prop :=
  let srcPath := path_join H srcDir item in
  let destPath := destination H baseDir destDir srcPath in
  exists st, statSync H (w_fs w) srcPath = Ok st /\
    if isDirectory st then
      exists fs1, mkdirp_sync H (w_fs w) destPath = Ok fs1 /\
        Merged.generateDir H depth srcPath baseDir destDir ctx
          (mkWorld fs1 (w_trace w ++ [MadeDir destPath])) = (Ret tt, w1)
    else Merged.processTemplateFile H srcPath destPath ctx w = (Ret tt, w1).

(** The turn of an entry that throws [e], leaving the world [w1]. *)
Definition entry_stops (H : Host) (depth : nat) (srcDir baseDir destDir : string)
    (ctx : value) (item : string) (w : world H) (e : string) (w1 : world H) : Prop :=
  let srcPath := path_join H srcDir item in
  let destPath := destination H baseDir destDir srcPath in
  (statSync H (w_fs w) srcPath = Err e /\ w1 = w) \/
  exists st, statSync H (w_fs w) srcPath = Ok st /\
    if isDirectory st then
      (mkdirp_sync H (w_fs w) destPath = Err e /\ w1 = w) \/
      exists fs1, mkdirp_sync H (w_fs w) destPath = Ok fs1 /\
        Merged.generateDir H depth srcPath baseDir destDir ctx
          (mkWorld fs1 (w_trace w ++ [MadeDir destPath])) = (Throw e, w1)
    else Merged.processTemplateFile H srcPath destPath ctx w = (Throw e, w1).

(** What a call of [generateDir] with [depth + 1] stack frames left comes
    to, given the listing [items] of its directory: either every entry has had
    its turn, in the order of the listing; or the entries before one have, and
    that one threw.  It never ends the process. *)
Definition walk_outcome (H : Host) (depth : nat) (srcDir baseDir destDir : string)
    (ctx : value) (items : list string) (w : world H) (r : outcome unit * world H) : Prop :=
  match fst r with
  | Ret _ => turns (entry_done H depth srcDir baseDir destDir ctx) items w (snd r)
  | Throw e =>
      exists done item rest w1,
        items = (done ++ item :: rest)%list /\
        turns (entry_done H depth srcDir baseDir destDir ctx) done w w1 /\
        entry_stops H depth srcDir baseDir destDir ctx item w1 e (snd r)
  | Exit _ => False
  end.

(** What [generateDir] may append: engine calls with the context it was
    given and no options, writes with an explicit mode, directories, and the
    three steps of a script; nothing on the console or on standard output. *)
Definition walk_effect (ctx : value) (e : event) : Prop :=
  match e with
  | Rendered _ c o => c = ctx /\ o = None
  | Wrote _ _ file_mode => file_mode <> None
  | MadeDir _ | Pushd _ | ShellExec _ | Popd => True
  | Stdout _ | ConsoleLog _ _ | ConsoleError _ _ | Zipped _ | ChmodSelf => False
  end.

(** A step of [shelljs]. *)
Definition is_shell (e : event) : bool :=
  match e with
  | Pushd _ | ShellExec _ | Popd => true
  | _ => false
  end.

(** Scripts run one at a time: change directory, execute, change back. *)
Inductive scripts : list event -> Prop :=
| scripts_none : scripts []
| scripts_one (dir command : string) (rest : list event) :
    scripts rest -> scripts (Pushd dir :: ShellExec command :: Popd :: rest).

Definition scripts_only (evs : list event) : Prop := scripts (filter is_shell evs).

(** The events a computation appends, started anywhere, satisfy [Q] as a
    whole. *)
Definition adds {H : Host} {A} (Q : list event -> Prop) (m : M H A) : Prop :=
  forall w, exists evs, w_trace (snd (m w)) = (w_trace w ++ evs)%list /\ Q evs.

(** *** The loop of the enhanced CLI's directory mode *)







(** * Properties *)

(** ** Objects *)

Lemma assoc_set_same (k : string) (v : value) (ps : list (string * value)) :
  JS.assoc k (JS.assoc_set k v ps) = Some v.
Proof.
  induction ps as [|[k' v'] ps IH]; simpl.
  - now rewrite String.eqb_refl.
  - destruct (k =? k')%string eqn:E; simpl; rewrite E; auto.
Qed.

Lemma assoc_set_other (k k' : string) (v : value) (ps : list (string * value)) :
  k' <> k -> JS.assoc k' (JS.assoc_set k v ps) = JS.assoc k' ps.
Proof.
  intros Hne. induction ps as [|[k0 v0] ps IH]; simpl.
  - apply String.eqb_neq in Hne. now rewrite Hne.
  - destruct (k =? k0)%string eqn:E; simpl.
    + apply String.eqb_eq in E. subst k0.
      apply String.eqb_neq in Hne. now rewrite Hne.
    + now rewrite IH.
Qed.

Lemma assoc_del_other (k k' : string) (ps : list (string * value)) :
  k' <> k -> JS.assoc k' (JS.assoc_del k ps) = JS.assoc k' ps.
Proof.
  intros Hne. induction ps as [|[k0 v0] ps IH]; simpl; auto.
  destruct (k =? k0)%string eqn:E; simpl.
  - apply String.eqb_eq in E. subst k0.
    apply String.eqb_neq in Hne. now rewrite Hne.
  - now rewrite IH.
Qed.

Lemma assoc_del_same (k : string) (ps : list (string * value)) :
  JS.assoc k (JS.assoc_del k ps) = None.
Proof.
  induction ps as [|[k0 v0] ps IH]; simpl; auto.
  destruct (k =? k0)%string eqn:E; simpl; auto. now rewrite E.
Qed.

(** ** Named properties of arrays and strings *)

Lemma index_key_digit (i : nat) :
  exists c s, JS.index_key i = String c s /\ is_digit c = true.
Proof.
  unfold JS.index_key. destruct (Nat.to_uint i); cbn; eauto.
Qed.

Lemma array_index_name (k : string) (n : nat) :
  is_name k = true -> JS.array_index k n = None.
Proof.
  intros Hk. unfold JS.array_index.
  destruct (find _ _) as [i|] eqn:Hfind; [|reflexivity].
  apply find_some in Hfind as [_ E]. apply String.eqb_eq in E.
  destruct (index_key_digit i) as (c & s & Ei & Hc).
  rewrite <- E, Ei in Hk. cbn in Hk. rewrite Hc in Hk. discriminate.
Qed.

(** Reading and assigning a named property of an array or of a string. *)
Lemma get_array_name (l : list value) (ps : list (string * value)) (k : string) :
  is_name k = true -> k <> "length" ->
  JS.get (Some (VArr l ps)) k = Ok (JS.assoc k ps).
Proof.
  intros Hk Hl. cbn. apply String.eqb_neq in Hl. rewrite Hl.
  now rewrite array_index_name.
Qed.

Lemma get_string_name (s k : string) :
  is_name k = true -> k <> "length" -> JS.get (Some (VStr s)) k = Ok None.
Proof.
  intros Hk Hl. cbn. apply String.eqb_neq in Hl. rewrite Hl.
  now rewrite array_index_name.
Qed.

(** ** The [items] field *)

Lemma ensure_items_wraps (ps : list (string * value)) (v : value) :
  JS.assoc "items" ps = Some v ->
  JS.instanceof_Array (Some v) = false ->
  ensure_items (VObj ps) = Ok (VObj (JS.assoc_set "items" (VArr [v] []) ps)).
Proof.
  intros Hv Harr. unfold ensure_items. cbn [JS.get rbind].
  rewrite Hv, Harr. reflexivity.
Qed.

Lemma ensure_items_defaults (ps : list (string * value)) :
  JS.assoc "items" ps = None ->
  ensure_items (VObj ps) = Ok (VObj (JS.assoc_set "items" JS.empty_array ps)).
Proof.
  intros Hv. unfold ensure_items. simpl. now rewrite Hv.
Qed.

Lemma ensure_items_keeps_array (ps : list (string * value)) l pr :
  JS.assoc "items" ps = Some (VArr l pr) ->
  ensure_items (VObj ps) = Ok (VObj ps).
Proof.
  intros Hv. unfold ensure_items. simpl. now rewrite Hv.
Qed.

(** A scalar cannot carry a property (the assignment is dropped), and
    reading a property of [null] throws, which the scripts catch as a failure
    to load the context. *)
Example ensure_items_scalar_and_null :
  ensure_items (VNum 42) = Ok (VNum 42) /\
  ensure_items (VStr "text") = Ok (VStr "text") /\
  ensure_items VNull = Err "Cannot read properties of null".
Proof. repeat split. Qed.

(** After the normalisation an object context has an [items] array, and
    its other fields are the ones it had. *)
Lemma ensure_items_object (ps : list (string * value)) :
  exists ps' l pr,
    ensure_items (VObj ps) = Ok (VObj ps') /\
    JS.assoc "items" ps' = Some (VArr l pr) /\
    forall k, k <> "items" -> JS.assoc k ps' = JS.assoc k ps.
Proof.
  destruct (JS.assoc "items" ps) as [v|] eqn:Hv.
  - destruct (JS.instanceof_Array (Some v)) eqn:Harr.
    + destruct v; try discriminate.
      exists ps, elems, props. rewrite (ensure_items_keeps_array _ _ _ Hv). auto.
    + exists (JS.assoc_set "items" (VArr [v] []) ps), [v], [].
      rewrite (ensure_items_wraps _ _ Hv Harr).
      split; [reflexivity|split; [apply assoc_set_same|]].
      intros; now apply assoc_set_other.
  - exists (JS.assoc_set "items" JS.empty_array ps), [], [].
    rewrite (ensure_items_defaults _ Hv).
    split; [reflexivity|split; [apply assoc_set_same|]].
    intros; now apply assoc_set_other.
Qed.




(** ** What a computation appends to the trace *)

Section Appends.

Variable H : Host.
Variable P : event -> Prop.

Lemma appends_nil {A} (m : M H A) :
  (forall w, w_trace (snd (m w)) = w_trace w) -> appends P m.
Proof.
  intros Hm w. exists []. rewrite Hm, app_nil_r. auto.
Qed.

Lemma appends_ret {A} (a : A) : appends P (ret (H:=H) a).
Proof. now apply appends_nil. Qed.

Lemma appends_throw {A} (e : string) : appends P (throw (H:=H) (A:=A) e).
Proof. now apply appends_nil. Qed.

Lemma appends_exit {A} (c : Z) : appends P (process_exit (H:=H) (A:=A) c).
Proof. now apply appends_nil. Qed.

Lemma appends_lift {A} (r : result A) : appends P (lift (H:=H) r).
Proof. destruct r; [apply appends_ret|apply appends_throw]. Qed.

Lemma appends_fs_read {A} (f : fsys H -> result A) : appends P (fs_read H f).
Proof.
  apply appends_nil. intros w. unfold fs_read.
  destruct (f (w_fs w)); reflexivity.
Qed.

Lemma appends_existsSync (p : string) : appends P (fs_existsSync H p).
Proof. now apply appends_nil. Qed.

Lemma appends_emit (e : event) : P e -> appends P (emit H e).
Proof. intros He w. exists [e]. simpl. auto. Qed.

Lemma appends_fs_update (f : fsys H -> result (fsys H)) (e : event) :
  P e -> appends P (fs_update H f e).
Proof.
  intros He w. unfold appends_at, fs_update. destruct (f (w_fs w)); simpl.
  - exists [e]. auto.
  - exists []. rewrite app_nil_r. auto.
Qed.

Lemma appends_bind {A B} (m : M H A) (k : A -> M H B) :
  appends P m -> (forall a, appends P (k a)) -> appends P (bind m k).
Proof.
  intros Hm Hk w. unfold appends, appends_at, bind in *.
  destruct (Hm w) as (evs1 & E1 & F1).
  destruct (m w) as [[a|e|c] w1]; simpl in E1.
  - destruct (Hk a w1) as (evs2 & E2 & F2).
    exists (evs1 ++ evs2)%list. rewrite E2, E1, app_assoc.
    split; [reflexivity|now apply Forall_app].
  - exists evs1. auto.
  - exists evs1. auto.
Qed.

Lemma appends_try_catch {A} (m : M H A) (handler : string -> M H A) :
  appends P m -> (forall e, appends P (handler e)) -> appends P (try_catch m handler).
Proof.
  intros Hm Hh w. unfold appends, appends_at, try_catch in *.
  destruct (Hm w) as (evs1 & E1 & F1).
  destruct (m w) as [[a|e|c] w1]; simpl in E1.
  - exists evs1. auto.
  - destruct (Hh e w1) as (evs2 & E2 & F2).
    exists (evs1 ++ evs2)%list. rewrite E2, E1, app_assoc.
    split; [reflexivity|now apply Forall_app].
  - exists evs1. auto.
Qed.

Lemma appends_mark_up (tpl : string) (ctx : value) (o : option options) :
  P (Rendered tpl ctx o) -> appends P (mark_up H tpl ctx o).
Proof.
  intros He. unfold mark_up. apply appends_bind.
  - now apply appends_emit.
  - intros _. apply appends_lift.
Qed.

Lemma appends_make_executable :
  P ChmodSelf -> appends P (make_executable H).
Proof.
  intros He. unfold make_executable. destruct (platform_win32 H).
  - apply appends_ret.
  - apply appends_try_catch.
    + now apply appends_fs_update.
    + intros _. apply appends_ret.
Qed.

End Appends.

Lemma appends_at_bind {H : Host} {A B} (P : event -> Prop) (m : M H A) (k : A -> M H B)
    (w : world H) :
  appends_at P m w ->
  (forall a w1, m w = (Ret a, w1) -> appends_at P (k a) w1) ->
  appends_at P (bind m k) w.
Proof.
  intros (evs1 & E1 & F1) Hk. unfold appends_at, bind.
  destruct (m w) as [[a|e|c] w1] eqn:Hm; simpl in E1.
  - destruct (Hk a w1 eq_refl) as (evs2 & E2 & F2).
    exists (evs1 ++ evs2)%list. rewrite E2, E1, app_assoc.
    split; [reflexivity|now apply Forall_app].
  - exists evs1. auto.
  - exists evs1. auto.
Qed.

Lemma appends_at_in {H : Host} {A} (P : event -> Prop) (m : M H A) (w : world H) (e : event) :
  appends_at P m w -> In e (w_trace (snd (m w))) -> In e (w_trace w) \/ P e.
Proof.
  intros (evs & E & F) Hin.
  rewrite E in Hin. apply in_app_or in Hin as [Hin|Hin]; auto.
  right. rewrite Forall_forall in F. auto.
Qed.

(** The events of the trace after a computation that appends only [P]
    events are those that were there and [P] events. *)
Lemma appends_in {H : Host} {A} (P : event -> Prop) (m : M H A) (w : world H) (e : event) :
  appends P m -> In e (w_trace (snd (m w))) -> In e (w_trace w) \/ P e.
Proof.
  intros Hm. apply appends_at_in, Hm.
Qed.

Lemma bind_ret_eq {H : Host} {A B} (m : M H A) (k : A -> M H B) (w w1 : world H) (a : A) :
  m w = (Ret a, w1) -> bind m k w = k a w1.
Proof. intros E. unfold bind. now rewrite E. Qed.

(** One step of symbolic execution of the state monad. *)
Ltac step :=
  cbv beta iota zeta delta
    [bind try_catch ret throw process_exit lift emit console_log
     console_error stdout_write fs_readFileSync fs_writeFileSync fs_existsSync
     fs_statSync fs_readdirSync fs_mkdirSync mkdirp fs_read fs_update mark_up
     fst snd negb];
  cbn [w_fs w_trace].

(** Discharge an [appends] goal by the rules above; [tac] proves the
    side conditions on single events. *)
Ltac appends_with tac :=
  repeat first
    [ apply appends_ret | apply appends_throw | apply appends_exit
    | apply appends_lift | apply appends_fs_read | apply appends_existsSync
    | apply appends_make_executable; [tac]
    | apply appends_mark_up; [tac]
    | apply appends_emit; [tac]
    | apply appends_fs_update; [tac]
    | apply appends_try_catch; [|intro]
    | apply appends_bind; [|intro]
    | match goal with
      | |- appends _ (if ?b then _ else _) => destruct b
      | |- appends _ (match ?x with _ => _ end) => destruct x
      | |- appends _ (let '_ := ?x in _) => destruct x
      end ].

(** Case analysis on the results of the host's functions. *)
Ltac host_cases :=
  repeat match goal with
         | |- context [match ?x with _ => _ end] =>
             match type of x with
             | result _ => destruct x eqn:?
             | bool => destruct x eqn:?
             end; step
         end.

(** ** Reads and writes of properties that cannot throw *)

Lemma get_truthy (v : jv) (k : string) :
  JS.truthy v = true -> exists r, JS.get v k = Ok r.
Proof.
  destruct v as [[| | | | |]|]; simpl; try discriminate; intros _; eauto.
  - destruct (k =? "length")%string; eauto.
    destruct (JS.array_index k (String.length s)); eauto.
  - destruct (k =? "length")%string; eauto.
    destruct (JS.array_index k (List.length elems)); eauto.
Qed.

Lemma set_not_null (v : value) (k : string) (x : value) :
  v <> VNull -> exists v', JS.set v k x = Ok v' /\ v' <> VNull.
Proof.
  destruct v; simpl; intros Hv; try (eexists; split; [reflexivity|discriminate]).
  now contradiction Hv.
Qed.

Lemma delete_object (ps : list (string * value)) (k : string) :
  JS.delete (VObj ps) k = Ok (VObj (JS.assoc_del k ps)).
Proof. reflexivity. Qed.

Lemma configured_total (c : jv) :
  JS.truthy c = true -> exists d, Delimiters.configured c = Ok d.
Proof.
  intros Hc. unfold Delimiters.configured.
  destruct (get_truthy c "options" Hc) as (o & ->). simpl.
  destruct (JS.truthy o) eqn:Ho; eauto.
  apply get_truthy; auto.
Qed.

Lemma apply_total (c : jv) (g : jv * jv) :
  JS.truthy c = true -> exists g', Delimiters.apply c g = Ok g'.
Proof.
  intros Hc. unfold Delimiters.apply.
  destruct (configured_total c Hc) as (d & ->). simpl.
  destruct (JS.truthy d) eqn:Hd; eauto.
  destruct (get_truthy d "open" Hd) as (o & ->).
  destruct (get_truthy d "close" Hd) as (cl & ->). simpl. eauto.
Qed.

(** ** Loading the context *)

(** The enhanced CLI takes its embedded configuration out of an object
    document without failing; the data fields stay as they were. *)
Lemma extract_config_object (ps : list (string * value)) (s : Enhanced.settings) :
  Enhanced.config s <> VNull ->
  exists ps' s',
    Enhanced.extract_config (VObj ps) s = Ok (VObj ps', s') /\
    Enhanced.config s' <> VNull /\
    forall k, k <> "templator-js" -> k <> "options" -> k <> "files" ->
              JS.assoc k ps' = JS.assoc k ps.
Proof.
  intros Hs. unfold Enhanced.extract_config. cbn [JS.get rbind].
  destruct (JS.truthy (JS.assoc "templator-js" ps)) eqn:Htj.
  - destruct (apply_total (JS.assoc "templator-js" ps)
                (Enhanced.globalOpenDelimiter s, Enhanced.globalCloseDelimiter s) Htj)
      as (g & ->).
    destruct (get_truthy (JS.assoc "templator-js" ps) "files" Htj) as (f & ->).
    cbn [rbind].
    assert (exists c1, (match f with
                        | Some f0 => if JS.truthy f then JS.set (Enhanced.config s) "files" f0
                                     else Ok (Enhanced.config s)
                        | None => Ok (Enhanced.config s)
                        end) = Ok c1 /\ c1 <> VNull) as (c1 & -> & Hc1).
    { destruct f as [f0|]; [destruct (JS.truthy (Some f0))|]; eauto.
      now apply set_not_null. }
    cbn [rbind]. rewrite delete_object. cbn [rbind].
    do 2 eexists. split; [reflexivity|]. split; [exact Hc1|].
    intros k Hk _ _. now apply assoc_del_other.
  - destruct (JS.and (JS.assoc "options" ps) (JS.assoc "files" ps)) as [f|] eqn:Hand.
    2: { exists ps, s. auto. }
    destruct (JS.truthy (Some f)) eqn:Hf.
    2: { exists ps, s. auto. }
    assert (Ho : JS.truthy (JS.assoc "options" ps) = true).
    { unfold JS.and in Hand. destruct (JS.truthy (JS.assoc "options" ps)) eqn:Ho; auto.
      rewrite Hand in Ho. congruence. }
    destruct (get_truthy (JS.assoc "options" ps) "delimiters" Ho) as (d & ->).
    cbn [rbind].
    assert (exists g, (if JS.truthy d
                       then rbind (JS.get d "open") (fun o =>
                            rbind (JS.get d "close") (fun cl =>
                            Ok (Delimiters.override (Enhanced.globalOpenDelimiter s) o,
                                Delimiters.override (Enhanced.globalCloseDelimiter s) cl)))
                       else Ok (Enhanced.globalOpenDelimiter s, Enhanced.globalCloseDelimiter s))
                      = Ok g) as (g & ->).
    { destruct (JS.truthy d) eqn:Hd; eauto.
      destruct (get_truthy d "open" Hd) as (o & ->).
      destruct (get_truthy d "close" Hd) as (cl & ->). simpl. eauto. }
    cbn [rbind].
    destruct (set_not_null (Enhanced.config s) "files" f Hs) as (c1 & -> & Hc1).
    cbn [rbind]. rewrite !delete_object. cbn [rbind].
    do 2 eexists. split; [reflexivity|]. split; [exact Hc1|].
    intros k _ Hk1 Hk2. rewrite assoc_del_other by auto. now apply assoc_del_other.
Qed.



Lemma simple_load_context_object (H : Host) (info doc : string)
    (ps : list (string * value)) (w : world H) :
  readFileSync H (w_fs w) info = Ok doc ->
  JSON_parse H doc = Ok (VObj ps) ->
  exists ps', ensure_items (VObj ps) = Ok (VObj ps') /\
    Simple.load_context H info w = (Ret (VObj ps'), w).
Proof.
  intros Hr Hp. destruct (ensure_items_object ps) as (ps' & l & pr & He & _).
  exists ps'. split; [exact He|].
  unfold Simple.load_context. step. rewrite Hr. step. rewrite Hp. step.
  rewrite He. reflexivity.
Qed.

Lemma enhanced_load_context_object (H : Host) (info doc : string)
    (ps : list (string * value)) (s : Enhanced.settings) (w : world H) :
  readFileSync H (w_fs w) info = Ok doc ->
  JSON_parse H doc = Ok (VObj ps) ->
  Enhanced.config s <> VNull ->
  exists data ps' s',
    Enhanced.extract_config (VObj ps) s = Ok (VObj data, s') /\
    ensure_items (VObj data) = Ok (VObj ps') /\
    Enhanced.load_context H info s w = (Ret (VObj ps', s'), w).
Proof.
  intros Hr Hp Hs.
  destruct (extract_config_object ps s Hs) as (data & s' & Hx & _ & _).
  destruct (ensure_items_object data) as (ps' & l & pr & He & _).
  exists data, ps', s'. split; [exact Hx|]. split; [exact He|].
  unfold Enhanced.load_context. step. rewrite Hr. step. rewrite Hp. step.
  rewrite Hx. step. rewrite He. reflexivity.
Qed.



(** ** The context every engine call of a run receives *)

(** Side conditions of the [renders_with] invariant on single events. *)
Ltac same_context :=
  let Heq := fresh in
  intros ? ? ? Heq; first [discriminate Heq | now inversion Heq].

Ltac appends_auto := cbv beta; appends_with same_context.

Lemma simple_load_context_appends (H : Host) (P : event -> Prop) (info : string) :
  (forall text args, P (ConsoleError text args)) ->
  appends P (Simple.load_context H info).
Proof.
  intros HP. unfold Simple.load_context, fs_readFileSync, console_error.
  appends_with ltac:(apply HP).
Qed.

Lemma simple_after_context (H : Host) (c : Simple.cli) (tpl : string) (outPath : jv)
    (ctx : value) :
  appends (renders_with ctx)
    (template <- Simple.load_template H tpl ;;
     output <- Simple.render H template ctx (Simple.cli_open c) (Simple.cli_close c) ;;
     Simple.write_output H outPath output ;;;
     make_executable H).
Proof.
  unfold Simple.load_template, Simple.render, Simple.write_output,
    fs_readFileSync, fs_writeFileSync, console_error, console_log, stdout_write.
  appends_auto.
Qed.

Lemma simple_run_context (H : Host) (argv : list string) (fs : fsys H)
    (info doc : string) (ps : list (string * value)) :
  Simple.path_arg (Simple.cli_files (Simple.parse_args argv Simple.initial_cli)) 0
    = Some (VStr info) ->
  readFileSync H fs info = Ok doc ->
  JSON_parse H doc = Ok (VObj ps) ->
  exists ps',
    ensure_items (VObj ps) = Ok (VObj ps') /\
    forall t c o, In (Rendered t c o) (w_trace (snd (Simple.run H argv fs))) ->
                  c = VObj ps'.
Proof.
  intros Hinfo Hr Hp.
  destruct (simple_load_context_object H info doc ps (mkWorld fs []) Hr Hp)
    as (ps' & He & Hload).
  exists ps'. split; [exact He|].
  assert (Hall : appends_at (renders_with (VObj ps')) (Simple.main H argv) (mkWorld fs [])).
  { unfold Simple.main. rewrite Hinfo.
    set (c := Simple.parse_args argv Simple.initial_cli).
    destruct (Simple.path_arg (Simple.cli_files c) 1) as [[| | |tpl| |]|];
      try (apply appends_bind; [apply appends_emit; same_context
                               |intros _; apply appends_exit]).
    destruct (negb (JS.truthy (Some (VStr info))) || negb (JS.truthy (Some (VStr tpl)))).
    - apply appends_bind; [apply appends_emit; same_context|intros _; apply appends_exit].
    - apply appends_at_bind.
      + apply simple_load_context_appends. intros; same_context.
      + intros a w1 Hrun. rewrite Hload in Hrun. inversion Hrun; subst.
        apply simple_after_context. }
  intros t c0 o Hin.
  destruct (appends_at_in _ _ _ _ Hall Hin) as [[]|Hc].
  exact (Hc t c0 o eq_refl).
Qed.


Lemma read_config_not_null (obj : value) (s s' : Enhanced.settings) :
  Enhanced.read_config obj s = Ok s' -> Enhanced.config s' <> VNull.
Proof.
  unfold Enhanced.read_config.
  destruct (JS.get (Some obj) "templator-js") as [tj|]; [|discriminate].
  cbn [rbind].
  set (config0 := match tj with
                  | Some c => if JS.truthy tj then c else obj
                  | None => obj
                  end).
  destruct (JS.get (Some config0) "files") as [files|] eqn:Hfiles; [|discriminate].
  assert (H0 : config0 <> VNull) by (intros E; rewrite E in Hfiles; discriminate).
  cbn [rbind].
  destruct (negb (JS.truthy files)).
  - destruct (set_not_null config0 "files" JS.empty_object H0) as (c1 & -> & Hc1).
    cbn [rbind]. destruct (Delimiters.apply _ _); [|discriminate].
    cbn [rbind]. intros E. inversion E. exact Hc1.
  - cbn [rbind]. destruct (Delimiters.apply _ _); [|discriminate].
    cbn [rbind]. intros E. inversion E. exact H0.
Qed.

(** Loading the configuration either ends the process or leaves the
    world as it was. *)
Lemma enhanced_load_config_ret (H : Host) (a : Enhanced.args) (s s' : Enhanced.settings)
    (w w1 : world H) :
  Enhanced.config s <> VNull ->
  Enhanced.load_config H a s w = (Ret s', w1) ->
  w1 = w /\ Enhanced.config s' <> VNull.
Proof.
  intros Hs. unfold Enhanced.load_config.
  destruct (Enhanced.configPath a) as [[| | |p| |]|];
    try (intros E; inversion E; subst; auto; fail).
  destruct (JS.truthy (Some (VStr p))); [|intros E; inversion E; subst; auto].
  step. destruct (readFileSync H (w_fs w) p) as [configData|]; [|discriminate].
  destruct (JSON_parse H configData) as [configObj|]; [|discriminate].
  destruct (Enhanced.read_config configObj s) as [s0|] eqn:Hrc; [|discriminate].
  intros E. inversion E; subst. split; [reflexivity|].
  eapply read_config_not_null; eauto.
Qed.

Lemma enhanced_load_config_appends (H : Host) (P : event -> Prop) (a : Enhanced.args)
    (s : Enhanced.settings) :
  (forall text args, P (ConsoleError text args)) ->
  appends P (Enhanced.load_config H a s).
Proof.
  intros HP. unfold Enhanced.load_config, fs_readFileSync, console_error.
  appends_with ltac:(apply HP).
Qed.

Lemma enhanced_renderTemplate_context (H : Host) (s : Enhanced.settings)
    (src out : string) (ctx : value) (od cd : jv) :
  appends (renders_with ctx) (Enhanced.renderTemplate H s src out ctx od cd).
Proof.
  unfold Enhanced.renderTemplate, fs_readFileSync, fs_writeFileSync, fs_mkdirSync,
    console_error, console_log.
  appends_auto.
Qed.

Lemma enhanced_process_entries_context (H : Host) (s : Enhanced.settings)
    (tdir odir : string) (ctx : value) (files : list string) (n : Z) :
  appends (renders_with ctx) (Enhanced.process_entries H s tdir odir ctx files n).
Proof.
  revert n. induction files as [|file rest IH]; intros n; simpl.
  - apply appends_ret.
  - apply appends_bind; [|intros; apply IH].
    unfold Enhanced.process_entry, fs_statSync.
    apply appends_bind; [apply appends_fs_read|intros st].
    destruct (negb (isFile st)); [apply appends_ret|].
    repeat (apply appends_bind; [apply appends_lift|intro]).
    apply appends_bind; [apply enhanced_renderTemplate_context|intro].
    apply appends_ret.
Qed.

Lemma enhanced_after_context (H : Host) (a : Enhanced.args) (s : Enhanced.settings)
    (ctx : value) :
  appends (renders_with ctx)
    ((if Enhanced.isDirectoryMode a then
        match Enhanced.templateDir a, Enhanced.outputDir a with
        | Some (VStr tdir), Some (VStr odir) => Enhanced.directory_mode H s tdir odir ctx
        | _, _ => ret tt
        end
      else
        match Enhanced.templatePath a with
        | Some (VStr tpl) => Enhanced.single_file_mode H s tpl (Enhanced.outPath a) ctx
        | _ => ret tt
        end) ;;;
     make_executable H).
Proof.
  apply appends_bind; [|intros; apply appends_make_executable; same_context].
  destruct (Enhanced.isDirectoryMode a).
  - destruct (Enhanced.templateDir a) as [[| | |tdir| |]|]; try apply appends_ret.
    destruct (Enhanced.outputDir a) as [[| | |odir| |]|]; try apply appends_ret.
    unfold Enhanced.directory_mode, fs_readdirSync, fs_mkdirSync, console_log, console_error.
    apply appends_try_catch.
    + apply appends_bind; [apply appends_existsSync|intro].
      apply appends_bind; [destruct (negb a0); appends_auto|intro].
      apply appends_bind; [apply appends_fs_read|intro].
      apply appends_bind; [apply enhanced_process_entries_context|intro].
      apply appends_emit; same_context.
    + intro. appends_auto.
  - destruct (Enhanced.templatePath a) as [[| | |tpl| |]|]; try apply appends_ret.
    unfold Enhanced.single_file_mode, fs_readFileSync, stdout_write.
    apply appends_bind; [apply enhanced_renderTemplate_context|intro].
    appends_auto.
Qed.

Lemma enhanced_run_context (H : Host) (argv : list string) (fs : fsys H)
    (info doc : string) (ps : list (string * value)) :
  Enhanced.infoPath (Enhanced.parse_args argv Enhanced.initial_args) = Some (VStr info) ->
  readFileSync H fs info = Ok doc ->
  JSON_parse H doc = Ok (VObj ps) ->
  forall t c o, In (Rendered t c o) (w_trace (snd (Enhanced.run H argv fs))) ->
    exists s data s',
      Enhanced.config s <> VNull /\
      Enhanced.extract_config (VObj ps) s = Ok (VObj data, s') /\
      ensure_items (VObj data) = Ok c.
Proof.
  intros Hinfo Hr Hp t c o Hin.
  unfold Enhanced.run, Enhanced.main in Hin.
  set (a := Enhanced.parse_args argv Enhanced.initial_args) in *.
  set (w := mkWorld fs []) in *.
  destruct (Enhanced.isDirectoryMode a && _).
  { simpl in Hin. destruct Hin as [Hin|[]]. discriminate. }
  destruct (negb (Enhanced.isDirectoryMode a) && _).
  { simpl in Hin. destruct Hin as [Hin|[]]. discriminate. }
  set (s0 := Enhanced.mkSettings _ _ _) in Hin.
  assert (Hs0 : Enhanced.config s0 <> VNull) by discriminate.
  unfold bind at 1 in Hin.
  destruct (Enhanced.load_config H a s0 w) as [[s1|e|code] w1] eqn:Hcfg.
  - destruct (enhanced_load_config_ret H a s0 s1 w w1 Hs0 Hcfg) as (-> & Hs1).
    rewrite Hinfo in Hin.
    destruct (enhanced_load_context_object H info doc ps s1 w Hr Hp Hs1)
      as (data & ps' & s' & Hx & He & Hload).
    unfold bind at 1 in Hin. rewrite Hload in Hin.
    destruct (appends_in _ _ w _ (enhanced_after_context H a s' (VObj ps')) Hin)
      as [[]|Hc].
    exists s1, data, s'. split; [exact Hs1|]. split; [exact Hx|].
    now rewrite (Hc t c o eq_refl).
  - exfalso.
    pose proof (enhanced_load_config_appends H (fun ev => forall t c o, ev <> Rendered t c o)
                  a s0 ltac:(intros; discriminate) w) as (evs & E & F).
    rewrite Hcfg in E. simpl in E, Hin. subst w. rewrite E in Hin. simpl in Hin.
    rewrite Forall_forall in F. exact (F _ Hin t c o eq_refl).
  - exfalso.
    pose proof (enhanced_load_config_appends H (fun ev => forall t c o, ev <> Rendered t c o)
                  a s0 ltac:(intros; discriminate) w) as (evs & E & F).
    rewrite Hcfg in E. simpl in E, Hin. subst w. rewrite E in Hin. simpl in Hin.
    rewrite Forall_forall in F. exact (F _ Hin t c o eq_refl).
Qed.


(** What the enhanced CLI leaves of an object document once its embedded
    configuration is taken out: the [items] field and every field that is
    not a configuration key are as parsed. *)
Lemma extract_config_keeps_data (ps data : list (string * value))
    (s s' : Enhanced.settings) (k : string) :
  Enhanced.config s <> VNull ->
  Enhanced.extract_config (VObj ps) s = Ok (VObj data, s') ->
  k <> "templator-js" -> k <> "options" -> k <> "files" ->
  JS.assoc k data = JS.assoc k ps.
Proof.
  intros Hs Hx. destruct (extract_config_object ps s Hs) as (ps' & s'' & Hx' & _ & Hk).
  rewrite Hx in Hx'. inversion Hx'; subst. apply Hk.
Qed.

(** The simple CLI calls the engine, once the context is loaded and the
    template read, with that context and the delimiters of the flags. *)
Lemma simple_run_renders (H : Host) (argv : list string) (fs : fsys H)
    (info tpl template : string) (ctx : value) :
  let c := Simple.parse_args argv Simple.initial_cli in
  Simple.path_arg (Simple.cli_files c) 0 = Some (VStr info) ->
  Simple.path_arg (Simple.cli_files c) 1 = Some (VStr tpl) ->
  info <> "" -> tpl <> "" ->
  Simple.load_context H info (mkWorld fs []) = (Ret ctx, mkWorld fs []) ->
  readFileSync H fs tpl = Ok template ->
  In (Rendered template ctx (Some (mkOptions (Simple.cli_open c) (Simple.cli_close c))))
     (w_trace (snd (Simple.run H argv fs))).
Proof.
  intros c Hinfo Htpl Hi Ht Hload Hr. unfold Simple.run, Simple.main. fold c.
  rewrite Hinfo, Htpl. cbn [JS.truthy].
  apply String.eqb_neq in Hi. apply String.eqb_neq in Ht. rewrite Hi, Ht.
  cbn [negb orb].
  rewrite (bind_ret_eq _ _ _ _ _ Hload).
  unfold Simple.load_template, Simple.render, Simple.write_output, make_executable.
  step. rewrite Hr. step.
  destruct (Simple.path_arg (Simple.cli_files c) 2) as [[| | |out| |]|];
    [| | | destruct (JS.truthy (Some (VStr out))) | | |];
    destruct (platform_win32 H); step;
    host_cases; cbn [fst snd w_trace app]; simpl; tauto.
Qed.

(** ** C2 *)

(** C2.  When the parsed context document is an object whose [items]
    field is not an array, the normalisation returns the object with [items]
    replaced by the one-element array holding that value, and with every
    other field as it was.  Loading the context returns that object, in the
    simple CLI and (of the data left once the embedded configuration is taken
    out, which touches only the keys [templator-js], [options] and [files])
    in the enhanced CLI; the simple CLI hands it to the engine once the
    template is read; and every call to the engine that either CLI makes
    receives it. *)
Theorem items_wrapped_in_sequence (H : Host) (fs : fsys H) (info doc : string)
    (ps : list (string * value)) (v : value) :
  readFileSync H fs info = Ok doc ->
  JSON_parse H doc = Ok (VObj ps) ->
  JS.assoc "items" ps = Some v ->
  JS.instanceof_Array (Some v) = false ->
  let wrapped := VObj (JS.assoc_set "items" (VArr [v] []) ps) in
  (ensure_items (VObj ps) = Ok wrapped /\
   JS.get (Some wrapped) "items" = Ok (Some (VArr [v] [])) /\
   forall k, k <> "items" -> JS.get (Some wrapped) k = JS.get (Some (VObj ps)) k) /\
  (forall t, Simple.load_context H info (mkWorld fs t) = (Ret wrapped, mkWorld fs t)) /\
  (forall argv tpl template,
      let c := Simple.parse_args argv Simple.initial_cli in
      Simple.path_arg (Simple.cli_files c) 0 = Some (VStr info) ->
      Simple.path_arg (Simple.cli_files c) 1 = Some (VStr tpl) ->
      info <> "" -> tpl <> "" ->
      readFileSync H fs tpl = Ok template ->
      In (Rendered template wrapped (Some (mkOptions (Simple.cli_open c) (Simple.cli_close c))))
         (w_trace (snd (Simple.run H argv fs)))) /\
  (forall a s t,
      fst (Enhanced.load_config H a (enhanced_initial_settings a) (mkWorld fs t)) = Ret s ->
      exists data s',
        Enhanced.extract_config (VObj ps) s = Ok (VObj data, s') /\
        Enhanced.load_context H info s (mkWorld fs t)
          = (Ret (VObj (JS.assoc_set "items" (VArr [v] []) data), s'), mkWorld fs t) /\
        forall k, k <> "templator-js" -> k <> "options" -> k <> "files" ->
                  JS.assoc k data = JS.assoc k ps) /\
  (forall argv t c o,
      Simple.path_arg (Simple.cli_files (Simple.parse_args argv Simple.initial_cli)) 0
        = Some (VStr info) ->
      In (Rendered t c o) (w_trace (snd (Simple.run H argv fs))) ->
      exists ps', c = VObj ps' /\
        JS.assoc "items" ps' = Some (VArr [v] []) /\
        forall k, k <> "items" -> JS.assoc k ps' = JS.assoc k ps) /\
  (forall argv t c o,
      Enhanced.infoPath (Enhanced.parse_args argv Enhanced.initial_args)
        = Some (VStr info) ->
      In (Rendered t c o) (w_trace (snd (Enhanced.run H argv fs))) ->
      exists data ps', c = VObj ps' /\
        JS.assoc "items" ps' = Some (VArr [v] []) /\
        (forall k, k <> "items" -> JS.assoc k ps' = JS.assoc k data) /\
        (forall k, k <> "templator-js" -> k <> "options" -> k <> "files" ->
                   JS.assoc k data = JS.assoc k ps)).
Proof.
  intros Hr Hp Hv Harr wrapped.
  assert (Hwrap : ensure_items (VObj ps) = Ok wrapped) by now apply ensure_items_wraps.
  assert (Hload : forall t, Simple.load_context H info (mkWorld fs t)
                            = (Ret wrapped, mkWorld fs t)).
  { intros t. unfold Simple.load_context. step. rewrite Hr. step. rewrite Hp. step.
    rewrite Hwrap. reflexivity. }
  split; [|split; [exact Hload|split; [|split; [|split]]]].
  - split; [exact Hwrap|]. subst wrapped. cbn [JS.get]. split.
    + now rewrite assoc_set_same.
    + intros k Hk. now rewrite assoc_set_other.
  - intros argv tpl template c Hinfo Htpl Hi Ht Htr.
    now apply simple_run_renders with (info := info) (tpl := tpl).
  - intros a s t Hcfg.
    destruct (Enhanced.load_config H a (enhanced_initial_settings a) (mkWorld fs t))
      as [r w1] eqn:Hrun. cbn [fst] in Hcfg. subst r.
    assert (Hs0 : Enhanced.config (enhanced_initial_settings a) <> VNull) by discriminate.
    destruct (enhanced_load_config_ret H a _ s _ w1 Hs0 Hrun) as (_ & Hs).
    destruct (extract_config_object ps s Hs) as (data & s' & Hx & _ & Hkeep).
    exists data, s'. split; [exact Hx|]. split; [|exact Hkeep].
    assert (Hitems : JS.assoc "items" data = Some v).
    { rewrite <- Hv. apply Hkeep; discriminate. }
    unfold Enhanced.load_context. step. rewrite Hr. step. rewrite Hp. step.
    rewrite Hx. step. rewrite (ensure_items_wraps data v Hitems Harr). reflexivity.
  - intros argv t c o Hinfo Hin.
    destruct (simple_run_context H argv fs info doc ps Hinfo Hr Hp) as (ps' & He & Hc).
    rewrite Hwrap in He. inversion He; subst ps'.
    eexists. split; [exact (Hc t c o Hin)|].
    split; [apply assoc_set_same|]. intros k Hk. now apply assoc_set_other.
  - intros argv t c o Hinfo Hin.
    destruct (enhanced_run_context H argv fs info doc ps Hinfo Hr Hp t c o Hin)
      as (s & data & s' & Hs & Hx & He).
    assert (Hitems : JS.assoc "items" data = Some v).
    { rewrite <- Hv. eapply extract_config_keeps_data; eauto; discriminate. }
    rewrite (ensure_items_wraps data v Hitems Harr) in He. inversion He; subst c.
    exists data. eexists. split; [reflexivity|].
    split; [apply assoc_set_same|]. split.
    + intros k Hk. now apply assoc_set_other.
    + intros k. now apply (extract_config_keeps_data ps data s s' k).
Qed.

(** [info.json], whose [items] is the string [a]: the normalisation, the
    context the simple CLI loads, and its run on [page.tpl]. *)
Lemma items_wrapped_in_sequence_witness :
  let ps := [("name", VStr "World"); ("items", VStr "a")] in
  let wrapped := VObj [("name", VStr "World"); ("items", VArr [VStr "a"] [])] in
  ensure_items (VObj ps) = Ok wrapped /\
  (forall t, Simple.load_context Demo.h "info.json" (@mkWorld Demo.h Demo.disk0 t)
             = (Ret wrapped, @mkWorld Demo.h Demo.disk0 t)) /\
  In (Rendered "Hello" wrapped (Some (mkOptions (JS.str "{{") (JS.str "}}"))))
     (w_trace (snd (Simple.run Demo.h ["info.json"; "page.tpl"] Demo.disk0))).
Proof.
  intros ps wrapped.
  destruct (items_wrapped_in_sequence Demo.h Demo.disk0 "info.json" "{ctx}" ps (VStr "a")
              eq_refl eq_refl eq_refl eq_refl) as ((Hwrap & _) & Hload & Hrun & _).
  split; [exact Hwrap|]. split; [exact Hload|].
  exact (Hrun ["info.json"; "page.tpl"] "page.tpl" "Hello" eq_refl eq_refl
           ltac:(discriminate) ltac:(discriminate) eq_refl).
Defined.

(** The run of the simple CLI behind the example: the engine is called
    once, with [items] wrapped. *)
Example simple_run_wraps_items :
  engine_calls (w_trace (snd (Simple.run Demo.h ["info.json"; "page.tpl"] Demo.disk0)))
    = [Some (mkOptions (JS.str "{{") (JS.str "}}"))] /\
  In (Rendered "Hello" (VObj [("name", VStr "World"); ("items", VArr [VStr "a"] [])])
        (Some (mkOptions (JS.str "{{") (JS.str "}}"))))
     (w_trace (snd (Simple.run Demo.h ["info.json"; "page.tpl"] Demo.disk0))).
Proof. vm_compute. intuition. Qed.

(** ** C8 *)




Example enhanced_run_defaults_items :
  In (Rendered "Hello" (VObj [("items", VArr [] [])])
        (Some (mkOptions (JS.str "{{") (JS.str "}}"))))
     (w_trace (snd (Enhanced.run Demo.h ["empty.json"; "page.tpl"; "out.txt"] Demo.disk0))).
Proof. vm_compute. intuition. Qed.

(** An array document gets the field as a named property. *)
Example array_context_gets_items :
  ensure_items (VArr [VNum 1] []) = Ok (VArr [VNum 1] [("items", VArr [] [])]).
Proof. reflexivity. Qed.

(** ** The merged CLI's batch mode *)

Lemma appends_shell (H : Host) (P : event -> Prop) (f : fsys H -> fsys H) (e : event) :
  P e -> appends P (Merged.shell H f e).
Proof. intros He w. exists [e]. simpl. auto. Qed.

Lemma appends_forEach (H : Host) (P : event -> Prop) {A} (l : list A)
    (f : A -> M H unit) :
  (forall x, appends P (f x)) -> appends P (Merged.forEach H l f).
Proof.
  intros Hf. induction l as [|x l IH]; simpl.
  - apply appends_ret.
  - apply appends_bind; [apply Hf|intros _; exact IH].
Qed.

Ltac no_options :=
  let Heq := fresh in
  intros ? ? ? Heq; first [discriminate Heq | now inversion Heq].

Lemma processTemplateFile_without_options (H : Host) (src dest : string) (ctx : value) :
  appends without_options (Merged.processTemplateFile H src dest ctx).
Proof.
  unfold Merged.processTemplateFile, fs_statSync, fs_readFileSync, fs_writeFileSync.
  apply appends_bind; [apply appends_fs_read|intros st].
  apply appends_bind; [apply appends_fs_read|intros tpl].
  apply appends_bind; [apply appends_mark_up; no_options|intros out].
  destruct (path_extname H src =? ".script")%string.
  - repeat (apply appends_bind; [apply appends_shell; no_options|intros _]).
    apply appends_shell; no_options.
  - apply appends_fs_update; no_options.
Qed.

Lemma generateDir_without_options (H : Host) (depth : nat)
    (srcDir baseDir destDir : string) (ctx : value) :
  appends without_options (Merged.generateDir H depth srcDir baseDir destDir ctx).
Proof.
  revert srcDir. induction depth as [|depth IH]; intros srcDir; simpl.
  - apply appends_throw.
  - apply appends_bind; [apply appends_fs_read|intros items].
    apply appends_forEach. intros item.
    apply appends_bind; [apply appends_fs_read|intros st].
    destruct (isDirectory st).
    + apply appends_bind; [apply appends_fs_update; no_options|intros _]. apply IH.
    + apply processTemplateFile_without_options.
Qed.

Lemma batch_mode_without_options (H : Host) (depth : nat)
    (parameters : list (string * value)) (srcInput : string) (ctx : value) :
  appends without_options (Merged.batch_mode H depth parameters srcInput ctx).
Proof.
  unfold Merged.batch_mode, Merged.zipGenerated, mkdirp, console_log.
  apply appends_bind; [apply appends_lift|intros dir].
  apply appends_bind; [apply appends_fs_update; no_options|intros _].
  apply appends_bind; [apply generateDir_without_options|intros _].
  apply appends_bind; [apply appends_emit; no_options|intros _].
  destruct (JS.truthy _); [apply appends_emit; no_options|apply appends_ret].
Qed.

Lemma merged_load_config_appends (H : Host) (P : event -> Prop)
    (parameters : list (string * value)) :
  (forall text args, P (ConsoleError text args)) ->
  appends P (Merged.load_config H parameters).
Proof.
  intros HP. unfold Merged.load_config, fs_readFileSync, console_error.
  cbv zeta. appends_with ltac:(apply HP).
Qed.

Lemma merged_initContext_appends (H : Host) (P : event -> Prop)
    (parameters : list (string * value)) :
  (forall text args, P (ConsoleError text args)) ->
  (forall text args, P (ConsoleLog text args)) ->
  appends P (Merged.initContext H parameters).
Proof.
  intros HP HL. unfold Merged.initContext, Merged.help, console_error, console_log.
  appends_with ltac:(first [apply HP | apply HL]).
Qed.

(** Before it looks at the source path the merged CLI only reads: when it
    gets that far, the file system is the one it started with. *)
Lemma merged_load_config_fs (H : Host) (parameters : list (string * value))
    (w : world H) :
  w_fs (snd (Merged.load_config H parameters w)) = w_fs w.
Proof.
  unfold Merged.load_config. cbv zeta.
  destruct (JS.truthy (JS.assoc "config" parameters)); [|reflexivity].
  step. destruct (Merged.as_path _); [|reflexivity].
  destruct (readFileSync H (w_fs w) a); [|reflexivity].
  destruct (JSON_parse H a0); [|reflexivity].
  destruct (Merged.read_config _ _); reflexivity.
Qed.

Lemma merged_initContext_fs (H : Host) (parameters : list (string * value))
    (w : world H) :
  w_fs (snd (Merged.initContext H parameters w)) = w_fs w.
Proof.
  unfold Merged.initContext, Merged.help.
  destruct (JS.truthy (JS.assoc "help" parameters)); [reflexivity|].
  destruct (JS.truthy (JS.assoc "configuration" parameters)); [|reflexivity].
  step. destruct (Merged.as_path _); [|reflexivity].
  destruct (require_resolved H (w_fs w) a); reflexivity.
Qed.

(** ** C9 *)

(** C9.  When the source path of the merged CLI is a directory, every
    call to the engine in the run is made without an options object, whatever
    the delimiter flags, the configuration document and its per-file entries
    say. *)
Theorem merged_batch_mode_passes_no_delimiters (H : Host) (depth : nat)
    (parameters : list (string * value)) (fs : fsys H) (src : string) (st : stats) :
  JS.or (JS.assoc "templateDir" parameters) (JS.assoc "templates" parameters)
    = Some (VStr src) ->
  statSync H fs src = Ok st ->
  isDirectory st = true ->
  forall t c o,
    In (Rendered t c o) (w_trace (snd (Merged.run H depth parameters fs))) ->
    o = None.
Proof.
  intros Hsrc Hst Hdir.
  assert (Hall : appends_at without_options (Merged.main H depth parameters)
                   (mkWorld fs [])).
  { unfold Merged.main.
    apply appends_at_bind.
    { apply merged_load_config_appends. intros; no_options. }
    intros s w1 Hcfg.
    assert (Hfs1 : w_fs w1 = fs).
    { pose proof (merged_load_config_fs H parameters (mkWorld fs [])) as E.
      now rewrite Hcfg in E. }
    apply appends_at_bind.
    { apply merged_initContext_appends; intros; no_options. }
    intros init w2 Hinit.
    assert (Hfs2 : w_fs w2 = fs).
    { pose proof (merged_initContext_fs H parameters w1) as E.
      rewrite Hinit in E. simpl in E. congruence. }
    destruct init as [context|]; [|apply appends_exit].
    apply appends_at_bind.
    { destruct (JS.truthy (JS.assoc "debug" parameters));
        [apply appends_emit; no_options|apply appends_ret]. }
    intros [] w3 Hdbg.
    assert (Hfs3 : w_fs w3 = fs).
    { destruct (JS.truthy (JS.assoc "debug" parameters));
        inversion Hdbg; subst; exact Hfs2. }
    rewrite Hsrc.
    apply appends_at_bind; [apply appends_existsSync|].
    intros found w4 Hex. inversion Hex; subst found w4. clear Hex.
    destruct (negb _).
    { apply appends_bind; [apply appends_emit; no_options|intros _; apply appends_exit]. }
    apply appends_at_bind; [apply appends_fs_read|].
    intros st' w4 Hstat. unfold fs_statSync, fs_read in Hstat.
    rewrite Hfs3, Hst in Hstat. inversion Hstat; subst st' w4. rewrite Hdir.
    apply appends_bind; [apply batch_mode_without_options|].
    intros _. apply appends_make_executable. no_options. }
  intros t c o Hin.
  destruct (appends_at_in _ _ _ _ Hall Hin) as [[]|Hc].
  exact (Hc t c o eq_refl).
Qed.

(** The merged CLI on the directory [site], with a delimiter flag and a
    configuration that overrides the delimiters of [page.tpl]. *)
Lemma merged_batch_mode_passes_no_delimiters_witness :
  let parameters :=
    Merged.with_defaults
      [("config", VStr "config.json"); ("configuration", VStr "info.json");
       ("templateDir", VStr "site"); ("outputDir", VStr "out");
       ("openDelimiter", VStr "<%")] in
  (JS.or (JS.assoc "templateDir" parameters) (JS.assoc "templates" parameters)
     = Some (VStr "site") /\
   statSync Demo.h Demo.disk0 "site" = Ok (mkStats false true 493) /\
   isDirectory (mkStats false true 493) = true) /\
  forall t c o,
    In (Rendered t c o) (w_trace (snd (Merged.run Demo.h 5 parameters Demo.disk0))) ->
    o = None.
Proof.
  intros parameters. split; [repeat split|].
  exact (merged_batch_mode_passes_no_delimiters Demo.h 5 parameters Demo.disk0 "site"
           (mkStats false true 493) eq_refl eq_refl eq_refl).
Defined.

(** That run calls the engine three times, and what it writes carries the
    engine's own delimiters. *)
Example merged_batch_run :
  let parameters :=
    Merged.with_defaults
      [("config", VStr "config.json"); ("configuration", VStr "info.json");
       ("templateDir", VStr "site"); ("outputDir", VStr "out");
       ("openDelimiter", VStr "<%")] in
  let r := Merged.run Demo.h 5 parameters Demo.disk0 in
  fst r = Ret tt /\
  engine_calls (w_trace (snd r)) = [None; None; None] /\
  filter is_write (w_trace (snd r))
    = [Wrote "out/page.tpl" "{{P}}" (Some 384); Wrote "out/sub/deep.tpl" "{{D}}" (Some 420)].
Proof. vm_compute. auto. Qed.

(** ** Global delimiters from the configuration document *)

Lemma field_some (k : string) (doc v : value) :
  field k doc = Some v -> exists ps, doc = VObj ps /\ JS.assoc k ps = Some v.
Proof. destruct doc; simpl; try discriminate. eauto. Qed.

Lemma document_delimiter_shape (which : string) (doc v : value) :
  document_delimiter which doc = Some v ->
  exists ps rps ops dps,
    doc = VObj ps /\
    config_root doc = VObj rps /\
    JS.assoc "options" rps = Some (VObj ops) /\
    JS.assoc "delimiters" ops = Some (VObj dps) /\
    JS.assoc which dps = Some v.
Proof.
  unfold document_delimiter. intros Hd.
  destruct (field "options" (config_root doc)) as [o|] eqn:Ho; [|discriminate].
  destruct (field "delimiters" o) as [d|] eqn:Hdl; [|discriminate].
  apply field_some in Ho as (rps & Hroot & Hopt).
  apply field_some in Hdl as (ops & -> & Hdel).
  apply field_some in Hd as (dps & -> & Hwhich).
  assert (exists ps, doc = VObj ps) as (ps & ->).
  { destruct doc; try (unfold config_root in Hroot; simpl in Hroot; discriminate). eauto. }
  exists ps, rps, ops, dps. auto.
Qed.

(** The block that reads [options.delimiters] on an object that has
    them. *)
Lemma apply_object (rps ops dps : list (string * value)) (g : jv * jv) :
  JS.assoc "options" rps = Some (VObj ops) ->
  JS.assoc "delimiters" ops = Some (VObj dps) ->
  Delimiters.apply (Some (VObj rps)) g
    = Ok (Delimiters.override (fst g) (JS.assoc "open" dps),
          Delimiters.override (snd g) (JS.assoc "close" dps)).
Proof.
  intros Ho Hd. unfold Delimiters.apply, Delimiters.configured.
  cbn [JS.get rbind]. rewrite Ho. cbn [JS.truthy JS.get rbind]. rewrite Hd.
  reflexivity.
Qed.

Lemma merged_read_config_object (ps rps ops dps : list (string * value))
    (s : Merged.settings) :
  config_root (VObj ps) = VObj rps ->
  JS.assoc "options" rps = Some (VObj ops) ->
  JS.assoc "delimiters" ops = Some (VObj dps) ->
  exists c,
    Merged.read_config (VObj ps) s
      = Ok (Merged.mkSettings c
              (Delimiters.override (Merged.globalOpen s) (JS.assoc "open" dps))
              (Delimiters.override (Merged.globalClose s) (JS.assoc "close" dps))).
Proof.
  intros Hroot Ho Hd. unfold Merged.read_config. cbn [JS.get rbind].
  assert (E : match JS.or (JS.assoc "templator-js" ps) (Some (VObj ps)) with
              | Some c => c
              | None => VObj ps
              end = VObj rps).
  { rewrite <- Hroot. unfold config_root, field, JS.or.
    destruct (JS.assoc "templator-js" ps) as [r|]; [|reflexivity].
    destruct (JS.truthy (Some r)); reflexivity. }
  rewrite E. cbn [JS.get rbind].
  destruct (JS.or (JS.assoc "files" rps) (Some JS.empty_object)) as [f|] eqn:Hf.
  - cbn [JS.set rbind].
    rewrite (apply_object (JS.assoc_set "files" f rps) ops dps); auto.
    + cbn [rbind fst snd]. eauto.
    + rewrite assoc_set_other; [exact Ho|discriminate].
  - cbn [rbind]. rewrite (apply_object rps ops dps); auto.
    cbn [rbind fst snd]. eauto.
Qed.

Lemma enhanced_read_config_object (ps rps ops dps : list (string * value))
    (s : Enhanced.settings) :
  config_root (VObj ps) = VObj rps ->
  JS.assoc "options" rps = Some (VObj ops) ->
  JS.assoc "delimiters" ops = Some (VObj dps) ->
  exists c,
    Enhanced.read_config (VObj ps) s
      = Ok (Enhanced.mkSettings c
              (Delimiters.override (Enhanced.globalOpenDelimiter s) (JS.assoc "open" dps))
              (Delimiters.override (Enhanced.globalCloseDelimiter s) (JS.assoc "close" dps))).
Proof.
  intros Hroot Ho Hd. unfold Enhanced.read_config. cbn [JS.get rbind].
  assert (E : match JS.assoc "templator-js" ps with
              | Some c => if JS.truthy (JS.assoc "templator-js" ps) then c else VObj ps
              | None => VObj ps
              end = VObj rps).
  { rewrite <- Hroot. unfold config_root, field.
    destruct (JS.assoc "templator-js" ps) as [r|]; reflexivity. }
  rewrite E. cbn [JS.get rbind].
  destruct (negb (JS.truthy (JS.assoc "files" rps))).
  - cbn [JS.set rbind].
    rewrite (apply_object (JS.assoc_set "files" JS.empty_object rps) ops dps); auto.
    + cbn [rbind fst snd]. eauto.
    + rewrite assoc_set_other; [exact Ho|discriminate].
  - cbn [rbind]. rewrite (apply_object rps ops dps); auto.
    cbn [rbind fst snd]. eauto.
Qed.

Lemma override_supplied (current : jv) (v : value) :
  JS.truthy (Some v) = true -> Delimiters.override current (Some v) = Some v.
Proof. intros Hv. unfold Delimiters.override. now rewrite Hv. Qed.

(** ** C10 *)

(** C10.  When the configuration document supplies a (non-empty)
    delimiter, the global delimiter of the merged and of the enhanced CLI is
    that value once the configuration is loaded, whatever the command-line
    flags had set it to. *)
Theorem config_document_overrides_flag (H : Host) (p raw : string) (doc : value)
    (which : string) (v : value) :
  p <> "" ->
  JSON_parse H raw = Ok doc ->
  document_delimiter which doc = Some v ->
  JS.truthy (Some v) = true ->
  (forall parameters w,
      JS.assoc "config" parameters = Some (VStr p) ->
      readFileSync H (w_fs w) p = Ok raw ->
      exists s, Merged.load_config H parameters w = (Ret s, w) /\
        (which = "open" -> Merged.globalOpen s = Some v) /\
        (which = "close" -> Merged.globalClose s = Some v)) /\
  (forall a s w,
      Enhanced.configPath a = Some (VStr p) ->
      readFileSync H (w_fs w) p = Ok raw ->
      exists s', Enhanced.load_config H a s w = (Ret s', w) /\
        (which = "open" -> Enhanced.globalOpenDelimiter s' = Some v) /\
        (which = "close" -> Enhanced.globalCloseDelimiter s' = Some v)).
Proof.
  intros Hp Hparse Hdoc Hv.
  destruct (document_delimiter_shape which doc v Hdoc)
    as (ps & rps & ops & dps & -> & Hroot & Ho & Hd & Hw).
  assert (Htruthy : JS.truthy (Some (VStr p)) = true).
  { simpl. apply String.eqb_neq in Hp. now rewrite Hp. }
  split.
  - intros parameters w Hcfg Hr.
    set (s0 := Merged.mkSettings (VObj [("files", JS.empty_object)])
                 (JS.or (JS.assoc "openDelimiter" parameters) (JS.str "{{"))
                 (JS.or (JS.assoc "closeDelimiter" parameters) (JS.str "}}"))).
    destruct (merged_read_config_object ps rps ops dps s0 Hroot Ho Hd) as (c & Hrc).
    eexists. split.
    + unfold Merged.load_config. cbv zeta. fold s0. rewrite Hcfg, Htruthy.
      step. cbn [Merged.as_path]. step. rewrite Hr. step. rewrite Hparse. step.
      rewrite Hrc. reflexivity.
    + cbn [Merged.globalOpen Merged.globalClose].
      split; intros ->; rewrite Hw; now apply override_supplied.
  - intros a s w Hcfg Hr.
    destruct (enhanced_read_config_object ps rps ops dps s Hroot Ho Hd) as (c & Hrc).
    eexists. split.
    + unfold Enhanced.load_config. rewrite Hcfg, Htruthy.
      step. rewrite Hr. step. rewrite Hparse. step. rewrite Hrc. reflexivity.
    + cbn [Enhanced.globalOpenDelimiter Enhanced.globalCloseDelimiter].
      split; intros ->; rewrite Hw; now apply override_supplied.
Qed.

(** [config2.json] sets the opening delimiter to [[[]. *)
Lemma config_document_overrides_flag_witness :
  let doc := VObj [("templator-js",
                    VObj [("options", VObj [("delimiters",
                            VObj [("open", VStr "[["); ("close", VStr "]]")])])])] in
  ("config2.json" <> "" /\
   JSON_parse Demo.h "{cfg2}" = Ok doc /\
   document_delimiter "open" doc = Some (VStr "[[") /\
   JS.truthy (Some (VStr "[[")) = true) /\
  (forall parameters w,
      JS.assoc "config" parameters = Some (VStr "config2.json") ->
      readFileSync Demo.h (w_fs w) "config2.json" = Ok "{cfg2}" ->
      exists s, Merged.load_config Demo.h parameters w = (Ret s, w) /\
        ("open" = "open" -> Merged.globalOpen s = Some (VStr "[[")) /\
        ("open" = "close" -> Merged.globalClose s = Some (VStr "[["))) /\
  (forall a s w,
      Enhanced.configPath a = Some (VStr "config2.json") ->
      readFileSync Demo.h (w_fs w) "config2.json" = Ok "{cfg2}" ->
      exists s', Enhanced.load_config Demo.h a s w = (Ret s', w) /\
        ("open" = "open" -> Enhanced.globalOpenDelimiter s' = Some (VStr "[[")) /\
        ("open" = "close" -> Enhanced.globalCloseDelimiter s' = Some (VStr "[["))).
Proof.
  intros doc. split.
  - repeat split. discriminate.
  - exact (config_document_overrides_flag Demo.h "config2.json" "{cfg2}" doc "open"
             (VStr "[[") ltac:(discriminate) eq_refl eq_refl eq_refl).
Defined.

(** A run of each CLI with the flag [-o <%] and [config2.json]: the
    engine gets the document's pair. *)
Example flag_and_config_runs :
  engine_calls (w_trace (snd (Enhanced.run Demo.h
     ["--config"; "config2.json"; "-o"; "<%"; "info.json"; "page.tpl"; "out.txt"]
     Demo.disk0)))
    = [Some (mkOptions (JS.str "[[") (JS.str "]]"))] /\
  engine_calls (w_trace (snd (Merged.run Demo.h 5
     [("config", VStr "config2.json"); ("configuration", VStr "info.json");
      ("openDelimiter", VStr "<%"); ("templates", VStr "page.tpl");
      ("destination", VStr "out.txt")]
     Demo.disk0)))
    = [Some (mkOptions (JS.str "[[") (JS.str "]]"))].
Proof. vm_compute. auto. Qed.

(** ** The delimiters [renderTemplate] hands to the engine *)

Lemma engine_calls_app (t1 t2 : list event) :
  engine_calls (t1 ++ t2) = (engine_calls t1 ++ engine_calls t2)%list.
Proof.
  induction t1 as [|e t1 IH]; simpl; auto.
  destruct e; simpl; auto. now rewrite IH.
Qed.

Lemma or_or_precedence (a b c : jv) :
  JS.or (JS.or a b) c = precedence [a; b] c.
Proof.
  unfold JS.or. cbn [precedence].
  destruct (JS.truthy a) eqn:Ha; [now rewrite Ha|].
  destruct (JS.truthy b) eqn:Hb; reflexivity.
Qed.

Lemma file_config_entry (fm : list (string * value)) (name k : string) :
  entry_is_mapping fm name ->
  rbind (Delimiters.file_config (Some (VObj fm)) name) (fun fc => JS.get fc k)
    = Ok (file_override fm name k).
Proof.
  unfold Delimiters.file_config, file_override. cbn [JS.get rbind].
  intros [Hnone|(entry & Hentry)].
  - rewrite Hnone. reflexivity.
  - rewrite Hentry. reflexivity.
Qed.

Lemma enhanced_resolve_delimiters (H : Host) (s : Enhanced.settings)
    (fm : list (string * value)) (path : string) (openDel closeDel : jv) :
  JS.get (Some (Enhanced.config s)) "files" = Ok (Some (VObj fm)) ->
  entry_is_mapping fm (path_basename H path) ->
  Enhanced.resolve_delimiters H s path openDel closeDel
    = Ok (mkOptions
            (precedence [file_override fm (path_basename H path) "openDelimiter"; openDel]
                        (Enhanced.globalOpenDelimiter s))
            (precedence [file_override fm (path_basename H path) "closeDelimiter"; closeDel]
                        (Enhanced.globalCloseDelimiter s))).
Proof.
  intros Hfiles Hentry. unfold Enhanced.resolve_delimiters.
  rewrite Hfiles. cbn [rbind].
  pose proof (file_config_entry fm (path_basename H path) "openDelimiter" Hentry) as Ho.
  pose proof (file_config_entry fm (path_basename H path) "closeDelimiter" Hentry) as Hc.
  destruct (Delimiters.file_config (Some (VObj fm)) (path_basename H path)) as [fc|];
    [|discriminate].
  cbn [rbind] in *. rewrite Ho, Hc. cbn [rbind].
  now rewrite !or_or_precedence.
Qed.

Lemma merged_resolve_delimiters (H : Host) (s : Merged.settings)
    (fm : list (string * value)) (path : string) (openDel closeDel : jv) :
  JS.get (Some (Merged.tplConfig s)) "files" = Ok (Some (VObj fm)) ->
  entry_is_mapping fm (path_basename H path) ->
  Merged.resolve_delimiters H s path openDel closeDel
    = Ok (mkOptions
            (precedence [file_override fm (path_basename H path) "openDelimiter"] openDel)
            (precedence [file_override fm (path_basename H path) "closeDelimiter"] closeDel)).
Proof.
  intros Hfiles Hentry. unfold Merged.resolve_delimiters.
  rewrite Hfiles. cbn [rbind].
  pose proof (file_config_entry fm (path_basename H path) "openDelimiter" Hentry) as Ho.
  pose proof (file_config_entry fm (path_basename H path) "closeDelimiter" Hentry) as Hc.
  destruct (Delimiters.file_config (Some (VObj fm)) (path_basename H path)) as [fc|];
    [|discriminate].
  cbn [rbind] in *. rewrite Ho, Hc. reflexivity.
Qed.

(** [renderTemplate] calls the engine once it has read the template,
    once, with the delimiters it resolved. *)
Lemma enhanced_renderTemplate_engine_call (H : Host) (s : Enhanced.settings)
    (path out tpl : string) (ctx : value) (openDel closeDel : jv) (o : options)
    (w : world H) :
  Enhanced.resolve_delimiters H s path openDel closeDel = Ok o ->
  readFileSync H (w_fs w) path = Ok tpl ->
  engine_calls (w_trace (snd (Enhanced.renderTemplate H s path out ctx openDel closeDel w)))
    = (engine_calls (w_trace w) ++ [Some o])%list.
Proof.
  intros Hres Hr. unfold Enhanced.renderTemplate. rewrite Hres. step. rewrite Hr. step.
  destruct (Mark_up H tpl ctx (Some o)); step.
  - destruct (existsSync H (w_fs w) (path_dirname H out)); step;
      [|destruct (mkdirSync_recursive H (w_fs w) (path_dirname H out)); step];
      repeat match goal with
             | |- context [writeFileSync H ?f ?p ?d ?m] => destruct (writeFileSync H f p d m)
             end;
      cbn [w_trace snd]; rewrite ?engine_calls_app, <- ?app_assoc; reflexivity.
  - cbn [w_trace snd]. rewrite ?engine_calls_app, <- ?app_assoc. reflexivity.
Qed.

Lemma merged_renderTemplate_engine_call (H : Host) (s : Merged.settings)
    (path tpl : string) (out : jv) (ctx : value) (openDel closeDel : jv) (o : options)
    (w : world H) :
  Merged.resolve_delimiters H s path openDel closeDel = Ok o ->
  readFileSync H (w_fs w) path = Ok tpl ->
  engine_calls (w_trace (snd (Merged.renderTemplate H s path out ctx openDel closeDel w)))
    = (engine_calls (w_trace w) ++ [Some o])%list.
Proof.
  intros Hres Hr. unfold Merged.renderTemplate. rewrite Hres. step. rewrite Hr. step.
  destruct (Mark_up H tpl ctx (Some o)); step.
  - destruct (Merged.is_stdout out); step.
    + cbn [w_trace snd]. rewrite ?engine_calls_app, <- ?app_assoc. reflexivity.
    + destruct (Merged.as_path out); step;
        [destruct (mkdirp_sync H (w_fs w) (path_dirname H a0)); step|];
        repeat match goal with
               | |- context [writeFileSync H ?f ?p ?d ?m] => destruct (writeFileSync H f p d m)
               end;
        cbn [w_trace snd]; rewrite ?engine_calls_app, <- ?app_assoc; reflexivity.
  - cbn [w_trace snd]. rewrite ?engine_calls_app, <- ?app_assoc. reflexivity.
Qed.

(** ** The global pair when nothing replaces the default *)

Lemma flagged_keeps_delimiters (arg : string) (v : jv) (a a' : Enhanced.args) :
  no_delimiter_flag arg = true ->
  Enhanced.flagged arg v a = Some a' ->
  Enhanced.argOpenDelimiter a' = Enhanced.argOpenDelimiter a /\
  Enhanced.argCloseDelimiter a' = Enhanced.argCloseDelimiter a.
Proof.
  unfold no_delimiter_flag, Enhanced.flagged. intros Hno.
  apply andb_prop in Hno as [Ho Hc].
  apply negb_true_iff in Ho. apply negb_true_iff in Hc. rewrite Ho, Hc.
  repeat match goal with
         | |- context [if ?b then _ else _] => destruct b
         end; intros E; inversion E; subst; auto.
Qed.

Lemma positional_keeps_delimiters (arg : string) (a : Enhanced.args) :
  Enhanced.argOpenDelimiter (Enhanced.positional arg a) = Enhanced.argOpenDelimiter a /\
  Enhanced.argCloseDelimiter (Enhanced.positional arg a) = Enhanced.argCloseDelimiter a.
Proof.
  unfold Enhanced.positional.
  repeat match goal with
         | |- context [if ?b then _ else _] => destruct b
         end; auto.
Qed.

Lemma parse_args_keeps_delimiters (argv : list string) (a : Enhanced.args) :
  forallb no_delimiter_flag argv = true ->
  Enhanced.argOpenDelimiter (Enhanced.parse_args argv a) = Enhanced.argOpenDelimiter a /\
  Enhanced.argCloseDelimiter (Enhanced.parse_args argv a) = Enhanced.argCloseDelimiter a.
Proof.
  remember (List.length argv) as n eqn:Hn.
  assert (Hle : (List.length argv <= n)%nat) by lia. clear Hn.
  revert argv a Hle. induction n as [|n IH]; intros argv a Hle Hno.
  - destruct argv; [auto|simpl in Hle; lia].
  - destruct argv as [|arg rest]; [auto|].
    simpl in Hno. apply andb_prop in Hno as [Harg Hrest].
    cbn [Enhanced.parse_args].
    destruct (Enhanced.flagged arg (Enhanced.value_of rest) a) as [a'|] eqn:Hf.
    + destruct (flagged_keeps_delimiters _ _ _ _ Harg Hf) as [Eo Ec].
      destruct rest as [|v rest']; [auto|].
      simpl in Hrest. apply andb_prop in Hrest as [_ Hrest'].
      destruct (IH rest' a') as [Eo' Ec']; [simpl in Hle; lia|exact Hrest'|].
      split; congruence.
    + destruct (positional_keeps_delimiters arg a) as [Eo Ec].
      destruct (IH rest (Enhanced.positional arg a)) as [Eo' Ec'];
        [simpl in Hle; lia|exact Hrest|].
      split; congruence.
Qed.

Lemma then_ret_trace {H : Host} {A} (m : M H A) (w : world H) :
  w_trace (snd ((m ;;; ret tt) w)) = w_trace (snd (m w)).
Proof. unfold bind. destruct (m w) as [[a|e|c] w']; reflexivity. Qed.

Lemma precedence_twice (a g : jv) : precedence [a; g] g = precedence [a] g.
Proof. cbn. destruct (JS.truthy a), (JS.truthy g); reflexivity. Qed.

(** In single-file mode both CLIs pass their global pair to
    [renderTemplate]. *)
Lemma enhanced_single_file_engine_call (H : Host) (s : Enhanced.settings)
    (fm : list (string * value)) (path tpl : string) (out : jv) (ctx : value)
    (w : world H) :
  entry_is_mapping fm (path_basename H path) ->
  JS.get (Some (Enhanced.config s)) "files" = Ok (Some (VObj fm)) ->
  readFileSync H (w_fs w) path = Ok tpl ->
  JS.truthy out = true ->
  engine_calls (w_trace (snd (Enhanced.single_file_mode H s path out ctx w)))
    = (engine_calls (w_trace w) ++
       [Some (mkOptions
                (precedence [file_override fm (path_basename H path) "openDelimiter"]
                            (Enhanced.globalOpenDelimiter s))
                (precedence [file_override fm (path_basename H path) "closeDelimiter"]
                            (Enhanced.globalCloseDelimiter s)))])%list.
Proof.
  intros Hentry Hfiles Hr Hout. unfold Enhanced.single_file_mode. rewrite Hout.
  cbn [negb]. rewrite then_ret_trace.
  rewrite (enhanced_renderTemplate_engine_call H s path _ tpl ctx _ _ _ w
             (enhanced_resolve_delimiters H s fm path _ _ Hfiles Hentry) Hr).
  now rewrite !precedence_twice.
Qed.

Lemma merged_single_file_engine_call (H : Host) (s : Merged.settings)
    (fm : list (string * value)) (parameters : list (string * value))
    (path tpl : string) (ctx : value) (w : world H) :
  entry_is_mapping fm (path_basename H path) ->
  JS.get (Some (Merged.tplConfig s)) "files" = Ok (Some (VObj fm)) ->
  readFileSync H (w_fs w) path = Ok tpl ->
  engine_calls (w_trace (snd (Merged.single_file_mode H s parameters path ctx w)))
    = (engine_calls (w_trace w) ++
       [Some (mkOptions
                (precedence [file_override fm (path_basename H path) "openDelimiter"]
                            (Merged.globalOpen s))
                (precedence [file_override fm (path_basename H path) "closeDelimiter"]
                            (Merged.globalClose s)))])%list.
Proof.
  intros Hentry Hfiles Hr. unfold Merged.single_file_mode. rewrite then_ret_trace.
  rewrite (merged_renderTemplate_engine_call H s path tpl _ ctx _ _ _ w
             (merged_resolve_delimiters H s fm path _ _ Hfiles Hentry) Hr).
  reflexivity.
Qed.

(** ** C1 *)

(** C1, at the failing input.  The merged CLI on the directory [pages]
    with a configuration whose [files] mapping gives [page.tpl] the pair [<%],
    [%>]: the configuration is loaded, and [pages/page.tpl] is rendered by a
    call to the engine that passes no delimiters; the output shows the
    engine's own pair. *)
Theorem merged_batch_ignores_file_override :
  let parameters :=
    Merged.with_defaults
      [("config", VStr "config.json"); ("configuration", VStr "info.json");
       ("templateDir", VStr "pages"); ("outputDir", VStr "out")] in
  let r := Merged.run Demo.h 5 parameters Demo.disk0 in
  (exists s fm,
      fst (Merged.load_config Demo.h parameters (@mkWorld Demo.h Demo.disk0 [])) = Ret s /\
      JS.get (Some (Merged.tplConfig s)) "files" = Ok (Some (VObj fm)) /\
      file_override fm "page.tpl" "openDelimiter" = Some (VStr "<%") /\
      file_override fm "page.tpl" "closeDelimiter" = Some (VStr "%>")) /\
  fst r = Ret tt /\
  engine_calls (w_trace (snd r)) = [None] /\
  filter is_write (w_trace (snd r)) = [Wrote "out/page.tpl" "{{P}}" (Some 420)].
Proof.
  split.
  - eexists. eexists. split; [vm_compute; reflexivity|]. vm_compute. auto.
  - vm_compute. auto.
Qed.

(** The enhanced CLI on [page.tpl] with that configuration and no output
    path renders twice: [renderTemplate] with the file's pair, and the text
    for standard output with the global pair. *)
Example enhanced_stdout_render_uses_global_pair :
  let r := Enhanced.run Demo.h ["--config"; "config.json"; "info.json"; "page.tpl"]
             Demo.disk0 in
  engine_calls (w_trace (snd r))
    = [Some (mkOptions (JS.str "<%") (JS.str "%>"));
       Some (mkOptions (JS.str "{{") (JS.str "}}"))] /\
  filter is_write (w_trace (snd r)) = [Wrote "stdout" "<%Hello%>" None] /\
  In (Stdout "{{Hello}}") (w_trace (snd r)).
Proof. vm_compute. intuition. Qed.

(** The enhanced and the merged CLI on the single file [page.tpl] with
    that configuration and an output path. *)
Example single_file_runs_use_override :
  engine_calls (w_trace (snd (Enhanced.run Demo.h
     ["--config"; "config.json"; "info.json"; "page.tpl"; "out.txt"] Demo.disk0)))
    = [Some (mkOptions (JS.str "<%") (JS.str "%>"))] /\
  engine_calls (w_trace (snd (Merged.run Demo.h 5
     [("config", VStr "config.json"); ("configuration", VStr "info.json");
      ("templates", VStr "page.tpl"); ("destination", VStr "out.txt")]
     Demo.disk0)))
    = [Some (mkOptions (JS.str "<%") (JS.str "%>"))].
Proof. vm_compute. auto. Qed.

(** ** What [renderTemplate] writes *)

Ltac find_write :=
  match goal with
  | Hin : In _ (_ ++ _)%list |- _ =>
      apply in_app_or in Hin as [Hin|Hin]; [now left|right];
      simpl in Hin;
      repeat match type of Hin with
             | _ \/ _ => destruct Hin as [Hin|Hin]
             end;
      try discriminate Hin; try contradiction
  | Hin : In _ _ |- _ => now left
  end.

Lemma enhanced_renderTemplate_writes (H : Host) (s : Enhanced.settings)
    (path out : string) (ctx : value) (openDel closeDel : jv) (o : options)
    (w : world H) (p d : string) (m : option Z) :
  Enhanced.resolve_delimiters H s path openDel closeDel = Ok o ->
  In (Wrote p d m)
     (w_trace (snd (Enhanced.renderTemplate H s path out ctx openDel closeDel w))) ->
  In (Wrote p d m) (w_trace w) \/
  (p = out /\ exists tpl, readFileSync H (w_fs w) path = Ok tpl /\
                         Mark_up H tpl ctx (Some o) = Ok d).
Proof.
  intros Hres. unfold Enhanced.renderTemplate. rewrite Hres. step.
  host_cases; cbn [snd w_trace]; rewrite <- ?app_assoc; cbn [app]; intros Hin;
    find_write; inversion Hin; subst; eauto.
Qed.

Lemma merged_renderTemplate_writes (H : Host) (s : Merged.settings)
    (path : string) (out : jv) (ctx : value) (openDel closeDel : jv) (o : options)
    (w : world H) (p d : string) (m : option Z) :
  Merged.resolve_delimiters H s path openDel closeDel = Ok o ->
  In (Wrote p d m)
     (w_trace (snd (Merged.renderTemplate H s path out ctx openDel closeDel w))) ->
  In (Wrote p d m) (w_trace w) \/
  (out = Some (VStr p) /\ exists tpl, readFileSync H (w_fs w) path = Ok tpl /\
                                      Mark_up H tpl ctx (Some o) = Ok d).
Proof.
  intros Hres. unfold Merged.renderTemplate. rewrite Hres. step.
  host_cases; cbn [snd w_trace]; rewrite <- ?app_assoc; cbn [app]; intros Hin;
    find_write; inversion Hin; subst;
    match goal with
    | Hp : Merged.as_path out = Ok _ |- _ =>
        destruct out as [[| | |q| |]|]; try discriminate Hp;
        inversion Hp; subst; eauto
    end.
Qed.

Lemma enhanced_renderTemplate_failed_render (H : Host) (s : Enhanced.settings)
    (path out tpl : string) (ctx : value) (openDel closeDel : jv) (o : options)
    (e : string) (w : world H) :
  Enhanced.resolve_delimiters H s path openDel closeDel = Ok o ->
  readFileSync H (w_fs w) path = Ok tpl ->
  Mark_up H tpl ctx (Some o) = Err e ->
  let r := Enhanced.renderTemplate H s path out ctx openDel closeDel w in
  fst r = Ret false /\ w_fs (snd r) = w_fs w /\
  filter is_write (w_trace (snd r)) = filter is_write (w_trace w).
Proof.
  intros Hres Hr He. unfold Enhanced.renderTemplate. rewrite Hres. step.
  rewrite Hr. step. rewrite He. step. cbn [fst snd w_fs w_trace].
  rewrite <- !app_assoc, filter_app. cbn. rewrite app_nil_r. auto.
Qed.

Lemma merged_renderTemplate_failed_render (H : Host) (s : Merged.settings)
    (path tpl : string) (out : jv) (ctx : value) (openDel closeDel : jv) (o : options)
    (e : string) (w : world H) :
  Merged.resolve_delimiters H s path openDel closeDel = Ok o ->
  readFileSync H (w_fs w) path = Ok tpl ->
  Mark_up H tpl ctx (Some o) = Err e ->
  let r := Merged.renderTemplate H s path out ctx openDel closeDel w in
  fst r = Ret false /\ w_fs (snd r) = w_fs w /\
  filter is_write (w_trace (snd r)) = filter is_write (w_trace w).
Proof.
  intros Hres Hr He. unfold Merged.renderTemplate. rewrite Hres. step.
  rewrite Hr. step. rewrite He. step. cbn [fst snd w_fs w_trace].
  rewrite <- !app_assoc, filter_app. cbn. rewrite app_nil_r. auto.
Qed.

Lemma processTemplateFile_failed_render (H : Host) (src dest tpl : string) (ctx : value)
    (st : stats) (e : string) (w : world H) :
  statSync H (w_fs w) src = Ok st ->
  readFileSync H (w_fs w) src = Ok tpl ->
  Mark_up H tpl ctx None = Err e ->
  let r := Merged.processTemplateFile H src dest ctx w in
  fst r = Throw e /\ w_fs (snd r) = w_fs w /\
  w_trace (snd r) = (w_trace w ++ [Rendered tpl ctx None])%list.
Proof.
  intros Hst Hr He. unfold Merged.processTemplateFile. step.
  rewrite Hst. step. rewrite Hr. step. rewrite He. step. auto.
Qed.

Lemma processTemplateFile_writes (H : Host) (src dest : string) (ctx : value)
    (w : world H) (p d : string) (m : option Z) :
  In (Wrote p d m) (w_trace (snd (Merged.processTemplateFile H src dest ctx w))) ->
  In (Wrote p d m) (w_trace w) \/
  (p = dest /\ exists tpl, readFileSync H (w_fs w) src = Ok tpl /\
                           Mark_up H tpl ctx None = Ok d).
Proof.
  unfold Merged.processTemplateFile, Merged.shell. step.
  host_cases; cbn [snd w_trace]; rewrite <- ?app_assoc; cbn [app]; intros Hin;
    find_write; inversion Hin; subst; eauto.
Qed.

Lemma simple_failed_render (H : Host) (argv : list string) (fs : fsys H)
    (info tpl template e : string) (ctx : value) :
  let c := Simple.parse_args argv Simple.initial_cli in
  Simple.path_arg (Simple.cli_files c) 0 = Some (VStr info) ->
  Simple.path_arg (Simple.cli_files c) 1 = Some (VStr tpl) ->
  info <> "" -> tpl <> "" ->
  rbind (readFileSync H fs info) (fun text => rbind (JSON_parse H text) ensure_items)
    = Ok ctx ->
  readFileSync H fs tpl = Ok template ->
  Mark_up H template ctx (Some (mkOptions (Simple.cli_open c) (Simple.cli_close c)))
    = Err e ->
  let r := Simple.run H argv fs in
  fst r = Exit 4 /\ w_fs (snd r) = fs /\ filter is_write (w_trace (snd r)) = [].
Proof.
  intros c Hinfo Htpl Hi Ht Hctx Hr He. unfold Simple.run, Simple.main. fold c.
  rewrite Hinfo, Htpl. cbn [JS.truthy].
  apply String.eqb_neq in Hi. apply String.eqb_neq in Ht. rewrite Hi, Ht.
  cbn [negb orb].
  unfold Simple.load_context, Simple.load_template, Simple.render. revert Hctx.
  unfold rbind. step.
  destruct (readFileSync H fs info) as [text|]; step; [|discriminate].
  destruct (JSON_parse H text) as [doc|]; step; [|discriminate].
  destruct (ensure_items doc) as [context|]; step; [|discriminate].
  intros E. inversion E; subst context. rewrite Hr. step. rewrite He. step.
  cbn. auto.
Qed.

Lemma simple_run_writes (H : Host) (argv : list string) (fs : fsys H)
    (p d : string) (m : option Z) :
  In (Wrote p d m) (w_trace (snd (Simple.run H argv fs))) ->
  exists template ctx o, Mark_up H template ctx (Some o) = Ok d.
Proof.
  unfold Simple.run, Simple.main.
  set (c := Simple.parse_args argv Simple.initial_cli).
  destruct (Simple.path_arg (Simple.cli_files c) 0) as [[| | |info| |]|];
    try (cbn; intros [Hin|[]]; discriminate Hin).
  destruct (Simple.path_arg (Simple.cli_files c) 1) as [[| | |tpl| |]|];
    try (cbn; intros [Hin|[]]; discriminate Hin).
  destruct (negb (JS.truthy (Some (VStr info))) || negb (JS.truthy (Some (VStr tpl))));
    [cbn; intros [Hin|[]]; discriminate Hin|].
  unfold Simple.load_context, Simple.load_template, Simple.render, Simple.write_output,
    make_executable.
  destruct (Simple.path_arg (Simple.cli_files c) 2) as [[| | |out| |]|];
    [| | | destruct (JS.truthy (Some (VStr out))) | | |];
    destruct (platform_win32 H); step;
    host_cases; cbn [snd w_trace app]; intros Hin;
    repeat match type of Hin with
           | In _ (_ ++ _)%list => apply in_app_or in Hin as [Hin|Hin]
           | In _ (_ :: _) => destruct Hin as [Hin|Hin]
           | In _ [] => destruct Hin
           | _ = _ => first [discriminate Hin | inversion Hin; subst; eauto]
           end.
Qed.

(** ** C6 *)

(** C6.  When the engine throws on a template, every path that renders
    a file stops before it writes: [renderTemplate] (of the enhanced and of
    the merged CLI) returns [false], [processTemplateFile] rethrows and the
    simple CLI exits with 4, each leaving the file system as it was and
    writing no file.  And whenever one of them does write a file, it writes
    what the engine returned. *)
Theorem failed_render_writes_nothing (H : Host) (path tpl : string) (ctx : value)
    (opts : option options) (e : string) :
  Mark_up H tpl ctx opts = Err e ->
  (forall s out openDel closeDel o w,
      opts = Some o ->
      Enhanced.resolve_delimiters H s path openDel closeDel = Ok o ->
      readFileSync H (w_fs w) path = Ok tpl ->
      let r := Enhanced.renderTemplate H s path out ctx openDel closeDel w in
      fst r = Ret false /\ w_fs (snd r) = w_fs w /\
      filter is_write (w_trace (snd r)) = filter is_write (w_trace w)) /\
  (forall s out openDel closeDel o w,
      opts = Some o ->
      Merged.resolve_delimiters H s path openDel closeDel = Ok o ->
      readFileSync H (w_fs w) path = Ok tpl ->
      let r := Merged.renderTemplate H s path out ctx openDel closeDel w in
      fst r = Ret false /\ w_fs (snd r) = w_fs w /\
      filter is_write (w_trace (snd r)) = filter is_write (w_trace w)) /\
  (forall dest st w,
      opts = None ->
      statSync H (w_fs w) path = Ok st ->
      readFileSync H (w_fs w) path = Ok tpl ->
      let r := Merged.processTemplateFile H path dest ctx w in
      fst r = Throw e /\ w_fs (snd r) = w_fs w /\
      w_trace (snd r) = (w_trace w ++ [Rendered tpl ctx None])%list) /\
  (forall argv fs info,
      let c := Simple.parse_args argv Simple.initial_cli in
      opts = Some (mkOptions (Simple.cli_open c) (Simple.cli_close c)) ->
      Simple.path_arg (Simple.cli_files c) 0 = Some (VStr info) ->
      Simple.path_arg (Simple.cli_files c) 1 = Some (VStr path) ->
      info <> "" -> path <> "" ->
      rbind (readFileSync H fs info) (fun text => rbind (JSON_parse H text) ensure_items)
        = Ok ctx ->
      readFileSync H fs path = Ok tpl ->
      let r := Simple.run H argv fs in
      fst r = Exit 4 /\ w_fs (snd r) = fs /\ filter is_write (w_trace (snd r)) = []) /\
  (forall s src out c openDel closeDel o' w p d m,
      Enhanced.resolve_delimiters H s src openDel closeDel = Ok o' ->
      In (Wrote p d m)
         (w_trace (snd (Enhanced.renderTemplate H s src out c openDel closeDel w))) ->
      In (Wrote p d m) (w_trace w) \/
      (p = out /\ exists tpl', readFileSync H (w_fs w) src = Ok tpl' /\
                              Mark_up H tpl' c (Some o') = Ok d)) /\
  (forall s src out c openDel closeDel o' w p d m,
      Merged.resolve_delimiters H s src openDel closeDel = Ok o' ->
      In (Wrote p d m)
         (w_trace (snd (Merged.renderTemplate H s src out c openDel closeDel w))) ->
      In (Wrote p d m) (w_trace w) \/
      (out = Some (VStr p) /\ exists tpl', readFileSync H (w_fs w) src = Ok tpl' /\
                                           Mark_up H tpl' c (Some o') = Ok d)) /\
  (forall src dest c w p d m,
      In (Wrote p d m) (w_trace (snd (Merged.processTemplateFile H src dest c w))) ->
      In (Wrote p d m) (w_trace w) \/
      (p = dest /\ exists tpl', readFileSync H (w_fs w) src = Ok tpl' /\
                               Mark_up H tpl' c None = Ok d)) /\
  (forall argv fs p d m,
      In (Wrote p d m) (w_trace (snd (Simple.run H argv fs))) ->
      exists template c o', Mark_up H template c (Some o') = Ok d).
Proof.
  intros He. repeat apply conj.
  - intros s out openDel closeDel o w ->.
    intros. now apply enhanced_renderTemplate_failed_render with (tpl := tpl) (o := o) (e := e).
  - intros s out openDel closeDel o w ->.
    intros. now apply merged_renderTemplate_failed_render with (tpl := tpl) (o := o) (e := e).
  - intros dest st w ->.
    intros. now apply processTemplateFile_failed_render with (st := st).
  - intros argv fs info c ->.
    intros. now apply simple_failed_render with (info := info) (tpl := path) (template := tpl)
                                               (e := e) (ctx := ctx).
  - intros. now apply enhanced_renderTemplate_writes with (s := s) (openDel := openDel)
                                                          (closeDel := closeDel) (m := m).
  - intros. now apply merged_renderTemplate_writes with (s := s) (openDel := openDel)
                                                        (closeDel := closeDel) (m := m).
  - intros. now apply processTemplateFile_writes with (m := m).
  - intros. now apply simple_run_writes with (argv := argv) (fs := fs) (p := p) (m := m).
Qed.

(** [broken/a.tpl] has an unclosed section. *)
Lemma failed_render_writes_nothing_witness :
  let o := mkOptions (JS.str "{{") (JS.str "}}") in
  let s := Enhanced.mkSettings Enhanced.initial_config (JS.str "{{") (JS.str "}}") in
  let w := @mkWorld Demo.h Demo.disk0 [] in
  let r := Enhanced.renderTemplate Demo.h s "broken/a.tpl" "out/a.tpl" (VObj [])
             (JS.str "{{") (JS.str "}}") w in
  Mark_up Demo.h "{{#a}}no close" (VObj []) (Some o) = Err "Unmatched section a" /\
  fst r = Ret false /\ w_fs (snd r) = Demo.disk0 /\
  filter is_write (w_trace (snd r)) = [].
Proof.
  intros o s w r. split; [reflexivity|].
  exact (proj1 (failed_render_writes_nothing Demo.h "broken/a.tpl" "{{#a}}no close"
                  (VObj []) (Some o) "Unmatched section a" eq_refl)
           s "out/a.tpl" (JS.str "{{") (JS.str "}}") o w eq_refl eq_refl eq_refl).
Defined.

(** ** The loop of [generateDir] *)

(** What [forEach] does with a callback that has effects: every element
    has its turn, or the elements before one have and that one throws or
    ends the process. *)
Lemma forEach_outcome (H : Host) {A} (f : A -> M H unit) (l : list A) (w : world H) :
  let r := Merged.forEach H l f w in
  match fst r with
  | Ret _ => turns (fun x w0 w1 => f x w0 = (Ret tt, w1)) l w (snd r)
  | Throw e =>
      exists done x rest w1,
        l = (done ++ x :: rest)%list /\
        turns (fun x w0 w1 => f x w0 = (Ret tt, w1)) done w w1 /\
        f x w1 = (Throw e, snd r)
  | Exit c =>
      exists done x rest w1,
        l = (done ++ x :: rest)%list /\
        turns (fun x w0 w1 => f x w0 = (Ret tt, w1)) done w w1 /\
        f x w1 = (Exit c, snd r)
  end.
Proof.
  revert w. induction l as [|x l IH]; intros w; cbn [Merged.forEach].
  - cbn. constructor.
  - unfold bind. destruct (f x w) as [[[]|e|c] w1] eqn:Hx; cbn [fst snd].
    + specialize (IH w1). cbv zeta in IH.
      destruct (Merged.forEach H l f w1) as [[[]|e|c] w2]; cbn [fst snd] in *.
      * econstructor; eauto.
      * destruct IH as (done & y & rest & w' & -> & Hdone & Hy).
        exists (x :: done), y, rest, w'. split; [reflexivity|]. split; [|exact Hy].
        econstructor; eauto.
      * destruct IH as (done & y & rest & w' & -> & Hdone & Hy).
        exists (x :: done), y, rest, w'. split; [reflexivity|]. split; [|exact Hy].
        econstructor; eauto.
    + exists [], x, l, w. split; [reflexivity|]. split; [constructor|exact Hx].
    + exists [], x, l, w. split; [reflexivity|]. split; [constructor|exact Hx].
Qed.

Lemma turns_impl (H : Host) {A} (P Q : A -> world H -> world H -> Prop)
    (l : list A) (w w1 : world H) :
  (forall x w0 w', P x w0 w' -> Q x w0 w') -> turns P l w w1 -> turns Q l w w1.
Proof. intros HPQ Ht. induction Ht; econstructor; eauto. Qed.

Lemma processTemplateFile_never_exits (H : Host) (src dest : string) (ctx : value)
    (w w1 : world H) (c : Z) :
  Merged.processTemplateFile H src dest ctx w <> (Exit c, w1).
Proof.
  unfold Merged.processTemplateFile, Merged.shell. step. host_cases; discriminate.
Qed.

Lemma generateDir_never_exits (H : Host) (depth : nat) (srcDir baseDir destDir : string)
    (ctx : value) (w w1 : world H) (c : Z) :
  Merged.generateDir H depth srcDir baseDir destDir ctx w <> (Exit c, w1).
Proof.
  revert srcDir w w1 c. induction depth as [|depth IH]; intros srcDir w w1 c;
    cbn [Merged.generateDir].
  - discriminate.
  - unfold bind at 1. unfold fs_readdirSync, fs_read.
    destruct (readdirSync H (w_fs w) srcDir) as [items|e]; cbn [lift ret throw fst];
      [|discriminate].
    match goal with
    | |- Merged.forEach H items ?f w <> _ =>
        pose proof (forEach_outcome H f items w) as Hout; cbv zeta in Hout;
        destruct (Merged.forEach H items f w) as [[[]|e|c'] w2]
    end; cbn [fst snd] in *; try discriminate.
    destruct Hout as (done & x & rest & w' & _ & _ & Hx). exfalso. revert Hx. step.
    destruct (statSync H (w_fs w') (path_join H srcDir x)) as [st|]; step; [|discriminate].
    destruct (isDirectory st).
    + destruct (mkdirp_sync H (w_fs w') _); step; [|discriminate]. apply IH.
    + apply processTemplateFile_never_exits.
Qed.

Lemma entry_turn_ret (H : Host) (depth : nat) (srcDir baseDir destDir : string)
    (ctx : value) (item : string) (w w1 : world H) :
  (st <- fs_statSync H (path_join H srcDir item) ;;
   if isDirectory st then
     mkdirp H (path_join H destDir
                 (Merged.substr (path_join H srcDir item) (String.length baseDir))) ;;;
     Merged.generateDir H depth (path_join H srcDir item) baseDir destDir ctx
   else Merged.processTemplateFile H (path_join H srcDir item)
          (path_join H destDir
             (Merged.substr (path_join H srcDir item) (String.length baseDir))) ctx) w
  = (Ret tt, w1) ->
  entry_done H depth srcDir baseDir destDir ctx item w w1.
Proof.
  unfold entry_done, destination. step.
  destruct (statSync H (w_fs w) (path_join H srcDir item)) as [st|]; step; [|discriminate].
  intros Hx. exists st. split; [reflexivity|].
  destruct (isDirectory st); [|exact Hx].
  destruct (mkdirp_sync H (w_fs w) _) as [fs1|]; step; [|discriminate].
  exists fs1. split; [reflexivity|exact Hx].
Qed.

Lemma entry_turn_throw (H : Host) (depth : nat) (srcDir baseDir destDir : string)
    (ctx : value) (item : string) (w w1 : world H) (e : string) :
  (st <- fs_statSync H (path_join H srcDir item) ;;
   if isDirectory st then
     mkdirp H (path_join H destDir
                 (Merged.substr (path_join H srcDir item) (String.length baseDir))) ;;;
     Merged.generateDir H depth (path_join H srcDir item) baseDir destDir ctx
   else Merged.processTemplateFile H (path_join H srcDir item)
          (path_join H destDir
             (Merged.substr (path_join H srcDir item) (String.length baseDir))) ctx) w
  = (Throw e, w1) ->
  entry_stops H depth srcDir baseDir destDir ctx item w e w1.
Proof.
  unfold entry_stops, destination. step.
  destruct (statSync H (w_fs w) (path_join H srcDir item)) as [st|e']; step.
  2: { intros E. inversion E; subst. left. auto. }
  intros Hx. right. exists st. split; [reflexivity|].
  destruct (isDirectory st); [|exact Hx].
  destruct (mkdirp_sync H (w_fs w) _) as [fs1|e']; step.
  - right. exists fs1. split; [reflexivity|exact Hx].
  - left. inversion Hx; subst. auto.
Qed.

(** [generateDir] takes the entries of the listing in order. *)
Lemma generateDir_walk (H : Host) (depth : nat) (srcDir baseDir destDir : string)
    (ctx : value) (items : list string) (w : world H) :
  readdirSync H (w_fs w) srcDir = Ok items ->
  walk_outcome H depth srcDir baseDir destDir ctx items w
    (Merged.generateDir H (S depth) srcDir baseDir destDir ctx w).
Proof.
  intros Hdir. unfold walk_outcome.
  assert (E : fs_readdirSync H srcDir w = (Ret items, w)).
  { unfold fs_readdirSync, fs_read. now rewrite Hdir. }
  pose proof (generateDir_never_exits H (S depth) srcDir baseDir destDir ctx w) as Hne.
  cbn [Merged.generateDir] in *.
  rewrite (bind_ret_eq _ _ _ _ _ E) in *.
  match goal with
  | |- context [Merged.forEach H items ?f w] =>
      pose proof (forEach_outcome H f items w) as Hout; cbv zeta in Hout;
      destruct (Merged.forEach H items f w) as [[[]|e|c] w1]
  end; cbn [fst snd] in *.
  - eapply turns_impl; [|exact Hout]. intros x w0 w'. apply entry_turn_ret.
  - destruct Hout as (done & x & rest & w' & -> & Hdone & Hx).
    exists done, x, rest, w'. split; [reflexivity|]. split.
    + eapply turns_impl; [|exact Hdone]. intros y w0 w''. apply entry_turn_ret.
    + now apply entry_turn_throw.
  - now apply (Hne w1 c).
Qed.

Lemma generateDir_listing_fails (H : Host) (depth : nat) (srcDir baseDir destDir : string)
    (ctx : value) (e : string) (w : world H) :
  readdirSync H (w_fs w) srcDir = Err e ->
  Merged.generateDir H (S depth) srcDir baseDir destDir ctx w = (Throw e, w).
Proof.
  intros Hdir. cbn [Merged.generateDir]. unfold bind, fs_readdirSync, fs_read.
  now rewrite Hdir.
Qed.

(** Batch mode creates the output directory and walks the source
    directory from there. *)
Lemma batch_mode_walk (H : Host) (depth : nat) (parameters : list (string * value))
    (srcInput dir : string) (ctx : value) (fs1 : fsys H) (w : world H) :
  JS.or (JS.assoc "outputDir" parameters) (JS.assoc "destination" parameters)
    = Some (VStr dir) ->
  mkdirp_sync H (w_fs w) dir = Ok fs1 ->
  Merged.batch_mode H depth parameters srcInput ctx w
  = (Merged.generateDir H depth srcInput srcInput dir ctx ;;;
     console_log H "Successfully processed directory ${srcInput}" [JS.str srcInput] ;;;
     if JS.truthy (JS.assoc "zip" parameters) then Merged.zipGenerated H dir else ret tt)
      (mkWorld fs1 (w_trace w ++ [MadeDir dir])).
Proof.
  intros Hout Hmk. unfold Merged.batch_mode. rewrite Hout. cbn [Merged.as_path lift].
  unfold bind at 1. cbn [ret]. unfold bind at 1. unfold mkdirp, fs_update.
  rewrite Hmk. reflexivity.
Qed.

(** ** C7 *)

(** C7.  [processTemplateFile] renders the template without options and
    then: for a source whose extension is [.script], changes to the
    destination's directory, executes the output as a shell command and
    changes back, writing nothing; for any other source, writes the output to
    the destination with the mode [fs.statSync] reported for the source.
    [generateDir] hands it every entry of the listing that is not a
    directory, in the order of the listing and each in the world the entries
    before it left, with the destination
    [path.join(destDir, srcPath.substr(baseDir.length))]; a directory it
    creates there and walks in the same way; it stops at the first entry that
    throws.  Batch mode is that walk of the source directory into the output
    directory it has created. *)
Theorem script_files_are_executed (H : Host) (ctx : value) :
  (forall src dest tpl out st w,
      statSync H (w_fs w) src = Ok st ->
      readFileSync H (w_fs w) src = Ok tpl ->
      Mark_up H tpl ctx None = Ok out ->
      let r := Merged.processTemplateFile H src dest ctx w in
      (path_extname H src = ".script" ->
         fst r = Ret tt /\
         w_trace (snd r)
           = (w_trace w ++ [Rendered tpl ctx None; Pushd (path_dirname H dest);
                            ShellExec out; Popd])%list /\
         w_fs (snd r)
           = shell_popd H (shell_exec H (shell_pushd H (w_fs w) (path_dirname H dest)) out)) /\
      (path_extname H src <> ".script" ->
         match writeFileSync H (w_fs w) dest out (Some (mode st)) with
         | Ok fs' =>
             fst r = Ret tt /\ w_fs (snd r) = fs' /\
             w_trace (snd r)
               = (w_trace w ++ [Rendered tpl ctx None; Wrote dest out (Some (mode st))])%list
         | Err e =>
             fst r = Throw e /\ w_fs (snd r) = w_fs w /\
             w_trace (snd r) = (w_trace w ++ [Rendered tpl ctx None])%list
         end)) /\
  (forall depth srcDir baseDir destDir items w,
      readdirSync H (w_fs w) srcDir = Ok items ->
      walk_outcome H depth srcDir baseDir destDir ctx items w
        (Merged.generateDir H (S depth) srcDir baseDir destDir ctx w)) /\
  (forall depth parameters srcInput dir fs1 w,
      JS.or (JS.assoc "outputDir" parameters) (JS.assoc "destination" parameters)
        = Some (VStr dir) ->
      mkdirp_sync H (w_fs w) dir = Ok fs1 ->
      Merged.batch_mode H depth parameters srcInput ctx w
      = (Merged.generateDir H depth srcInput srcInput dir ctx ;;;
         console_log H "Successfully processed directory ${srcInput}" [JS.str srcInput] ;;;
         if JS.truthy (JS.assoc "zip" parameters) then Merged.zipGenerated H dir else ret tt)
          (mkWorld fs1 (w_trace w ++ [MadeDir dir]))).
Proof.
  split; [|split].
  - intros src dest tpl out st w Hst Hr Hup r. subst r.
    unfold Merged.processTemplateFile, Merged.shell.
    step. rewrite Hst. step. rewrite Hr. step. rewrite Hup. step. split.
    + intros Hext. rewrite Hext. cbn [String.eqb Ascii.eqb Bool.eqb]. step.
      cbn [fst snd w_fs w_trace]. rewrite <- !app_assoc. auto.
    + intros Hext. apply String.eqb_neq in Hext. rewrite Hext. step.
      destruct (writeFileSync H (w_fs w) dest out (Some (mode st)));
        cbn [fst snd w_fs w_trace]; rewrite <- ?app_assoc; auto.
  - intros. now apply generateDir_walk.
  - intros. now apply batch_mode_walk.
Qed.

(** [site/run.script], and the walk of the directory [site], which holds
    a template, a script and a directory. *)
Lemma script_files_are_executed_witness :
  let w := @mkWorld Demo.h Demo.disk0 [] in
  let ctx := VObj [] in
  (statSync Demo.h Demo.disk0 "site/run.script" = Ok (mkStats true false 493) /\
   readFileSync Demo.h Demo.disk0 "site/run.script" = Ok "echo hi" /\
   Mark_up Demo.h "echo hi" ctx None = Ok "{{echo hi}}" /\
   path_extname Demo.h "site/run.script" = ".script") /\
  fst (Merged.processTemplateFile Demo.h "site/run.script" "out/run.script" ctx w) = Ret tt /\
  w_trace (snd (Merged.processTemplateFile Demo.h "site/run.script" "out/run.script" ctx w))
    = [Rendered "echo hi" ctx None; Pushd "out"; ShellExec "{{echo hi}}"; Popd] /\
  (readdirSync Demo.h Demo.disk0 "site" = Ok ["page.tpl"; "run.script"; "sub"] /\
   walk_outcome Demo.h 4 "site" "site" "out" ctx ["page.tpl"; "run.script"; "sub"] w
     (Merged.generateDir Demo.h 5 "site" "site" "out" ctx w)).
Proof.
  intros w ctx. split; [repeat split|].
  destruct (script_files_are_executed Demo.h ctx) as (Hfile & Hwalk & _).
  destruct (proj1 (Hfile "site/run.script" "out/run.script" "echo hi" "{{echo hi}}"
                     (mkStats true false 493) w eq_refl eq_refl eq_refl) eq_refl)
    as (Hret & Htrace & _).
  split; [exact Hret|]. split; [exact Htrace|]. split; [reflexivity|].
  exact (Hwalk 4%nat "site" "site" "out" ["page.tpl"; "run.script"; "sub"] w eq_refl).
Defined.

Example page_written_with_source_mode :
  w_trace (snd (Merged.processTemplateFile Demo.h "site/page.tpl" "out/page.tpl" (VObj [])
                  (@mkWorld Demo.h Demo.disk0 [])))
    = [Rendered "P" (VObj []) None; Wrote "out/page.tpl" "{{P}}" (Some 384)].
Proof. reflexivity. Qed.

(** The walk of [site]: the template is written with its mode 0600, the
    script is executed in [out], and the template of the directory [sub] is
    written below [out/sub]. *)
Example merged_walk_of_site :
  let w := @mkWorld Demo.h Demo.disk0 [] in
  let r := Merged.generateDir Demo.h 5 "site" "site" "out" (VObj []) w in
  fst r = Ret tt /\
  w_trace (snd r)
    = [Rendered "P" (VObj []) None; Wrote "out/page.tpl" "{{P}}" (Some 384);
       Rendered "echo hi" (VObj []) None; Pushd "out"; ShellExec "{{echo hi}}"; Popd;
       MadeDir "out/sub";
       Rendered "D" (VObj []) None; Wrote "out/sub/deep.tpl" "{{D}}" (Some 420)].
Proof. vm_compute. auto. Qed.

(** ** Exit codes *)

Lemma make_executable_returns (H : Host) (w : world H) :
  fst (make_executable H w) = Ret tt.
Proof.
  unfold make_executable. destruct (platform_win32 H); [reflexivity|].
  step. destruct (chmodSync_self H (w_fs w)); reflexivity.
Qed.

Lemma exit_code_make_executable (H : Host) (w : world H) :
  exit_code (make_executable H w) = 0.
Proof. unfold exit_code. now rewrite make_executable_returns. Qed.

(** The simple CLI ends with the status of the first failure. *)
Lemma simple_exit_code (H : Host) (argv : list string) (fs : fsys H)
    (info tpl : string) :
  let c := Simple.parse_args argv Simple.initial_cli in
  Simple.path_arg (Simple.cli_files c) 0 = Some (VStr info) ->
  Simple.path_arg (Simple.cli_files c) 1 = Some (VStr tpl) ->
  info <> "" -> tpl <> "" ->
  exit_code (Simple.run H argv fs)
    = simple_status (simple_failure H (Simple.cli_open c) (Simple.cli_close c) info tpl
                       (Simple.path_arg (Simple.cli_files c) 2) fs).
Proof.
  intros c Hinfo Htpl Hi Ht. unfold Simple.run, Simple.main. fold c.
  rewrite Hinfo, Htpl. cbn [JS.truthy].
  apply String.eqb_neq in Hi. apply String.eqb_neq in Ht. rewrite Hi, Ht.
  cbn [negb orb].
  unfold simple_failure, Simple.load_context, Simple.load_template, Simple.render,
    Simple.write_output, rbind.
  step.
  destruct (readFileSync H fs info) as [text|]; step; [|reflexivity].
  destruct (JSON_parse H text) as [doc|]; step; [|reflexivity].
  destruct (ensure_items doc) as [context|]; step; [|reflexivity].
  destruct (readFileSync H fs tpl) as [template|]; step; [|reflexivity].
  destruct (Mark_up H template context _) as [output|]; step; [|reflexivity].
  destruct (Simple.path_arg (Simple.cli_files c) 2) as [[| | |p| |]|]; step;
    try apply exit_code_make_executable.
  destruct (JS.truthy (Some (VStr p))); step; [|apply exit_code_make_executable].
  destruct (writeFileSync H fs p output None); step; [|reflexivity].
  apply exit_code_make_executable.
Qed.







(** [renderTemplate] ends by returning a boolean: a failure to read,
    render or write is caught. *)
Lemma enhanced_renderTemplate_returns (H : Host) (s : Enhanced.settings)
    (path out : string) (ctx : value) (openDel closeDel : jv) (o : options) (w : world H) :
  Enhanced.resolve_delimiters H s path openDel closeDel = Ok o ->
  exists b, fst (Enhanced.renderTemplate H s path out ctx openDel closeDel w) = Ret b.
Proof.
  intros Hres. unfold Enhanced.renderTemplate. rewrite Hres. step.
  host_cases; cbn [fst]; eauto.
Qed.

Lemma merged_renderTemplate_returns (H : Host) (s : Merged.settings)
    (path : string) (out : jv) (ctx : value) (openDel closeDel : jv) (o : options)
    (w : world H) :
  Merged.resolve_delimiters H s path openDel closeDel = Ok o ->
  exists b, fst (Merged.renderTemplate H s path out ctx openDel closeDel w) = Ret b.
Proof.
  intros Hres. unfold Merged.renderTemplate. rewrite Hres. step.
  host_cases; cbn [fst]; eauto.
Qed.

(** ** C3 *)




(** ** The enhanced CLI's directory mode *)

Lemma enhanced_resolve_total (H : Host) (s : Enhanced.settings)
    (files : jv) (path : string) (openDel closeDel : jv) :
  JS.get (Some (Enhanced.config s)) "files" = Ok files ->
  JS.truthy files = true ->
  exists o, Enhanced.resolve_delimiters H s path openDel closeDel = Ok o.
Proof.
  intros Hfiles Hfm. unfold Enhanced.resolve_delimiters, Delimiters.file_config.
  rewrite Hfiles. cbn [rbind].
  destruct (get_truthy files (path_basename H path) Hfm) as (entry & ->). cbn [rbind].
  assert (Ht : JS.truthy (JS.or entry (Some JS.empty_object)) = true).
  { unfold JS.or. destruct (JS.truthy entry) eqn:E; auto. }
  destruct (get_truthy _ "openDelimiter" Ht) as (fo & ->).
  destruct (get_truthy _ "closeDelimiter" Ht) as (fc & ->).
  cbn [rbind]. eauto.
Qed.










(** ** C4 *)




(** That run: the failure of [a.tpl] is reported, [b.tpl] is rendered
    and written, and the count is 1 of 2. *)
Example enhanced_directory_run :
  let s := Enhanced.mkSettings Enhanced.initial_config (JS.str "{{") (JS.str "}}") in
  let r := Enhanced.directory_mode Demo.h s "broken" "out" (VObj [])
             (@mkWorld Demo.h Demo.disk0 []) in
  fst r = Ret tt /\
  filter is_error_message (w_trace (snd r)) = [log_failed "broken/a.tpl" "Unmatched section a"] /\
  filter is_write (w_trace (snd r)) = [Wrote "out/b.tpl" "{{B}}" None] /\
  last (w_trace (snd r)) ChmodSelf = log_processed 1 2.
Proof. vm_compute. repeat split. Qed.

(** ** C5 *)

(** The simple CLI sends the output to standard output when it has no
    output path, and to the file when it has one. *)
Lemma simple_output_destination (H : Host) (output p : string) (w : world H) :
  Simple.write_output H None output w
    = (Ret tt, mkWorld (w_fs w) (w_trace w ++ [Stdout output])) /\
  (p <> "" ->
   forall fs', writeFileSync H (w_fs w) p output None = Ok fs' ->
   Simple.write_output H (JS.str p) output w
     = (Ret tt, mkWorld fs' (w_trace w ++ [Wrote p output None;
                                           ConsoleLog "Rendered output written to ${outPath}"
                                             [JS.str p]]))).
Proof.
  split; [reflexivity|]. intros Hp fs' Hw. unfold Simple.write_output, JS.str.
  cbn [JS.truthy]. apply String.eqb_neq in Hp. rewrite Hp. step. rewrite Hw. step.
  now rewrite <- app_assoc.
Qed.

(** The enhanced CLI without an output path calls [renderTemplate] with
    the path [stdout]: when the template renders and the file can be written,
    a file of that name is written. *)
Lemma enhanced_single_file_writes_stdout_file (H : Host) (s : Enhanced.settings)
    (tpl template output : string) (ctx : value) (o : options) (w : world H)
    (fs' : fsys H) :
  Enhanced.resolve_delimiters H s tpl (Enhanced.globalOpenDelimiter s)
    (Enhanced.globalCloseDelimiter s) = Ok o ->
  readFileSync H (w_fs w) tpl = Ok template ->
  Mark_up H template ctx (Some o) = Ok output ->
  existsSync H (w_fs w) (path_dirname H "stdout") = true ->
  writeFileSync H (w_fs w) "stdout" output None = Ok fs' ->
  In (Wrote "stdout" output None)
     (w_trace (snd (Enhanced.single_file_mode H s tpl (Some VNull) ctx w))).
Proof.
  intros Hres Hr Hup Hex Hw. unfold Enhanced.single_file_mode, Enhanced.renderTemplate.
  cbn [JS.or JS.truthy JS.str]. rewrite Hres. step. rewrite Hr. step. rewrite Hup. step.
  rewrite Hex. step. rewrite Hw. step.
  host_cases; cbn [snd w_trace]; rewrite <- ?app_assoc; apply in_or_app; right;
    simpl; tauto.
Qed.

(** C5, at the failing inputs.  The enhanced CLI run on [info.json] and
    [page.tpl] with no output path writes the rendered text to a file called
    [stdout], which did not exist, besides sending it to standard output.  The
    merged CLI run on the same template with no [--destination] (so that
    [minimist] supplies its default) writes the file [generated] and sends
    nothing to standard output. *)
Theorem no_output_path_still_writes_a_file :
  let enhanced := Enhanced.run Demo.h ["info.json"; "page.tpl"] Demo.disk0 in
  let merged :=
    Merged.run Demo.h 5
      (Merged.with_defaults [("configuration", VStr "info.json");
                             ("templates", VStr "page.tpl")])
      Demo.disk0 in
  Enhanced.outPath (Enhanced.parse_args ["info.json"; "page.tpl"] Enhanced.initial_args)
    = Some VNull /\
  existsSync Demo.h Demo.disk0 "stdout" = false /\
  fst enhanced = Ret tt /\
  filter is_write (w_trace (snd enhanced)) = [Wrote "stdout" "{{Hello}}" None] /\
  readFileSync Demo.h (w_fs (snd enhanced)) "stdout" = Ok "{{Hello}}" /\
  In (Stdout "{{Hello}}") (w_trace (snd enhanced)) /\
  fst merged = Ret tt /\
  filter is_write (w_trace (snd merged)) = [Wrote "generated" "{{Hello}}" None] /\
  (forall data, ~ In (Stdout data) (w_trace (snd merged))).
Proof.
  intros enhanced merged. repeat apply conj; try (vm_compute; reflexivity).
  - vm_compute. tauto.
  - intros data Hin. vm_compute in Hin.
    repeat (destruct Hin as [Hin|Hin]; [discriminate Hin|]). exact Hin.
Qed.

(** * Further properties *)

(** ** The simple CLI *)

Lemma simple_parse_args_positional (argv : list string) (c : Simple.cli) :
  no_simple_flag argv = true ->
  Simple.parse_args argv c
    = Simple.mkCli (Simple.cli_open c) (Simple.cli_close c) (Simple.cli_files c ++ argv).
Proof.
  revert c. induction argv as [|arg rest IH]; intros c Hno.
  - cbn. rewrite app_nil_r. now destruct c.
  - cbn in Hno. apply andb_prop in Hno as [Harg Hrest].
    unfold simple_flag in Harg. apply negb_true_iff in Harg.
    apply orb_false_iff in Harg as [Harg Hc2].
    apply orb_false_iff in Harg as [Harg Hc1].
    cbn [Simple.parse_args]. rewrite Harg. cbn [orb]. rewrite Hc1, Hc2. cbn [orb].
    rewrite (IH _ Hrest). cbn. now rewrite <- app_assoc.
Qed.

Lemma simple_parse_args_prefix (pre rest : list string) (c : Simple.cli) :
  no_simple_flag pre = true ->
  Simple.parse_args (pre ++ rest) c
    = Simple.parse_args rest
        (Simple.mkCli (Simple.cli_open c) (Simple.cli_close c) (Simple.cli_files c ++ pre)).
Proof.
  revert c. induction pre as [|arg pre IH]; intros c Hno.
  - cbn. rewrite app_nil_r. now destruct c.
  - cbn in Hno. apply andb_prop in Hno as [Harg Hrest].
    unfold simple_flag in Harg. apply negb_true_iff in Harg.
    apply orb_false_iff in Harg as [Harg Hc2].
    apply orb_false_iff in Harg as [Harg Hc1].
    cbn [Simple.parse_args app]. rewrite Harg. cbn [orb]. rewrite Hc1, Hc2. cbn [orb].
    rewrite (IH _ Hrest). cbn. now rewrite <- app_assoc.
Qed.

(** X1. The argument loop of the simple CLI. Arguments that are not delimiter
    flags are the file arguments, in their order. A delimiter flag takes the
    argument after it for its value, whatever that argument looks like, and
    the loop goes on after the value; a delimiter flag that is the last
    argument leaves its delimiter [undefined]. *)
Theorem simple_arguments_parsed (pre post : list string) (v : string) (c : Simple.cli) :
  no_simple_flag pre = true ->
  Simple.parse_args pre c
    = Simple.mkCli (Simple.cli_open c) (Simple.cli_close c) (Simple.cli_files c ++ pre) /\
  (forall flag, flag = "--openDelimiter" \/ flag = "-o" ->
     Simple.parse_args (pre ++ flag :: v :: post) c
       = Simple.parse_args post
           (Simple.mkCli (JS.str v) (Simple.cli_close c) (Simple.cli_files c ++ pre)) /\
     Simple.parse_args (pre ++ [flag]) c
       = Simple.mkCli undefined (Simple.cli_close c) (Simple.cli_files c ++ pre)) /\
  (forall flag, flag = "--closeDelimiter" \/ flag = "-c" ->
     Simple.parse_args (pre ++ flag :: v :: post) c
       = Simple.parse_args post
           (Simple.mkCli (Simple.cli_open c) (JS.str v) (Simple.cli_files c ++ pre)) /\
     Simple.parse_args (pre ++ [flag]) c
       = Simple.mkCli (Simple.cli_open c) undefined (Simple.cli_files c ++ pre)).
Proof.
  intros Hpre. split; [now apply simple_parse_args_positional|].
  split; intros flag [-> | ->]; rewrite !(simple_parse_args_prefix pre _ c Hpre);
    split; reflexivity.
Qed.

(** A flag whose value looks like a flag, and a flag that is the last
    argument. *)
Lemma simple_arguments_parsed_witness :
  no_simple_flag ["info.json"] = true /\
  Simple.parse_args ["info.json"; "-o"; "-c"; "page.tpl"] Simple.initial_cli
    = Simple.mkCli (JS.str "-c") (JS.str "}}") ["info.json"; "page.tpl"] /\
  Simple.parse_args ["info.json"; "--closeDelimiter"] Simple.initial_cli
    = Simple.mkCli (JS.str "{{") undefined ["info.json"].
Proof.
  split; [reflexivity|].
  destruct (simple_arguments_parsed ["info.json"] ["page.tpl"] "-c" Simple.initial_cli eq_refl)
    as (_ & Ho & Hc).
  split.
  - exact (proj1 (Ho "-o" (or_intror eq_refl))).
  - exact (proj2 (Hc "--closeDelimiter" (or_introl eq_refl))).
Defined.

Lemma path_arg_truthy (files : list string) (i : nat) :
  JS.truthy (Simple.path_arg files i) = true ->
  exists p, Simple.path_arg files i = Some (VStr p) /\ p <> "".
Proof.
  unfold Simple.path_arg. destruct (nth_error files i) as [p|]; [|discriminate].
  cbn. intros Hp. exists p. split; [reflexivity|].
  apply negb_true_iff in Hp. now apply String.eqb_neq.
Qed.

Lemma simple_status_not_one (f : option failure) : simple_status f <> 1.
Proof. destruct f as [[]|]; cbn; lia. Qed.

(** X2. The simple CLI prints its usage line and exits with 1, having read and
    written nothing, when the first or the second file argument is missing or
    empty; when both are given, the run neither ends with status 1 nor prints
    the usage line. *)
Theorem simple_usage_error (H : Host) (argv : list string) (fs : fsys H) :
  let c := Simple.parse_args argv Simple.initial_cli in
  let given := JS.truthy (Simple.path_arg (Simple.cli_files c) 0)
               && JS.truthy (Simple.path_arg (Simple.cli_files c) 1) in
  (given = false ->
     Simple.run H argv fs = (Exit 1, mkWorld fs [ConsoleError Simple.usage []])) /\
  (given = true ->
     exit_code (Simple.run H argv fs) <> 1 /\
     ~ In (ConsoleError Simple.usage []) (w_trace (snd (Simple.run H argv fs)))).
Proof.
  intros c given. subst given. split.
  - intros Hmissing. unfold Simple.run, Simple.main. fold c.
    unfold Simple.path_arg in *.
    destruct (nth_error (Simple.cli_files c) 0) as [info|]; [|reflexivity].
    destruct (nth_error (Simple.cli_files c) 1) as [tpl|]; [|reflexivity].
    cbn [option_map] in *.
    destruct (JS.truthy (Some (VStr info))), (JS.truthy (Some (VStr tpl)));
      try discriminate Hmissing; reflexivity.
  - intros Hgiven. apply andb_prop in Hgiven as [Hi Ht].
    destruct (path_arg_truthy _ _ Hi) as (info & Einfo & Hinfo).
    destruct (path_arg_truthy _ _ Ht) as (tpl & Etpl & Htpl).
    split.
    + rewrite (simple_exit_code H argv fs info tpl Einfo Etpl Hinfo Htpl).
      apply simple_status_not_one.
    + intros Hin.
      assert (Hall : appends_at (fun e => e <> ConsoleError Simple.usage [])
                       (Simple.main H argv) (mkWorld fs [])).
      { unfold Simple.main. fold c. rewrite Einfo in Hi. rewrite Etpl in Ht.
        rewrite Einfo, Etpl, Hi, Ht. cbn [negb orb].
        unfold Simple.load_context, Simple.load_template, Simple.render,
          Simple.write_output, fs_readFileSync, fs_writeFileSync, console_error,
          console_log, stdout_write.
        cbv beta.
        match goal with
        | |- appends_at ?P ?m ?w => enough (Hm : appends P m) by apply Hm
        end.
        appends_with ltac:(unfold Simple.usage; discriminate). }
      destruct (appends_at_in _ _ _ _ Hall Hin) as [[]|Hne]. now apply Hne.
Qed.

Ltac event_cases Hin :=
  repeat match type of Hin with
         | In _ (_ ++ _)%list => apply in_app_or in Hin as [Hin|Hin]
         | In _ (_ :: _) => destruct Hin as [Hin|Hin]
         | In _ [] => destruct Hin
         end.

(** X3. Whatever its arguments, a run of the simple CLI creates no directory,
    executes no command and asks for no archive; the only file it writes is
    the third file argument, with no explicit mode; it calls the engine at
    most once; and it makes the script executable only at the end of a run
    that completes, and never on Windows. *)
Theorem simple_run_effects (H : Host) (argv : list string) (fs : fsys H) :
  let c := Simple.parse_args argv Simple.initial_cli in
  let r := Simple.run H argv fs in
  Forall (simple_effect (Simple.path_arg (Simple.cli_files c) 2)) (w_trace (snd r)) /\
  (List.length (engine_calls (w_trace (snd r))) <= 1)%nat /\
  (In ChmodSelf (w_trace (snd r)) -> fst r = Ret tt /\ platform_win32 H = false).
Proof.
  intros c r. subst r. unfold Simple.run, Simple.main. fold c.
  destruct (Simple.path_arg (Simple.cli_files c) 0) as [[| | |info| |]|];
    try (cbn; split; [repeat constructor|split; [lia|intros [E|[]]; discriminate E]]).
  destruct (Simple.path_arg (Simple.cli_files c) 1) as [[| | |tpl| |]|];
    try (cbn; split; [repeat constructor|split; [lia|intros [E|[]]; discriminate E]]).
  destruct (negb (JS.truthy (Some (VStr info))) || negb (JS.truthy (Some (VStr tpl))));
    [cbn; split; [repeat constructor|split; [lia|intros [E|[]]; discriminate E]]|].
  unfold Simple.load_context, Simple.load_template, Simple.render, Simple.write_output,
    make_executable.
  destruct (Simple.path_arg (Simple.cli_files c) 2) as [[| | |out| |]|];
    [| | | destruct (JS.truthy (Some (VStr out))) | | |];
    destruct (platform_win32 H) eqn:Hwin; step;
    host_cases; cbn [fst snd w_trace app engine_calls List.length];
    (split; [repeat constructor|split; [lia|]]);
    intros Hin; event_cases Hin; try discriminate Hin; auto.
Qed.

(** X4. What a run of the simple CLI delivers. A run that completes has read
    the context document and the template that the first two file arguments
    name, normalised the context and rendered the template with the delimiters
    of the flags; with an output path it has written that output to the path,
    once, and standard output carries only the message that it did; without
    one (or with an empty one) it has written no file and standard output
    carries exactly the output. A run that does not complete writes no file
    and nothing on standard output: every diagnostic goes to standard error. *)
Theorem simple_run_output (H : Host) (argv : list string) (fs : fsys H) :
  let c := Simple.parse_args argv Simple.initial_cli in
  let outPath := Simple.path_arg (Simple.cli_files c) 2 in
  let r := Simple.run H argv fs in
  match fst r with
  | Ret _ =>
      exists info tpl text doc ctx template output,
        Simple.path_arg (Simple.cli_files c) 0 = Some (VStr info) /\
        Simple.path_arg (Simple.cli_files c) 1 = Some (VStr tpl) /\
        readFileSync H fs info = Ok text /\ JSON_parse H text = Ok doc /\
        ensure_items doc = Ok ctx /\
        readFileSync H fs tpl = Ok template /\
        Mark_up H template ctx (Some (mkOptions (Simple.cli_open c) (Simple.cli_close c)))
          = Ok output /\
        if JS.truthy outPath then
          exists p, outPath = Some (VStr p) /\
            filter is_write (w_trace (snd r)) = [Wrote p output None] /\
            filter to_stdout (w_trace (snd r)) = [simple_log_written outPath]
        else
          filter is_write (w_trace (snd r)) = [] /\
          filter to_stdout (w_trace (snd r)) = [Stdout output]
  | _ => filter is_write (w_trace (snd r)) = [] /\ filter to_stdout (w_trace (snd r)) = []
  end.
Proof.
  intros c outPath r. subst outPath r. unfold Simple.run, Simple.main, simple_log_written.
  fold c.
  destruct (Simple.path_arg (Simple.cli_files c) 0) as [[| | |info| |]|] eqn:E0;
    try (split; reflexivity).
  destruct (Simple.path_arg (Simple.cli_files c) 1) as [[| | |tpl| |]|] eqn:E1;
    try (split; reflexivity).
  destruct (negb (JS.truthy (Some (VStr info))) || negb (JS.truthy (Some (VStr tpl))));
    [split; reflexivity|].
  unfold Simple.load_context, Simple.load_template, Simple.render, Simple.write_output,
    make_executable.
  assert (Hout : Simple.path_arg (Simple.cli_files c) 2 = None \/
                 exists p, Simple.path_arg (Simple.cli_files c) 2 = Some (VStr p)).
  { unfold Simple.path_arg. destruct (nth_error (Simple.cli_files c) 2); cbn; eauto. }
  destruct Hout as [->|(out & ->)];
    [|destruct (JS.truthy (Some (VStr out))) eqn:Hout];
    destruct (platform_win32 H); step;
    host_cases; cbn [fst snd w_trace app filter is_write to_stdout];
    try (split; reflexivity);
    do 7 eexists; (repeat (split; [eassumption || reflexivity|]));
    eauto;
    match goal with
    | Hb : JS.truthy None = true |- _ => discriminate Hb
    end.
Qed.

(** That run: the text on standard output is the template between the
    delimiters of the flags. *)
Example simple_stdout_run :
  let r := Simple.run Demo.h ["-o"; "<%"; "info.json"; "-c"; "%>"; "page.tpl"] Demo.disk0 in
  fst r = Ret tt /\ filter to_stdout (w_trace (snd r)) = [Stdout "<%Hello%>"].
Proof. vm_compute. auto. Qed.

(** ** The [items] field once more *)

(** X5. The normalisation of [items] is idempotent: applied to a context it
    has produced, it returns that context; and a context whose [items] is an
    array already is returned as it is. *)
Theorem ensure_items_idempotent (context normalised : value) :
  ensure_items context = Ok normalised ->
  ensure_items normalised = Ok normalised /\
  (forall l pr, JS.get (Some context) "items" = Ok (Some (VArr l pr)) ->
                normalised = context).
Proof.
  intros He. split.
  - destruct context as [| b | n | s | l ps | ps].
    + discriminate He.
    + inversion He; subst. reflexivity.
    + inversion He; subst. reflexivity.
    + unfold ensure_items in *.
      rewrite get_string_name in * by (try reflexivity; discriminate).
      cbn in He. inversion He; subst.
      rewrite get_string_name by (try reflexivity; discriminate). reflexivity.
    + unfold ensure_items in *.
      rewrite get_array_name in He by (try reflexivity; discriminate).
      cbn [rbind] in He.
      destruct (JS.assoc "items" ps) as [it|] eqn:Hit.
      * destruct (JS.instanceof_Array (Some it)) eqn:Harr.
        -- inversion He; subst.
           rewrite get_array_name by (try reflexivity; discriminate).
           cbn [rbind]. rewrite Hit, Harr. reflexivity.
        -- cbn in He. inversion He; subst.
           rewrite get_array_name by (try reflexivity; discriminate).
           cbn [rbind]. rewrite assoc_set_same. reflexivity.
      * cbn in He. inversion He; subst.
        rewrite get_array_name by (try reflexivity; discriminate).
        cbn [rbind]. rewrite assoc_set_same. reflexivity.
    + destruct (ensure_items_object ps) as (ps' & l & pr & He' & Hitems & _).
      rewrite He in He'. inversion He'; subst.
      now apply ensure_items_keeps_array with (l := l) (pr := pr).
  - intros l pr Hget. unfold ensure_items in He. rewrite Hget in He.
    cbn in He. now inversion He.
Qed.

(** The context of [info.json]. *)
Lemma ensure_items_idempotent_witness :
  let context := VObj [("name", VStr "World"); ("items", VStr "a")] in
  let normalised := VObj [("name", VStr "World"); ("items", VArr [VStr "a"] [])] in
  ensure_items context = Ok normalised /\
  ensure_items normalised = Ok normalised /\
  (forall l pr, JS.get (Some context) "items" = Ok (Some (VArr l pr)) ->
                normalised = context).
Proof.
  intros context normalised. split; [reflexivity|].
  exact (ensure_items_idempotent context normalised eq_refl).
Defined.

(** ** Arguments of the enhanced CLI *)

Lemma flagged_none (arg : string) (v : jv) (a : Enhanced.args) :
  enhanced_flag arg = false -> Enhanced.flagged arg v a = None.
Proof.
  unfold enhanced_flag, Enhanced.flagged. intros Hno.
  apply orb_false_iff in Hno as [Hno Ed]. apply orb_false_iff in Hno as [Hno Et].
  apply orb_false_iff in Hno as [Hno Ec]. apply orb_false_iff in Hno as [Ef Eo].
  now rewrite Ef, Eo, Ec, Et, Ed.
Qed.

Lemma parse_args_positional_step (arg : string) (rest : list string) (a : Enhanced.args) :
  enhanced_flag arg = false ->
  Enhanced.parse_args (arg :: rest) a = Enhanced.parse_args rest (Enhanced.positional arg a).
Proof.
  intros Hno. cbn [Enhanced.parse_args]. now rewrite flagged_none.
Qed.

Lemma parse_args_slots_full (argv : list string) (a : Enhanced.args) :
  no_enhanced_flag argv = true ->
  JS.truthy (Enhanced.infoPath a) = true ->
  JS.truthy (Enhanced.templatePath a) = true ->
  JS.truthy (Enhanced.outPath a) = true ->
  Enhanced.parse_args argv a = a.
Proof.
  intros Hno Hi Ht Ho. induction argv as [|arg rest IH]; [reflexivity|].
  cbn in Hno. apply andb_prop in Hno as [Harg Hrest]. apply negb_true_iff in Harg.
  rewrite parse_args_positional_step by exact Harg.
  unfold Enhanced.positional. rewrite Hi, Ht, Ho. cbn [negb]. now apply IH.
Qed.

Lemma positional_fills (arg : string) (a : Enhanced.args) :
  Enhanced.positional arg a
  = if negb (JS.truthy (Enhanced.infoPath a)) then
      Enhanced.mkArgs (Enhanced.configPath a) (Enhanced.argOpenDelimiter a)
        (Enhanced.argCloseDelimiter a) (Enhanced.templateDir a) (Enhanced.outputDir a)
        (JS.str arg) (Enhanced.templatePath a) (Enhanced.outPath a)
        (Enhanced.isDirectoryMode a)
    else if negb (JS.truthy (Enhanced.templatePath a)) then
      Enhanced.mkArgs (Enhanced.configPath a) (Enhanced.argOpenDelimiter a)
        (Enhanced.argCloseDelimiter a) (Enhanced.templateDir a) (Enhanced.outputDir a)
        (Enhanced.infoPath a) (JS.str arg) (Enhanced.outPath a)
        (Enhanced.isDirectoryMode a)
    else if negb (JS.truthy (Enhanced.outPath a)) then
      Enhanced.mkArgs (Enhanced.configPath a) (Enhanced.argOpenDelimiter a)
        (Enhanced.argCloseDelimiter a) (Enhanced.templateDir a) (Enhanced.outputDir a)
        (Enhanced.infoPath a) (Enhanced.templatePath a) (JS.str arg)
        (Enhanced.isDirectoryMode a)
    else a.
Proof. reflexivity. Qed.

Lemma parse_args_positional (argv : list string) :
  no_enhanced_flag argv = true ->
  forallb (fun arg => negb (arg =? "")%string) (firstn 3 argv) = true ->
  Enhanced.parse_args argv Enhanced.initial_args
    = Enhanced.mkArgs (Some VNull) (JS.str "{{") (JS.str "}}") (Some VNull) (Some VNull)
        (positional_or_null argv 0) (positional_or_null argv 1) (positional_or_null argv 2)
        false.
Proof.
  intros Hno Hne.
  destruct argv as [|info argv]; [reflexivity|].
  cbn in Hno, Hne. apply andb_prop in Hno as [H1 Hno]. apply negb_true_iff in H1.
  apply andb_prop in Hne as [N1 Hne].
  assert (T1 : JS.truthy (JS.str info) = true) by exact N1.
  rewrite parse_args_positional_step by exact H1.
  rewrite positional_fills. cbn [Enhanced.initial_args Enhanced.infoPath JS.truthy negb
    Enhanced.configPath Enhanced.argOpenDelimiter Enhanced.argCloseDelimiter
    Enhanced.templateDir Enhanced.outputDir Enhanced.templatePath Enhanced.outPath
    Enhanced.isDirectoryMode].
  destruct argv as [|tpl argv]; [reflexivity|].
  cbn in Hno, Hne. apply andb_prop in Hno as [H2 Hno]. apply negb_true_iff in H2.
  apply andb_prop in Hne as [N2 Hne].
  assert (T2 : JS.truthy (JS.str tpl) = true) by exact N2.
  rewrite parse_args_positional_step by exact H2.
  rewrite positional_fills. cbn [Enhanced.infoPath Enhanced.templatePath Enhanced.outPath
    Enhanced.configPath Enhanced.argOpenDelimiter Enhanced.argCloseDelimiter
    Enhanced.templateDir Enhanced.outputDir Enhanced.isDirectoryMode].
  rewrite T1. cbn [negb JS.truthy].
  destruct argv as [|out argv]; [reflexivity|].
  cbn in Hno, Hne. apply andb_prop in Hno as [H3 Hno]. apply negb_true_iff in H3.
  apply andb_prop in Hne as [N3 _].
  assert (T3 : JS.truthy (JS.str out) = true) by exact N3.
  rewrite parse_args_positional_step by exact H3.
  rewrite positional_fills. cbn [Enhanced.infoPath Enhanced.templatePath Enhanced.outPath
    Enhanced.configPath Enhanced.argOpenDelimiter Enhanced.argCloseDelimiter
    Enhanced.templateDir Enhanced.outputDir Enhanced.isDirectoryMode].
  rewrite T1, T2. cbn [negb JS.truthy].
  apply parse_args_slots_full; [exact Hno|exact T1|exact T2|exact T3].
Qed.

(** X6. The enhanced CLI given no flag: the first three arguments, none of
    them empty, are the context document, the template and the output path;
    one that is missing stays [null]; every further argument is ignored; the
    delimiters are [{{] and [}}] and the mode is single-file. *)
Theorem enhanced_positional_arguments (argv : list string) :
  no_enhanced_flag argv = true ->
  forallb (fun arg => negb (arg =? "")%string) (firstn 3 argv) = true ->
  Enhanced.parse_args argv Enhanced.initial_args
    = Enhanced.mkArgs (Some VNull) (JS.str "{{") (JS.str "}}") (Some VNull) (Some VNull)
        (positional_or_null argv 0) (positional_or_null argv 1) (positional_or_null argv 2)
        false.
Proof. intros Hno Hne. now apply parse_args_positional. Qed.

(** Five arguments: the last two are ignored. *)
Lemma enhanced_positional_arguments_witness :
  let argv := ["info.json"; "page.tpl"; "out.txt"; "more"; "and more"] in
  (no_enhanced_flag argv = true /\
   forallb (fun arg => negb (arg =? "")%string) (firstn 3 argv) = true) /\
  Enhanced.parse_args argv Enhanced.initial_args
    = Enhanced.mkArgs (Some VNull) (JS.str "{{") (JS.str "}}") (Some VNull) (Some VNull)
        (JS.str "info.json") (JS.str "page.tpl") (JS.str "out.txt") false.
Proof.
  intros argv. split; [split; reflexivity|].
  exact (enhanced_positional_arguments argv eq_refl eq_refl).
Defined.

Lemma enhanced_usage_exit (H : Host) (argv : list string) (fs : fsys H) :
  let a := Enhanced.parse_args argv Enhanced.initial_args in
  enhanced_usage_ok a = false ->
  Enhanced.run H argv fs
    = (Exit 1, mkWorld fs [ConsoleError (if Enhanced.isDirectoryMode a
                                         then Enhanced.usage_directory
                                         else Enhanced.usage_single) []]).
Proof.
  intros a Hbad. unfold Enhanced.run, Enhanced.main. fold a.
  unfold enhanced_usage_ok in Hbad.
  destruct (Enhanced.isDirectoryMode a); cbn [negb andb] in *.
  - destruct (negb (JS.truthy (Enhanced.infoPath a)) || _ || _); [reflexivity|discriminate].
  - destruct (negb (JS.truthy (Enhanced.infoPath a)) || _); [reflexivity|discriminate].
Qed.

Lemma flagged_keeps_outputDir (arg : string) (v : jv) (a a' : Enhanced.args) :
  Enhanced.is_flag arg "--outputDir" "-d" = false ->
  Enhanced.flagged arg v a = Some a' ->
  Enhanced.outputDir a' = Enhanced.outputDir a.
Proof.
  unfold Enhanced.flagged. intros Hd. rewrite Hd.
  repeat match goal with
         | |- context [if ?b then _ else _] => destruct b
         end; intros E; inversion E; subst; reflexivity.
Qed.

Lemma flagged_keeps_mode (arg : string) (v : jv) (a a' : Enhanced.args) :
  Enhanced.flagged arg v a = Some a' ->
  Enhanced.isDirectoryMode a = true -> Enhanced.isDirectoryMode a' = true.
Proof.
  unfold Enhanced.flagged.
  repeat match goal with
         | |- context [if ?b then _ else _] => destruct b
         end; intros E; inversion E; subst; auto.
Qed.

Lemma positional_keeps_mode (arg : string) (a : Enhanced.args) :
  Enhanced.outputDir (Enhanced.positional arg a) = Enhanced.outputDir a /\
  Enhanced.isDirectoryMode (Enhanced.positional arg a) = Enhanced.isDirectoryMode a.
Proof.
  unfold Enhanced.positional.
  repeat match goal with
         | |- context [if ?b then _ else _] => destruct b
         end; auto.
Qed.

(** An induction principle that follows the loop: a flag takes the next
    argument with it. *)
Lemma parse_args_ind (P : list string -> Enhanced.args -> Enhanced.args -> Prop) :
  (forall a, P [] a a) ->
  (forall arg a a', Enhanced.flagged arg undefined a = Some a' -> P [arg] a a') ->
  (forall arg v rest a a' r,
      Enhanced.flagged arg (JS.str v) a = Some a' ->
      P rest a' r -> P (arg :: v :: rest) a r) ->
  (forall arg rest a r,
      (forall v, Enhanced.flagged arg v a = None) ->
      P rest (Enhanced.positional arg a) r -> P (arg :: rest) a r) ->
  forall argv a, P argv a (Enhanced.parse_args argv a).
Proof.
  intros Hnil Hlast Hflag Hpos argv.
  remember (List.length argv) as n eqn:Hn.
  assert (Hle : (List.length argv <= n)%nat) by lia. clear Hn.
  revert argv Hle. induction n as [|n IH]; intros argv Hle a.
  - destruct argv; [apply Hnil|simpl in Hle; lia].
  - destruct argv as [|arg rest]; [apply Hnil|].
    cbn [Enhanced.parse_args].
    destruct (Enhanced.flagged arg (Enhanced.value_of rest) a) as [a'|] eqn:Hf.
    + destruct rest as [|v rest'].
      * apply Hlast. exact Hf.
      * apply Hflag with (a' := a'); [exact Hf|]. apply IH. simpl in Hle. lia.
    + apply Hpos.
      * intros v. revert Hf. unfold Enhanced.flagged.
        repeat match goal with
               | |- context [if ?b then _ else _] => destruct b
               end; intros E; first [discriminate E | reflexivity].
      * apply IH. simpl in Hle. lia.
Qed.

Lemma parse_args_keeps_mode (argv : list string) (a : Enhanced.args) :
  Enhanced.isDirectoryMode a = true ->
  Enhanced.isDirectoryMode (Enhanced.parse_args argv a) = true.
Proof.
  apply (parse_args_ind (fun _ a r => Enhanced.isDirectoryMode a = true ->
                                     Enhanced.isDirectoryMode r = true)); auto.
  - intros arg a0 a' Hf. now apply flagged_keeps_mode with (1 := Hf).
  - intros arg v rest a0 a' r Hf IH Ha. apply IH. now apply flagged_keeps_mode with (1 := Hf).
  - intros arg rest a0 r _ IH Ha. apply IH.
    now rewrite (proj2 (positional_keeps_mode arg a0)).
Qed.

Lemma parse_args_keeps_outputDir (argv : list string) (a : Enhanced.args) :
  no_output_dir_flag argv = true ->
  Enhanced.outputDir (Enhanced.parse_args argv a) = Enhanced.outputDir a.
Proof.
  apply (parse_args_ind (fun argv a r => no_output_dir_flag argv = true ->
                                        Enhanced.outputDir r = Enhanced.outputDir a)); auto.
  - intros arg a0 a' Hf Hno. cbn in Hno. rewrite andb_true_r in Hno.
    apply negb_true_iff in Hno. now apply flagged_keeps_outputDir with (2 := Hf).
  - intros arg v rest a0 a' r Hf IH Hno. cbn in Hno.
    apply andb_prop in Hno as [Harg Hno]. apply andb_prop in Hno as [_ Hno].
    apply negb_true_iff in Harg.
    rewrite (IH Hno). now apply flagged_keeps_outputDir with (2 := Hf).
  - intros arg rest a0 r _ IH Hno. cbn in Hno. apply andb_prop in Hno as [_ Hno].
    rewrite (IH Hno). apply positional_keeps_mode.
Qed.

Lemma no_enhanced_flag_no_output_dir (argv : list string) :
  no_enhanced_flag argv = true -> no_output_dir_flag argv = true.
Proof.
  unfold no_enhanced_flag, no_output_dir_flag. rewrite !forallb_forall.
  intros Hno arg Hin. specialize (Hno arg Hin). apply negb_true_iff in Hno.
  apply negb_true_iff. unfold enhanced_flag in Hno.
  now apply orb_false_iff in Hno as [_ Hd].
Qed.

(** X7. Usage errors of the enhanced CLI. When the arguments fail the check of
    the mode they select, the run prints the usage line of that mode and exits
    with 1, having read and written nothing. In particular [--templateDir] (or
    [-t]) selects directory mode, which has no default output directory:
    without an [--outputDir] the run is refused whatever else is given; and
    without flags, fewer than two arguments are refused with the usage line of
    single-file mode. *)
Theorem enhanced_usage_errors (H : Host) (fs : fsys H) :
  (forall argv,
      let a := Enhanced.parse_args argv Enhanced.initial_args in
      enhanced_usage_ok a = false ->
      Enhanced.run H argv fs
        = (Exit 1, mkWorld fs [ConsoleError (if Enhanced.isDirectoryMode a
                                             then Enhanced.usage_directory
                                             else Enhanced.usage_single) []])) /\
  (forall pre flag post,
      no_enhanced_flag pre = true ->
      flag = "--templateDir" \/ flag = "-t" ->
      no_output_dir_flag post = true ->
      Enhanced.run H (pre ++ flag :: post) fs
        = (Exit 1, mkWorld fs [ConsoleError Enhanced.usage_directory []])) /\
  (forall argv,
      no_enhanced_flag argv = true -> (List.length argv < 2)%nat ->
      Enhanced.run H argv fs
        = (Exit 1, mkWorld fs [ConsoleError Enhanced.usage_single []])).
Proof.
  split; [intros argv a; now apply enhanced_usage_exit|]. split.
  - intros pre flag post Hpre Hflag Hpost.
    set (argv := (pre ++ flag :: post)%list).
    assert (Hmode : Enhanced.isDirectoryMode
                      (Enhanced.parse_args argv Enhanced.initial_args) = true).
    { subst argv. generalize Enhanced.initial_args as a.
      induction pre as [|arg pre IH]; intros a.
      - cbn [app Enhanced.parse_args].
        assert (exists a', Enhanced.flagged flag (Enhanced.value_of post) a = Some a' /\
                           Enhanced.isDirectoryMode a' = true) as (a' & -> & Ha').
        { destruct Hflag as [-> | ->]; cbn; eauto. }
        destruct post as [|v post']; [exact Ha'|]. now apply parse_args_keeps_mode.
      - cbn in Hpre. apply andb_prop in Hpre as [Harg Hpre]. apply negb_true_iff in Harg.
        cbn [app]. rewrite parse_args_positional_step by exact Harg. now apply IH. }
    assert (Hout : Enhanced.outputDir (Enhanced.parse_args argv Enhanced.initial_args)
                   = Some VNull).
    { rewrite parse_args_keeps_outputDir; [reflexivity|].
      subst argv. unfold no_output_dir_flag. rewrite forallb_app.
      apply andb_true_intro. split; [now apply no_enhanced_flag_no_output_dir|].
      cbn. apply andb_true_intro. split; [|exact Hpost].
      destruct Hflag as [-> | ->]; reflexivity. }
    rewrite enhanced_usage_exit.
    + now rewrite Hmode.
    + unfold enhanced_usage_ok. rewrite Hmode, Hout. cbn. now rewrite !orb_true_r.
  - intros argv Hno Hlen.
    assert (Hne : forallb (fun arg => negb (arg =? "")%string) (firstn 3 argv) = true
                  \/ exists rest, argv = "" :: rest).
    { destruct argv as [|x [|y argv]]; cbn in Hlen; try lia; cbn; auto.
      destruct (x =? "")%string eqn:E; cbn; auto.
      apply String.eqb_eq in E. subst. eauto. }
    destruct Hne as [Hne|(rest & ->)].
    + pose proof (parse_args_positional argv Hno Hne) as Ea.
      rewrite enhanced_usage_exit; rewrite ?Ea; cbn [Enhanced.isDirectoryMode];
        [reflexivity|].
      unfold enhanced_usage_ok. cbn [Enhanced.isDirectoryMode Enhanced.infoPath
        Enhanced.templatePath andb negb].
      destruct argv as [|x [|y argv]]; cbn in Hlen; try lia; cbn;
        now rewrite ?orb_true_r.
    + destruct rest; cbn in Hlen; try lia. reflexivity.
Qed.

(** Directory mode with an output directory given as a plain argument. *)
Lemma enhanced_usage_errors_witness :
  (no_enhanced_flag ["info.json"] = true /\ no_output_dir_flag ["site"; "out"] = true) /\
  Enhanced.run Demo.h ["info.json"; "-t"; "site"; "out"] Demo.disk0
    = (Exit 1, @mkWorld Demo.h Demo.disk0 [ConsoleError Enhanced.usage_directory []]).
Proof.
  split; [split; reflexivity|].
  exact (proj1 (proj2 (enhanced_usage_errors Demo.h Demo.disk0))
           ["info.json"] "-t" ["site"; "out"] eq_refl (or_intror eq_refl) eq_refl).
Defined.

(** ** The configuration inside the context document *)

Lemma extract_config_data (ps data : list (string * value)) (s s' : Enhanced.settings) :
  Enhanced.extract_config (VObj ps) s = Ok (VObj data, s') ->
  if JS.truthy (JS.assoc "templator-js" ps) then
    data = JS.assoc_del "templator-js" ps
  else if legacy_configuration ps then
    data = JS.assoc_del "files" (JS.assoc_del "options" ps)
  else data = ps /\ s' = s.
Proof.
  unfold Enhanced.extract_config, legacy_configuration. cbn [JS.get rbind].
  destruct (JS.truthy (JS.assoc "templator-js" ps)) eqn:Htj.
  - destruct (Delimiters.apply _ _) as [g|]; [|discriminate]. cbn [rbind].
    destruct (JS.get (JS.assoc "templator-js" ps) "files") as [f|]; [|discriminate].
    cbn [rbind].
    match goal with
    | |- rbind ?x _ = _ -> _ => destruct x as [c1|]; [|discriminate]
    end.
    cbn [rbind JS.delete]. intros E. now inversion E.
  - destruct (JS.and (JS.assoc "options" ps) (JS.assoc "files" ps)) as [f|] eqn:Hand.
    2: { cbn. intros E. inversion E. auto. }
    destruct (JS.truthy (Some f)) eqn:Hf.
    2: { intros E. inversion E. auto. }
    destruct (JS.get (JS.assoc "options" ps) "delimiters") as [d|]; [|discriminate].
    cbn [rbind].
    match goal with
    | |- rbind ?x _ = _ -> _ => destruct x as [g|]; [|discriminate]
    end.
    cbn [rbind].
    destruct (JS.set (Enhanced.config s) "files" f) as [c1|]; [|discriminate].
    cbn [rbind JS.delete]. intros E. now inversion E.
Qed.

(** X8. The configuration embedded in the context document of the enhanced CLI
    is not template data. In every call to the engine the context has no
    [templator-js] field (none that is truthy); when the document has no
    [templator-js] but both legacy keys, [options] and [files], the context
    has neither; and when the document has no embedded configuration the
    context is the normalised document. *)
Theorem embedded_configuration_is_not_data (H : Host) (fs : fsys H) (info doc : string)
    (ps : list (string * value)) (argv : list string) :
  Enhanced.infoPath (Enhanced.parse_args argv Enhanced.initial_args) = Some (VStr info) ->
  readFileSync H fs info = Ok doc ->
  JSON_parse H doc = Ok (VObj ps) ->
  forall t c o,
    In (Rendered t c o) (w_trace (snd (Enhanced.run H argv fs))) ->
    JS.truthy (field "templator-js" c) = false /\
    (JS.truthy (JS.assoc "templator-js" ps) = false -> legacy_configuration ps = true ->
     field "options" c = None /\ field "files" c = None) /\
    (JS.truthy (JS.assoc "templator-js" ps) = false -> legacy_configuration ps = false ->
     ensure_items (VObj ps) = Ok c).
Proof.
  intros Hinfo Hr Hp t c o Hin.
  destruct (enhanced_run_context H argv fs info doc ps Hinfo Hr Hp t c o Hin)
    as (s & data & s' & Hs & Hx & He).
  destruct (ensure_items_object data) as (ps' & l & pr & He' & _ & Hkeep).
  rewrite He in He'. inversion He'; subst c. cbn [field].
  pose proof (extract_config_data ps data s s' Hx) as Hdata.
  destruct (JS.truthy (JS.assoc "templator-js" ps)) eqn:Htj.
  - subst data. split.
    + rewrite Hkeep by discriminate. now rewrite assoc_del_same.
    + split; discriminate.
  - destruct (legacy_configuration ps) eqn:Hlegacy.
    + subst data. split.
      * rewrite Hkeep by discriminate.
        rewrite !assoc_del_other by discriminate. exact Htj.
      * split; [|discriminate]. intros _ _. rewrite !Hkeep by discriminate.
        split.
        -- rewrite assoc_del_other by discriminate. apply assoc_del_same.
        -- apply assoc_del_same.
    + destruct Hdata as [-> _]. split.
      * rewrite Hkeep by discriminate. exact Htj.
      * split; [discriminate|]. intros _ _. exact He.
Qed.

(** The enhanced CLI with [config2.json], a document that holds only a
    configuration, as its context document. *)
Lemma embedded_configuration_is_not_data_witness :
  let argv := ["config2.json"; "page.tpl"; "out/page.txt"] in
  let ps := [("templator-js",
              VObj [("options", VObj [("delimiters",
                      VObj [("open", VStr "[["); ("close", VStr "]]")])])])] in
  (Enhanced.infoPath (Enhanced.parse_args argv Enhanced.initial_args)
     = Some (VStr "config2.json") /\
   readFileSync Demo.h Demo.disk0 "config2.json" = Ok "{cfg2}" /\
   JSON_parse Demo.h "{cfg2}" = Ok (VObj ps)) /\
  forall t c o,
    In (Rendered t c o) (w_trace (snd (Enhanced.run Demo.h argv Demo.disk0))) ->
    JS.truthy (field "templator-js" c) = false /\
    (JS.truthy (JS.assoc "templator-js" ps) = false -> legacy_configuration ps = true ->
     field "options" c = None /\ field "files" c = None) /\
    (JS.truthy (JS.assoc "templator-js" ps) = false -> legacy_configuration ps = false ->
     ensure_items (VObj ps) = Ok c).
Proof.
  intros argv ps. split; [repeat split|].
  exact (embedded_configuration_is_not_data Demo.h Demo.disk0 "config2.json" "{cfg2}" ps argv
           eq_refl eq_refl eq_refl).
Defined.

(** That run: the engine is given the data without the configuration,
    and the delimiters the configuration names. *)
Example embedded_configuration_run :
  let r := Enhanced.run Demo.h ["config2.json"; "page.tpl"; "out/page.txt"] Demo.disk0 in
  fst r = Ret tt /\
  filter (fun e => match e with Rendered _ _ _ => true | _ => false end) (w_trace (snd r))
    = [Rendered "Hello" (VObj [("items", VArr [] [])])
         (Some (mkOptions (JS.str "[[") (JS.str "]]")))].
Proof. vm_compute. auto. Qed.

(** X9. The configuration embedded in the context document is applied over the
    settings the configuration file and the flags left: a delimiter it
    supplies becomes the global delimiter, and a [files] mapping it supplies
    replaces the [files] mapping of the configuration as a whole. A document
    with neither [templator-js] nor both legacy keys leaves the settings and
    the data as they were, so that legacy [options] without [files] are not
    applied. *)
Theorem embedded_configuration_overrides (ps : list (string * value))
    (s : Enhanced.settings) :
  Enhanced.config s <> VNull ->
  exists data s',
    Enhanced.extract_config (VObj ps) s = Ok (VObj data, s') /\
    (forall v, embedded_delimiter "open" ps = Some v -> JS.truthy (Some v) = true ->
               Enhanced.globalOpenDelimiter s' = Some v) /\
    (forall v, embedded_delimiter "close" ps = Some v -> JS.truthy (Some v) = true ->
               Enhanced.globalCloseDelimiter s' = Some v) /\
    (forall f cps, embedded_files ps = Some f -> JS.truthy (Some f) = true ->
                   Enhanced.config s = VObj cps ->
                   Enhanced.config s' = VObj (JS.assoc_set "files" f cps)) /\
    (embedded_root ps = None -> data = ps /\ s' = s).
Proof.
  intros Hs.
  destruct (extract_config_object ps s Hs) as (data & s' & Hx & _ & _).
  exists data, s'. split; [exact Hx|].
  revert Hx. unfold Enhanced.extract_config, embedded_delimiter, embedded_files,
    embedded_root, legacy_configuration.
  cbn [JS.get rbind].
  destruct (JS.truthy (JS.assoc "templator-js" ps)) eqn:Htj.
  - destruct (Delimiters.apply _ _) as [g|] eqn:Happly; [|discriminate]. cbn [rbind].
    destruct (JS.get (JS.assoc "templator-js" ps) "files") as [f|] eqn:Hfiles; [|discriminate].
    cbn [rbind].
    match goal with
    | |- rbind ?x _ = _ -> _ => destruct x as [c1|] eqn:Hset; [|discriminate]
    end.
    cbn [rbind JS.delete]. intros E. inversion E; subst data s'. clear E.
    cbn [Enhanced.globalOpenDelimiter Enhanced.globalCloseDelimiter Enhanced.config].
    assert (Hd : forall which v,
               match JS.assoc "templator-js" ps with
               | Some r =>
                   match field "options" r with
                   | Some o => match field "delimiters" o with
                               | Some d => field which d
                               | None => None
                               end
                   | None => None
                   end
               | None => None
               end = Some v ->
               exists rps ops dps,
                 JS.assoc "templator-js" ps = Some (VObj rps) /\
                 JS.assoc "options" rps = Some (VObj ops) /\
                 JS.assoc "delimiters" ops = Some (VObj dps) /\
                 JS.assoc which dps = Some v).
    { intros which v. destruct (JS.assoc "templator-js" ps) as [r|]; [|discriminate].
      destruct (field "options" r) as [o|] eqn:Ho; [|discriminate].
      destruct (field "delimiters" o) as [d|] eqn:Hd; [|discriminate].
      intros Hw.
      apply field_some in Ho as (rps & -> & Ho).
      apply field_some in Hd as (ops & -> & Hd).
      apply field_some in Hw as (dps & -> & Hw).
      exists rps, ops, dps. auto. }
    split; [|split; [|split]].
    + intros v Hv Ht. destruct (Hd _ _ Hv) as (rps & ops & dps & Er & Ho & Hdl & Hw).
      rewrite Er in Happly. rewrite (apply_object rps ops dps _ Ho Hdl) in Happly.
      inversion Happly; subst g. cbn [fst]. rewrite Hw. now apply override_supplied.
    + intros v Hv Ht. destruct (Hd _ _ Hv) as (rps & ops & dps & Er & Ho & Hdl & Hw).
      rewrite Er in Happly. rewrite (apply_object rps ops dps _ Ho Hdl) in Happly.
      inversion Happly; subst g. cbn [snd]. rewrite Hw. now apply override_supplied.
    + intros f0 cps Hf Ht Hc.
      destruct (JS.assoc "templator-js" ps) as [r|]; [|discriminate].
      apply field_some in Hf as (rps & -> & Hf). cbn [JS.get] in Hfiles.
      inversion Hfiles; subst f. rewrite Hf, Ht, Hc in Hset. cbn in Hset.
      now inversion Hset.
    + intros Hnone. rewrite Hnone in Htj. discriminate.
  - destruct (JS.and (JS.assoc "options" ps) (JS.assoc "files" ps)) as [f|] eqn:Hand.
    2: { cbn. intros E. inversion E; subst. repeat split; try discriminate; auto. }
    destruct (JS.truthy (Some f)) eqn:Hf.
    2: { intros E. inversion E; subst. repeat split; try discriminate; auto. }
    assert (Ho : JS.truthy (JS.assoc "options" ps) = true).
    { unfold JS.and in Hand. destruct (JS.truthy (JS.assoc "options" ps)) eqn:Ho; auto.
      rewrite Hand in Ho. congruence. }
    assert (Hfiles : JS.assoc "files" ps = Some f).
    { unfold JS.and in Hand. now rewrite Ho in Hand. }
    destruct (JS.get (JS.assoc "options" ps) "delimiters") as [d|] eqn:Hdel; [|discriminate].
    cbn [rbind].
    match goal with
    | |- rbind ?x _ = _ -> _ => destruct x as [g|] eqn:Hg; [|discriminate]
    end.
    cbn [rbind].
    destruct (JS.set (Enhanced.config s) "files" f) as [c1|] eqn:Hset; [|discriminate].
    cbn [rbind JS.delete]. intros E. inversion E; subst data s'. clear E.
    cbn [Enhanced.globalOpenDelimiter Enhanced.globalCloseDelimiter Enhanced.config field].
    assert (Hd : forall which v,
               match JS.assoc "options" ps with
               | Some o => match field "delimiters" o with
                           | Some d => field which d
                           | None => None
                           end
               | None => None
               end = Some v ->
               exists dps, d = Some (VObj dps) /\ JS.assoc which dps = Some v).
    { intros which v. destruct (JS.assoc "options" ps) as [o|]; [|discriminate].
      destruct (field "delimiters" o) as [d0|] eqn:Hd0; [|discriminate].
      intros Hw.
      apply field_some in Hd0 as (ops & -> & Hd0).
      apply field_some in Hw as (dps & -> & Hw).
      cbn [JS.get] in Hdel. inversion Hdel; subst d. eauto. }
    split; [|split; [|split]].
    + intros v Hv Ht. destruct (Hd _ _ Hv) as (dps & -> & Hw).
      cbn in Hg. inversion Hg; subst g. cbn [fst]. rewrite Hw.
      now apply override_supplied.
    + intros v Hv Ht. destruct (Hd _ _ Hv) as (dps & -> & Hw).
      cbn in Hg. inversion Hg; subst g. cbn [snd]. rewrite Hw.
      now apply override_supplied.
    + intros f0 cps Hf0 Ht Hc. rewrite Hfiles in Hf0. inversion Hf0; subst f0.
      rewrite Hc in Hset. cbn in Hset. now inversion Hset.
    + discriminate.
Qed.

(** A context document with both delimiters and a [files] mapping under
    [templator-js]. *)
Lemma embedded_configuration_overrides_witness :
  let ps := [("templator-js",
              VObj [("options", VObj [("delimiters",
                      VObj [("open", VStr "[["); ("close", VStr "]]")])]);
                    ("files", VObj [("page.tpl", VObj [("openDelimiter", VStr "<%")])])]);
             ("name", VStr "World")] in
  let s := Enhanced.mkSettings Enhanced.initial_config (JS.str "{{") (JS.str "}}") in
  Enhanced.config s <> VNull /\
  exists data s',
    Enhanced.extract_config (VObj ps) s = Ok (VObj data, s') /\
    (forall v, embedded_delimiter "open" ps = Some v -> JS.truthy (Some v) = true ->
               Enhanced.globalOpenDelimiter s' = Some v) /\
    (forall v, embedded_delimiter "close" ps = Some v -> JS.truthy (Some v) = true ->
               Enhanced.globalCloseDelimiter s' = Some v) /\
    (forall f cps, embedded_files ps = Some f -> JS.truthy (Some f) = true ->
                   Enhanced.config s = VObj cps ->
                   Enhanced.config s' = VObj (JS.assoc_set "files" f cps)) /\
    (embedded_root ps = None -> data = ps /\ s' = s).
Proof.
  intros ps s.
  assert (Hs : Enhanced.config s <> VNull) by discriminate.
  split; [exact Hs|]. exact (embedded_configuration_overrides ps s Hs).
Defined.

(** Legacy [options] without [files] are not taken for a configuration:
    they stay in the data and the delimiters stay as they were. *)
Example legacy_options_without_files :
  let doc := VObj [("options", VObj [("delimiters", VObj [("open", VStr "<%")])]);
                   ("name", VStr "World")] in
  let s := Enhanced.mkSettings Enhanced.initial_config (JS.str "{{") (JS.str "}}") in
  Enhanced.extract_config doc s = Ok (doc, s).
Proof. reflexivity. Qed.

(** ** Delimiters that a configuration leaves alone *)

Lemma override_kept_or_given (current candidate : jv) :
  kept_or_given current (Delimiters.override current candidate).
Proof.
  unfold kept_or_given, Delimiters.override.
  destruct (JS.truthy candidate) eqn:E; auto.
Qed.

Lemma apply_kept_or_given (c : jv) (g g' : jv * jv) :
  Delimiters.apply c g = Ok g' ->
  kept_or_given (fst g) (fst g') /\ kept_or_given (snd g) (snd g').
Proof.
  unfold Delimiters.apply.
  destruct (Delimiters.configured c) as [d|]; [|discriminate]. cbn [rbind].
  destruct (JS.truthy d).
  - destruct (JS.get d "open") as [o|]; [|discriminate].
    destruct (JS.get d "close") as [cl|]; [|discriminate].
    cbn [rbind]. intros E. inversion E; subst g'. cbn [fst snd].
    split; apply override_kept_or_given.
  - intros E. inversion E; subst g'. split; now left.
Qed.

Lemma enhanced_read_config_kept_or_given (obj : value) (s s' : Enhanced.settings) :
  Enhanced.read_config obj s = Ok s' ->
  kept_or_given (Enhanced.globalOpenDelimiter s) (Enhanced.globalOpenDelimiter s') /\
  kept_or_given (Enhanced.globalCloseDelimiter s) (Enhanced.globalCloseDelimiter s').
Proof.
  unfold Enhanced.read_config.
  destruct (JS.get (Some obj) "templator-js") as [tj|]; [|discriminate]. cbn [rbind].
  match goal with
  | |- rbind ?x _ = _ -> _ => destruct x as [files|]; [|discriminate]
  end.
  cbn [rbind].
  match goal with
  | |- rbind ?x _ = _ -> _ => destruct x as [config1|]; [|discriminate]
  end.
  cbn [rbind].
  destruct (Delimiters.apply _ _) as [g|] eqn:Happly; [|discriminate].
  cbn [rbind]. intros E. inversion E; subst s'.
  exact (apply_kept_or_given _ _ _ Happly).
Qed.

Lemma merged_read_config_kept_or_given (obj : value) (s s' : Merged.settings) :
  Merged.read_config obj s = Ok s' ->
  kept_or_given (Merged.globalOpen s) (Merged.globalOpen s') /\
  kept_or_given (Merged.globalClose s) (Merged.globalClose s').
Proof.
  unfold Merged.read_config.
  destruct (JS.get (Some obj) "templator-js") as [tj|]; [|discriminate]. cbn [rbind].
  match goal with
  | |- rbind ?x _ = _ -> _ => destruct x as [files|]; [|discriminate]
  end.
  cbn [rbind].
  match goal with
  | |- rbind ?x _ = _ -> _ => destruct x as [config1|]; [|discriminate]
  end.
  cbn [rbind].
  destruct (Delimiters.apply _ _) as [g|] eqn:Happly; [|discriminate].
  cbn [rbind]. intros E. inversion E; subst s'.
  exact (apply_kept_or_given _ _ _ Happly).
Qed.

Lemma extract_config_kept_or_given (jsonObj data : value) (s s' : Enhanced.settings) :
  Enhanced.extract_config jsonObj s = Ok (data, s') ->
  kept_or_given (Enhanced.globalOpenDelimiter s) (Enhanced.globalOpenDelimiter s') /\
  kept_or_given (Enhanced.globalCloseDelimiter s) (Enhanced.globalCloseDelimiter s').
Proof.
  unfold Enhanced.extract_config.
  destruct (JS.get (Some jsonObj) "templator-js") as [tj|]; [|discriminate]. cbn [rbind].
  destruct (JS.truthy tj).
  - destruct (Delimiters.apply _ _) as [g|] eqn:Happly; [|discriminate]. cbn [rbind].
    destruct (JS.get tj "files") as [f|]; [|discriminate]. cbn [rbind].
    match goal with
    | |- rbind ?x _ = _ -> _ => destruct x as [c1|]; [|discriminate]
    end.
    cbn [rbind]. destruct (JS.delete jsonObj "templator-js"); [|discriminate].
    cbn [rbind]. intros E. inversion E; subst.
    exact (apply_kept_or_given _ _ _ Happly).
  - destruct (JS.get (Some jsonObj) "options") as [opts|]; [|discriminate]. cbn [rbind].
    destruct (JS.get (Some jsonObj) "files") as [files|]; [|discriminate]. cbn [rbind].
    destruct (JS.and opts files) as [f|].
    2: { intros E. inversion E; subst. split; now left. }
    destruct (JS.truthy (Some f)).
    2: { intros E. inversion E; subst. split; now left. }
    destruct (JS.get opts "delimiters") as [d|]; [|discriminate]. cbn [rbind].
    assert (Hg : forall g,
               (if JS.truthy d
                then rbind (JS.get d "open") (fun o =>
                     rbind (JS.get d "close") (fun cl =>
                     Ok (Delimiters.override (Enhanced.globalOpenDelimiter s) o,
                         Delimiters.override (Enhanced.globalCloseDelimiter s) cl)))
                else Ok (Enhanced.globalOpenDelimiter s, Enhanced.globalCloseDelimiter s))
               = Ok g ->
               kept_or_given (Enhanced.globalOpenDelimiter s) (fst g) /\
               kept_or_given (Enhanced.globalCloseDelimiter s) (snd g)).
    { intros g. destruct (JS.truthy d).
      - destruct (JS.get d "open") as [o|]; [|discriminate].
        destruct (JS.get d "close") as [cl|]; [|discriminate].
        cbn [rbind]. intros E. inversion E; subst g. cbn [fst snd].
        split; apply override_kept_or_given.
      - intros E. inversion E; subst g. split; now left. }
    match goal with
    | |- rbind ?x _ = _ -> _ => destruct x as [g|] eqn:Eg; [|discriminate]
    end.
    cbn [rbind].
    destruct (JS.set (Enhanced.config s) "files" f); [|discriminate]. cbn [rbind].
    destruct (JS.delete jsonObj "options") as [j1|]; [|discriminate]. cbn [rbind].
    destruct (JS.delete j1 "files"); [|discriminate]. cbn [rbind].
    intros E. inversion E; subst. cbn [Enhanced.globalOpenDelimiter
      Enhanced.globalCloseDelimiter]. now apply Hg.
Qed.

(** X10. Loading a configuration never blanks a delimiter. After the
    configuration file (enhanced and merged CLI) and after the context
    document (enhanced CLI), each global delimiter is the one there was
    before, or a value that is given: an empty or missing [open] or [close] in
    a document is ignored. *)
Theorem configuration_cannot_blank_a_delimiter (H : Host) :
  (forall a s w s' w',
      Enhanced.load_config H a s w = (Ret s', w') ->
      kept_or_given (Enhanced.globalOpenDelimiter s) (Enhanced.globalOpenDelimiter s') /\
      kept_or_given (Enhanced.globalCloseDelimiter s) (Enhanced.globalCloseDelimiter s')) /\
  (forall info s w ctx s' w',
      Enhanced.load_context H info s w = (Ret (ctx, s'), w') ->
      kept_or_given (Enhanced.globalOpenDelimiter s) (Enhanced.globalOpenDelimiter s') /\
      kept_or_given (Enhanced.globalCloseDelimiter s) (Enhanced.globalCloseDelimiter s')) /\
  (forall parameters w s w',
      Merged.load_config H parameters w = (Ret s, w') ->
      let s0 := merged_initial_settings parameters in
      kept_or_given (Merged.globalOpen s0) (Merged.globalOpen s) /\
      kept_or_given (Merged.globalClose s0) (Merged.globalClose s)).
Proof.
  split; [|split].
  - intros a s w s' w'. unfold Enhanced.load_config.
    destruct (Enhanced.configPath a) as [[| | |p| |]|];
      try (intros E; inversion E; subst; split; now left).
    destruct (JS.truthy (Some (VStr p))); [|intros E; inversion E; subst; split; now left].
    step. destruct (readFileSync H (w_fs w) p) as [configData|]; [|discriminate].
    destruct (JSON_parse H configData) as [configObj|]; [|discriminate].
    destruct (Enhanced.read_config configObj s) as [s0|] eqn:Hrc; [|discriminate].
    intros E. inversion E; subst. now apply enhanced_read_config_kept_or_given with (1 := Hrc).
  - intros info s w ctx s' w'. unfold Enhanced.load_context. step.
    destruct (readFileSync H (w_fs w) info) as [jsonData|]; [|discriminate].
    destruct (JSON_parse H jsonData) as [jsonObj|]; [|discriminate].
    destruct (Enhanced.extract_config jsonObj s) as [[data s0]|] eqn:Hx; [|discriminate].
    destruct (ensure_items data) as [context|]; [|discriminate].
    intros E. inversion E; subst. now apply extract_config_kept_or_given with (1 := Hx).
  - intros parameters w s w' Hload s0. revert Hload. unfold Merged.load_config.
    fold (merged_initial_settings parameters). fold s0. cbv zeta.
    destruct (JS.truthy (JS.assoc "config" parameters));
      [|intros E; inversion E; subst; split; now left].
    step. destruct (Merged.as_path _) as [p|]; [|discriminate].
    destruct (readFileSync H (w_fs w) p) as [raw|]; [|discriminate].
    destruct (JSON_parse H raw) as [obj|]; [|discriminate].
    destruct (Merged.read_config obj s0) as [s1|] eqn:Hrc; [|discriminate].
    intros E. inversion E; subst. now apply merged_read_config_kept_or_given with (1 := Hrc).
Qed.

(** The enhanced CLI given an empty opening delimiter on the command
    line and a configuration that names both delimiters. *)
Lemma configuration_cannot_blank_a_delimiter_witness :
  let a := Enhanced.parse_args ["-f"; "config2.json"; "-o"; ""; "info.json"; "page.tpl"]
             Enhanced.initial_args in
  let s := enhanced_initial_settings a in
  let w := @mkWorld Demo.h Demo.disk0 [] in
  exists s',
    Enhanced.load_config Demo.h a s w = (Ret s', w) /\
    kept_or_given (Enhanced.globalOpenDelimiter s) (Enhanced.globalOpenDelimiter s') /\
    kept_or_given (Enhanced.globalCloseDelimiter s) (Enhanced.globalCloseDelimiter s').
Proof.
  intros a s w. eexists. split; [reflexivity|].
  exact (proj1 (configuration_cannot_blank_a_delimiter Demo.h) a s w _ w eq_refl).
Defined.

(** The enhanced CLI given an empty closing delimiter and no
    configuration: the engine is called with it. *)
Example enhanced_empty_delimiter_run :
  engine_calls
    (w_trace (snd (Enhanced.run Demo.h ["-c"; ""; "info.json"; "page.tpl"; "out/page.txt"]
                     Demo.disk0)))
  = [Some (mkOptions (JS.str "{{") (JS.str ""))].
Proof. reflexivity. Qed.

(** ** The [files] mapping *)

Lemma primitive_has_no_files (v : value) :
  is_primitive v = true -> JS.get (Some v) "files" = Ok None.
Proof.
  destruct v; try discriminate; intros _; try reflexivity.
  apply get_string_name; [reflexivity|discriminate].
Qed.

Lemma set_files (v x v' : value) :
  is_primitive v = false -> JS.truthy (Some x) = true ->
  JS.set v "files" x = Ok v' ->
  has_files v' /\ is_primitive v' = false.
Proof.
  intros Hv Hx. destruct v; try discriminate; cbn [JS.set]; intros E; inversion E; subst v'.
  - split; [|reflexivity]. exists (Some x).
    rewrite get_array_name by (try reflexivity; discriminate).
    now rewrite assoc_set_same.
  - split; [|reflexivity]. exists (Some x). cbn [JS.get]. now rewrite assoc_set_same.
Qed.

Lemma set_files_primitive (v x v' : value) :
  is_primitive v = true -> JS.set v "files" x = Ok v' -> v' = v.
Proof. destruct v; try discriminate; intros _ E; now inversion E. Qed.

Lemma enhanced_no_files_no_render (H : Host) (s : Enhanced.settings) (path : string)
    (openDel closeDel : jv) :
  is_primitive (Enhanced.config s) = true ->
  Enhanced.resolve_delimiters H s path openDel closeDel
    = Err "Cannot read properties of undefined".
Proof.
  intros Hp. unfold Enhanced.resolve_delimiters.
  now rewrite (primitive_has_no_files _ Hp).
Qed.

Lemma merged_no_files_no_render (H : Host) (s : Merged.settings) (path : string)
    (openDel closeDel : jv) :
  is_primitive (Merged.tplConfig s) = true ->
  Merged.resolve_delimiters H s path openDel closeDel
    = Err "Cannot read properties of undefined".
Proof.
  intros Hp. unfold Merged.resolve_delimiters.
  now rewrite (primitive_has_no_files _ Hp).
Qed.

Lemma enhanced_read_config_files (obj : value) (s s' : Enhanced.settings) :
  Enhanced.read_config obj s = Ok s' ->
  if is_primitive (Enhanced.config s') then True else has_files (Enhanced.config s').
Proof.
  unfold Enhanced.read_config.
  destruct (JS.get (Some obj) "templator-js") as [tj|]; [|discriminate]. cbn [rbind].
  set (config0 := match tj with
                  | Some c => if JS.truthy tj then c else obj
                  | None => obj
                  end).
  destruct (JS.get (Some config0) "files") as [files|] eqn:Hfiles; [|discriminate].
  cbn [rbind].
  destruct (is_primitive config0) eqn:Hprim.
  - assert (E1 : forall c1, (if negb (JS.truthy files)
                             then JS.set config0 "files" JS.empty_object
                             else Ok config0) = Ok c1 -> c1 = config0).
    { intros c1. destruct (negb (JS.truthy files)).
      - now apply set_files_primitive.
      - intros E. now inversion E. }
    match goal with
    | |- rbind ?x _ = _ -> _ => destruct x as [config1|] eqn:Hc1; [|discriminate]
    end.
    specialize (E1 config1 eq_refl). subst config1. cbn [rbind].
    destruct (Delimiters.apply _ _); [|discriminate]. cbn [rbind].
    intros E. inversion E; subst s'. cbn [Enhanced.config]. now rewrite Hprim.
  - destruct (JS.truthy files) eqn:Ht; cbn [negb].
    + cbn [rbind]. destruct (Delimiters.apply _ _); [|discriminate]. cbn [rbind].
      intros E. inversion E; subst s'. cbn [Enhanced.config]. rewrite Hprim.
      exists files. auto.
    + destruct (JS.set config0 "files" JS.empty_object) as [config1|] eqn:Hset;
        [|discriminate].
      destruct (set_files config0 JS.empty_object config1 Hprim eq_refl Hset) as [Hf Hp].
      cbn [rbind]. destruct (Delimiters.apply _ _); [|discriminate]. cbn [rbind].
      intros E. inversion E; subst s'. cbn [Enhanced.config]. now rewrite Hp.
Qed.

Lemma merged_read_config_files (obj : value) (s s' : Merged.settings) :
  Merged.read_config obj s = Ok s' ->
  if is_primitive (Merged.tplConfig s') then True else has_files (Merged.tplConfig s').
Proof.
  unfold Merged.read_config.
  destruct (JS.get (Some obj) "templator-js") as [tj|]; [|discriminate]. cbn [rbind].
  set (config0 := match JS.or tj (Some obj) with
                  | Some c => c
                  | None => obj
                  end).
  destruct (JS.get (Some config0) "files") as [files|] eqn:Hfiles; [|discriminate].
  cbn [rbind].
  assert (exists f, JS.or files (Some JS.empty_object) = Some f /\ JS.truthy (Some f) = true)
    as (f & -> & Hf).
  { unfold JS.or. destruct (JS.truthy files) eqn:Ht.
    - destruct files as [f|]; [eauto|discriminate].
    - eauto. }
  destruct (JS.set config0 "files" f) as [config1|] eqn:Hset; [|discriminate].
  cbn [rbind]. destruct (Delimiters.apply _ _); [|discriminate]. cbn [rbind].
  intros E. inversion E; subst s'. cbn [Merged.tplConfig].
  destruct (is_primitive config0) eqn:Hprim.
  - rewrite (set_files_primitive _ _ _ Hprim Hset). now rewrite Hprim.
  - destruct (set_files config0 f config1 Hprim Hf Hset) as [Hfs Hp]. now rewrite Hp.
Qed.

Lemma extract_config_files (jsonObj data : value) (s s' : Enhanced.settings) :
  Enhanced.extract_config jsonObj s = Ok (data, s') ->
  is_primitive (Enhanced.config s) = false ->
  has_files (Enhanced.config s) ->
  is_primitive (Enhanced.config s') = false /\ has_files (Enhanced.config s').
Proof.
  intros Hx Hprim Hfiles. revert Hx. unfold Enhanced.extract_config.
  destruct (JS.get (Some jsonObj) "templator-js") as [tj|]; [|discriminate]. cbn [rbind].
  destruct (JS.truthy tj).
  - destruct (Delimiters.apply _ _) as [g|]; [|discriminate]. cbn [rbind].
    destruct (JS.get tj "files") as [f|]; [|discriminate]. cbn [rbind].
    match goal with
    | |- rbind ?x _ = _ -> _ => destruct x as [c1|] eqn:Hc1; [|discriminate]
    end.
    cbn [rbind]. destruct (JS.delete jsonObj "templator-js"); [|discriminate].
    cbn [rbind]. intros E. inversion E; subst. cbn [Enhanced.config].
    destruct f as [f0|]; [|inversion Hc1; subst; auto].
    destruct (JS.truthy (Some f0)) eqn:Hf0; [|inversion Hc1; subst; auto].
    destruct (set_files _ _ _ Hprim Hf0 Hc1); auto.
  - destruct (JS.get (Some jsonObj) "options") as [opts|]; [|discriminate]. cbn [rbind].
    destruct (JS.get (Some jsonObj) "files") as [files|]; [|discriminate]. cbn [rbind].
    destruct (JS.and opts files) as [f|].
    2: { intros E. inversion E; subst. auto. }
    destruct (JS.truthy (Some f)) eqn:Hf.
    2: { intros E. inversion E; subst. auto. }
    destruct (JS.get opts "delimiters") as [d|]; [|discriminate]. cbn [rbind].
    match goal with
    | |- rbind ?x _ = _ -> _ => destruct x as [g|]; [|discriminate]
    end.
    cbn [rbind].
    destruct (JS.set (Enhanced.config s) "files" f) as [c1|] eqn:Hset; [|discriminate].
    cbn [rbind].
    destruct (JS.delete jsonObj "options") as [j1|]; [|discriminate]. cbn [rbind].
    destruct (JS.delete j1 "files"); [|discriminate]. cbn [rbind].
    intros E. inversion E; subst. cbn [Enhanced.config].
    destruct (set_files _ _ _ Hprim Hf Hset); auto.
Qed.

Lemma merged_resolve_total (H : Host) (s : Merged.settings) (path : string)
    (openDel closeDel : jv) :
  has_files (Merged.tplConfig s) ->
  exists o, Merged.resolve_delimiters H s path openDel closeDel = Ok o.
Proof.
  intros (files & Hfiles & Hfm). unfold Merged.resolve_delimiters, Delimiters.file_config.
  rewrite Hfiles. cbn [rbind].
  destruct (get_truthy files (path_basename H path) Hfm) as (entry & ->). cbn [rbind].
  assert (Ht : JS.truthy (JS.or entry (Some JS.empty_object)) = true).
  { unfold JS.or. destruct (JS.truthy entry) eqn:E; auto. }
  destruct (get_truthy _ "openDelimiter" Ht) as (fo & ->).
  destruct (get_truthy _ "closeDelimiter" Ht) as (fc & ->).
  cbn [rbind]. eauto.
Qed.

(** X11. The [files] mapping after loading. The built-in configuration has
    one. Once a configuration document is read, either the configuration is an
    object or an array whose [files] can be indexed (the empty object when the
    document gives none), and resolving the delimiters of any template
    succeeds; or the document was a bare boolean, number or string, on which
    the assignment of [files] is dropped, and resolving the delimiters of any
    template throws. The configuration embedded in a context document keeps a
    [files] mapping that can be indexed. *)
Theorem files_mapping_after_loading (H : Host) :
  (forall obj s s',
      Enhanced.read_config obj s = Ok s' ->
      if is_primitive (Enhanced.config s') then
        forall path openDel closeDel,
          Enhanced.resolve_delimiters H s' path openDel closeDel
            = Err "Cannot read properties of undefined"
      else
        has_files (Enhanced.config s') /\
        forall path openDel closeDel,
          exists o, Enhanced.resolve_delimiters H s' path openDel closeDel = Ok o) /\
  (forall obj s s',
      Merged.read_config obj s = Ok s' ->
      if is_primitive (Merged.tplConfig s') then
        forall path openDel closeDel,
          Merged.resolve_delimiters H s' path openDel closeDel
            = Err "Cannot read properties of undefined"
      else
        has_files (Merged.tplConfig s') /\
        forall path openDel closeDel,
          exists o, Merged.resolve_delimiters H s' path openDel closeDel = Ok o) /\
  (forall jsonObj data s s',
      Enhanced.extract_config jsonObj s = Ok (data, s') ->
      is_primitive (Enhanced.config s) = false ->
      has_files (Enhanced.config s) ->
      is_primitive (Enhanced.config s') = false /\ has_files (Enhanced.config s')) /\
  has_files Enhanced.initial_config.
Proof.
  split; [|split; [|split]].
  - intros obj s s' Hrc. pose proof (enhanced_read_config_files obj s s' Hrc) as Hf.
    destruct (is_primitive (Enhanced.config s')) eqn:Hp.
    + intros. now apply enhanced_no_files_no_render.
    + split; [exact Hf|]. destruct Hf as (fm & Hfm & Ht). intros.
      now apply enhanced_resolve_total with (files := fm).
  - intros obj s s' Hrc. pose proof (merged_read_config_files obj s s' Hrc) as Hf.
    destruct (is_primitive (Merged.tplConfig s')) eqn:Hp.
    + intros. now apply merged_no_files_no_render.
    + split; [exact Hf|]. intros. now apply merged_resolve_total.
  - intros. now apply extract_config_files with (jsonObj := jsonObj) (data := data) (s := s).
  - exists (Some JS.empty_object). split; reflexivity.
Qed.

(** A configuration document with no [files], and one that is a number. *)
Lemma files_mapping_after_loading_witness :
  let s := Enhanced.mkSettings Enhanced.initial_config (JS.str "{{") (JS.str "}}") in
  exists s1 s2,
    Enhanced.read_config (VObj [("options", VObj [])]) s = Ok s1 /\
    Enhanced.read_config (VNum 42) s = Ok s2 /\
    (if is_primitive (Enhanced.config s1) then
       forall path openDel closeDel,
         Enhanced.resolve_delimiters Demo.h s1 path openDel closeDel
           = Err "Cannot read properties of undefined"
     else
       has_files (Enhanced.config s1) /\
       forall path openDel closeDel,
         exists o, Enhanced.resolve_delimiters Demo.h s1 path openDel closeDel = Ok o) /\
    (if is_primitive (Enhanced.config s2) then
       forall path openDel closeDel,
         Enhanced.resolve_delimiters Demo.h s2 path openDel closeDel
           = Err "Cannot read properties of undefined"
     else
       has_files (Enhanced.config s2) /\
       forall path openDel closeDel,
         exists o, Enhanced.resolve_delimiters Demo.h s2 path openDel closeDel = Ok o).
Proof.
  intros s. eexists. eexists. split; [reflexivity|]. split; [reflexivity|]. split.
  - exact (proj1 (files_mapping_after_loading Demo.h) (VObj [("options", VObj [])]) s _
             eq_refl).
  - exact (proj1 (files_mapping_after_loading Demo.h) (VNum 42) s _ eq_refl).
Defined.

(** ** [renderTemplate] and single-file mode of the enhanced CLI *)

(** X12. [renderTemplate] of the enhanced CLI on a template that renders: when
    the directory of the output path exists, it writes the output and reports
    it; when the directory does not exist, it creates it first; and when the
    directory cannot be created, it reports the error, returns [false] and
    leaves the file system as it was. *)
Theorem renderTemplate_makes_the_output_directory (H : Host) (s : Enhanced.settings)
    (path out tpl output : string) (ctx : value) (openDel closeDel : jv) (o : options)
    (w : world H) :
  Enhanced.resolve_delimiters H s path openDel closeDel = Ok o ->
  readFileSync H (w_fs w) path = Ok tpl ->
  Mark_up H tpl ctx (Some o) = Ok output ->
  let dir := path_dirname H out in
  let r := Enhanced.renderTemplate H s path out ctx openDel closeDel w in
  let rendered := [log_rendering path o; Rendered tpl ctx (Some o)] in
  (existsSync H (w_fs w) dir = true ->
   forall fs', writeFileSync H (w_fs w) out output None = Ok fs' ->
     r = (Ret true,
          mkWorld fs' (w_trace w ++ rendered ++ [Wrote out output None; log_written out]))) /\
  (existsSync H (w_fs w) dir = false ->
   forall fs1 fs2,
     mkdirSync_recursive H (w_fs w) dir = Ok fs1 ->
     writeFileSync H fs1 out output None = Ok fs2 ->
     r = (Ret true,
          mkWorld fs2 (w_trace w ++ rendered ++
                       [MadeDir dir; Wrote out output None; log_written out]))) /\
  (existsSync H (w_fs w) dir = false ->
   forall e, mkdirSync_recursive H (w_fs w) dir = Err e ->
     r = (Ret false, mkWorld (w_fs w) (w_trace w ++ rendered ++ [log_failed path e]))).
Proof.
  intros Hres Hr Hup dir r rendered. subst dir r rendered.
  unfold Enhanced.renderTemplate, log_rendering, log_written, log_failed.
  rewrite Hres. step. rewrite Hr. step. rewrite Hup. step.
  split; [|split].
  - intros Hex fs' Hw. rewrite Hex. step. rewrite Hw. step.
    now rewrite <- !app_assoc.
  - intros Hex fs1 fs2 Hmk Hw. rewrite Hex. step. rewrite Hmk. step. rewrite Hw. step.
    now rewrite <- !app_assoc.
  - intros Hex e Hmk. rewrite Hex. step. rewrite Hmk. step.
    now rewrite <- !app_assoc.
Qed.

(** [page.tpl] rendered to [new/page.txt], in a directory that does not exist. *)
Lemma renderTemplate_makes_the_output_directory_witness :
  let s := Enhanced.mkSettings Enhanced.initial_config (JS.str "{{") (JS.str "}}") in
  let o := mkOptions (JS.str "{{") (JS.str "}}") in
  let w := @mkWorld Demo.h Demo.disk0 [] in
  let r := Enhanced.renderTemplate Demo.h s "page.tpl" "new/page.txt" (VObj [])
             (JS.str "{{") (JS.str "}}") w in
  let rendered := [log_rendering "page.tpl" o; Rendered "Hello" (VObj []) (Some o)] in
  (Enhanced.resolve_delimiters Demo.h s "page.tpl" (JS.str "{{") (JS.str "}}") = Ok o /\
   readFileSync Demo.h Demo.disk0 "page.tpl" = Ok "Hello" /\
   Mark_up Demo.h "Hello" (VObj []) (Some o) = Ok "{{Hello}}") /\
  (existsSync Demo.h Demo.disk0 "new" = true ->
   forall fs', writeFileSync Demo.h Demo.disk0 "new/page.txt" "{{Hello}}" None = Ok fs' ->
     r = (Ret true,
          @mkWorld Demo.h fs' ([] ++ rendered ++ [Wrote "new/page.txt" "{{Hello}}" None;
                                          log_written "new/page.txt"]))) /\
  (existsSync Demo.h Demo.disk0 "new" = false ->
   forall fs1 fs2,
     mkdirSync_recursive Demo.h Demo.disk0 "new" = Ok fs1 ->
     writeFileSync Demo.h fs1 "new/page.txt" "{{Hello}}" None = Ok fs2 ->
     r = (Ret true,
          @mkWorld Demo.h fs2 ([] ++ rendered ++
                       [MadeDir "new"; Wrote "new/page.txt" "{{Hello}}" None;
                        log_written "new/page.txt"]))) /\
  (existsSync Demo.h Demo.disk0 "new" = false ->
   forall e, mkdirSync_recursive Demo.h Demo.disk0 "new" = Err e ->
     r = (Ret false, @mkWorld Demo.h Demo.disk0 ([] ++ rendered ++ [log_failed "page.tpl" e]))).
Proof.
  intros s o w r rendered. split; [repeat split|].
  exact (renderTemplate_makes_the_output_directory Demo.h s "page.tpl" "new/page.txt"
           "Hello" "{{Hello}}" (VObj []) (JS.str "{{") (JS.str "}}") o w
           eq_refl eq_refl eq_refl).
Defined.

Lemma exit_code_then_make_executable (H : Host) {A} (m : M H A) (w : world H) :
  exit_code ((m ;;; make_executable H) w)
  = match fst (m w) with
    | Ret _ => 0
    | Throw _ => 1
    | Exit c => c
    end.
Proof.
  unfold bind. destruct (m w) as [[a|e|c] w1]; cbn [fst]; try reflexivity.
  apply exit_code_make_executable.
Qed.

(** X13. The exit status of single-file mode once the settings are loaded.
    [renderTemplate] looks up the file's entry in the [files] mapping before
    its [try]: when that lookup throws, the process dies of the exception with
    status 1; it throws when the configuration is a bare boolean, number or
    string, and not when the configuration has a [files] mapping that can be
    indexed. When the lookup succeeds, the enhanced CLI with an output path
    ends with 0 whatever happened to the template, and so does the merged CLI
    with or without one. Without an output path the enhanced CLI renders a
    second time, outside any [try]: it ends with 0 when the template can be
    read again and rendered with the global pair, and with 1 when it cannot. *)
Theorem exit_status_after_a_failed_render (H : Host) :
  (forall s tpl out ctx w,
      JS.truthy out = true ->
      exit_code ((Enhanced.single_file_mode H s tpl out ctx ;;; make_executable H) w)
      = match Enhanced.resolve_delimiters H s tpl (Enhanced.globalOpenDelimiter s)
                (Enhanced.globalCloseDelimiter s) with
        | Ok _ => 0
        | Err _ => 1
        end) /\
  (forall s tpl out ctx w,
      JS.truthy out = false ->
      let w1 := snd (Enhanced.renderTemplate H s tpl "stdout" ctx
                       (Enhanced.globalOpenDelimiter s) (Enhanced.globalCloseDelimiter s) w) in
      exit_code ((Enhanced.single_file_mode H s tpl out ctx ;;; make_executable H) w)
      = match Enhanced.resolve_delimiters H s tpl (Enhanced.globalOpenDelimiter s)
                (Enhanced.globalCloseDelimiter s),
              rendered_for_stdout H s tpl ctx (w_fs w1) with
        | Ok _, Ok _ => 0
        | _, _ => 1
        end) /\
  (forall s parameters src ctx w,
      exit_code ((Merged.single_file_mode H s parameters src ctx ;;; make_executable H) w)
      = match Merged.resolve_delimiters H s src (Merged.globalOpen s) (Merged.globalClose s) with
        | Ok _ => 0
        | Err _ => 1
        end) /\
  (forall s path openDel closeDel,
      (has_files (Enhanced.config s) ->
       exists o, Enhanced.resolve_delimiters H s path openDel closeDel = Ok o) /\
      (is_primitive (Enhanced.config s) = true ->
       exists e, Enhanced.resolve_delimiters H s path openDel closeDel = Err e)) /\
  (forall s path openDel closeDel,
      (has_files (Merged.tplConfig s) ->
       exists o, Merged.resolve_delimiters H s path openDel closeDel = Ok o) /\
      (is_primitive (Merged.tplConfig s) = true ->
       exists e, Merged.resolve_delimiters H s path openDel closeDel = Err e)).
Proof.
  split; [|split; [|split; [|split]]].
  - intros s tpl out ctx w Hout.
    rewrite exit_code_then_make_executable. unfold Enhanced.single_file_mode.
    rewrite Hout. cbn [negb].
    set (p := match JS.or out (JS.str "stdout") with
              | Some (VStr p) => p
              | _ => "stdout"
              end).
    destruct (Enhanced.resolve_delimiters H s tpl _ _) as [o|e] eqn:Hres.
    + destruct (enhanced_renderTemplate_returns H s tpl p ctx _ _ o w Hres) as (b & Hb).
      unfold bind. destruct (Enhanced.renderTemplate H s tpl p ctx _ _ w) as [r w1].
      cbn [fst] in Hb. subst r. reflexivity.
    + unfold Enhanced.renderTemplate. rewrite Hres. reflexivity.
  - intros s tpl out ctx w Hout w1.
    rewrite exit_code_then_make_executable. unfold Enhanced.single_file_mode.
    rewrite Hout. cbn [negb].
    assert (Ep : match JS.or out (JS.str "stdout") with
                 | Some (VStr p) => p
                 | _ => "stdout"
                 end = "stdout").
    { unfold JS.or. now rewrite Hout. }
    rewrite Ep.
    destruct (Enhanced.resolve_delimiters H s tpl _ _) as [o|e] eqn:Hres.
    + destruct (enhanced_renderTemplate_returns H s tpl "stdout" ctx _ _ o w Hres) as (b & Hb).
      subst w1. unfold bind at 1.
      destruct (Enhanced.renderTemplate H s tpl "stdout" ctx _ _ w) as [r w1].
      cbn [fst snd] in *. subst r. unfold rendered_for_stdout. step.
      destruct (readFileSync H (w_fs w1) tpl) as [template|]; step; cbn [rbind];
        [|reflexivity].
      destruct (Mark_up H template ctx _); reflexivity.
    + unfold Enhanced.renderTemplate. rewrite Hres. reflexivity.
  - intros s parameters src ctx w.
    rewrite exit_code_then_make_executable. unfold Merged.single_file_mode.
    destruct (Merged.resolve_delimiters H s src _ _) as [o|e] eqn:Hres.
    + destruct (merged_renderTemplate_returns H s src
                  (JS.or (JS.or (JS.assoc "destination" parameters)
                                (JS.assoc "outputDir" parameters)) (JS.str "stdout"))
                  ctx _ _ o w Hres) as (b & Hb).
      unfold bind. destruct (Merged.renderTemplate H s src _ ctx _ _ w) as [r w1].
      cbn [fst] in Hb. subst r. reflexivity.
    + unfold Merged.renderTemplate. rewrite Hres. reflexivity.
  - intros s path openDel closeDel. split.
    + intros (fm & Hfm & Ht). now apply enhanced_resolve_total with (files := fm).
    + intros Hp. eexists. now apply enhanced_no_files_no_render.
  - intros s path openDel closeDel. split.
    + now apply merged_resolve_total.
    + intros Hp. eexists. now apply merged_no_files_no_render.
Qed.

(** The enhanced CLI's single-file mode on a template the engine rejects,
    with an output path: status 0 with the built-in configuration, status 1
    when the configuration document was the number 42. *)
Lemma exit_status_after_a_failed_render_witness :
  let s := Enhanced.mkSettings Enhanced.initial_config (JS.str "{{") (JS.str "}}") in
  let s42 := Enhanced.mkSettings (VNum 42) (JS.str "{{") (JS.str "}}") in
  let w := @mkWorld Demo.h Demo.disk0 [] in
  exit_code ((Enhanced.single_file_mode Demo.h s "broken/a.tpl" (JS.str "out/a.txt") (VObj [])
              ;;; make_executable Demo.h) w) = 0 /\
  exit_code ((Enhanced.single_file_mode Demo.h s42 "page.tpl" (JS.str "out/a.txt") (VObj [])
              ;;; make_executable Demo.h) w) = 1.
Proof.
  intros s s42 w. split.
  - exact (proj1 (exit_status_after_a_failed_render Demo.h) s "broken/a.tpl"
             (JS.str "out/a.txt") (VObj []) w eq_refl).
  - exact (proj1 (exit_status_after_a_failed_render Demo.h) s42 "page.tpl"
             (JS.str "out/a.txt") (VObj []) w eq_refl).
Defined.

(** The enhanced CLI on a template the engine rejects: with an output
    path the run ends with status 0, without one with status 1. *)
Example enhanced_broken_template_runs :
  exit_code (Enhanced.run Demo.h ["info.json"; "broken/a.tpl"; "out/a.txt"] Demo.disk0) = 0 /\
  exit_code (Enhanced.run Demo.h ["info.json"; "broken/a.tpl"] Demo.disk0) = 1.
Proof. split; reflexivity. Qed.

(** The enhanced CLI with a configuration document that is the number
    42, on a template that renders, with an output path. *)
Example enhanced_primitive_configuration_run :
  let h := Demo.host [("42", VNum 42); ("{}", VObj [])] in
  let disk := Demo.mkDisk [("n.json", ("42", 420)); ("empty.json", ("{}", 420));
                           ("page.tpl", ("Hello", 420))]
                          [(".", [])] [] in
  let r := Enhanced.run h ["--config"; "n.json"; "empty.json"; "page.tpl"; "out.txt"] disk in
  fst r = Throw "Cannot read properties of undefined" /\ exit_code r = 1 /\
  w_trace (snd r) = [].
Proof. vm_compute. auto. Qed.

(** ** What directory mode touches *)

Lemma enhanced_renderTemplate_effects (H : Host) (s : Enhanced.settings)
    (odir file src : string) (files : list string) (ctx : value) (od cd : jv) :
  In file files ->
  appends (directory_effect H odir files)
    (Enhanced.renderTemplate H s src (path_join H odir file) ctx od cd).
Proof.
  intros Hin.
  unfold Enhanced.renderTemplate, fs_readFileSync, fs_writeFileSync, fs_mkdirSync,
    console_error, console_log.
  cbv beta. appends_with ltac:(cbn; eauto).
Qed.

Lemma enhanced_process_entries_effects (H : Host) (s : Enhanced.settings)
    (tdir odir : string) (ctx : value) (files all : list string) (n : Z) :
  incl files all ->
  appends (directory_effect H odir all) (Enhanced.process_entries H s tdir odir ctx files n).
Proof.
  revert n. induction files as [|file rest IH]; intros n Hincl; simpl.
  - apply appends_ret.
  - apply appends_bind; [|intros; apply IH; intros f Hf; apply Hincl; now right].
    unfold Enhanced.process_entry, fs_statSync.
    apply appends_bind; [apply appends_fs_read|intros st].
    destruct (negb (isFile st)); [apply appends_ret|].
    repeat (apply appends_bind; [apply appends_lift|intro]).
    apply appends_bind; [|intro; apply appends_ret].
    apply enhanced_renderTemplate_effects. apply Hincl. now left.
Qed.

Lemma appends_at_try_catch {H : Host} {A} (P : event -> Prop) (m : M H A)
    (handler : string -> M H A) (w : world H) :
  appends_at P m w -> (forall e, appends P (handler e)) ->
  appends_at P (try_catch m handler) w.
Proof.
  intros (evs1 & E1 & F1) Hh. unfold appends_at, try_catch.
  destruct (m w) as [[a|e|c] w1]; simpl in E1.
  - exists evs1. auto.
  - destruct (Hh e w1) as (evs2 & E2 & F2).
    exists (evs1 ++ evs2)%list. rewrite E2, E1, app_assoc.
    split; [reflexivity|now apply Forall_app].
  - exists evs1. auto.
Qed.

(** X14. Directory mode of the enhanced CLI, whatever the directory holds and
    however it ends, only prints on the console, renders, creates the output
    directory or the directory of an entry's output file, and writes, with no
    explicit mode, files named [path.join(outputDir, entry)] for entries of
    the listing of the template directory it has read: it sends nothing to
    standard output itself, executes nothing and does not chmod. *)
Theorem directory_mode_writes_into_the_output_directory (H : Host)
    (s : Enhanced.settings) (tdir odir : string) (ctx : value) (w : world H) :
  exists evs,
    w_trace (snd (Enhanced.directory_mode H s tdir odir ctx w)) = (w_trace w ++ evs)%list /\
    Forall (directory_effect H odir (directory_listing H tdir odir (w_fs w))) evs.
Proof.
  change (appends_at (directory_effect H odir (directory_listing H tdir odir (w_fs w)))
            (Enhanced.directory_mode H s tdir odir ctx) w).
  unfold Enhanced.directory_mode.
  apply appends_at_try_catch.
  2: { intro. unfold console_error.
       apply appends_bind; [apply appends_emit; exact I|intro]. apply appends_exit. }
  apply appends_at_bind; [apply appends_existsSync|].
  intros found w1 Hex. unfold fs_existsSync in Hex. inversion Hex; subst found w1. clear Hex.
  apply appends_at_bind.
  { destruct (negb _); [apply appends_fs_update; cbn; auto|apply appends_ret]. }
  intros [] w1 Hmk.
  apply appends_at_bind; [apply appends_fs_read|].
  intros files w2 Hdir. unfold fs_readdirSync, fs_read in Hdir.
  destruct (readdirSync H (w_fs w1) tdir) as [files'|] eqn:Hls; [|discriminate Hdir].
  inversion Hdir; subst files' w2. clear Hdir.
  assert (Hlisting : directory_listing H tdir odir (w_fs w) = files).
  { unfold directory_listing. revert Hmk. unfold fs_mkdirSync, fs_update.
    destruct (existsSync H (w_fs w) odir); cbn [negb].
    - intros E. inversion E; subst w1. now rewrite Hls.
    - destruct (mkdirSync_recursive H (w_fs w) odir) as [fs0|]; [|discriminate].
      intros E. inversion E; subst w1. cbn [w_fs] in Hls. now rewrite Hls. }
  rewrite Hlisting.
  apply appends_bind; [apply enhanced_process_entries_effects; apply incl_refl|intro].
  unfold console_log. apply appends_emit. exact I.
Qed.

(** The listing of [broken], with the output directory [out] there. *)
Example directory_mode_on_broken :
  directory_listing Demo.h "broken" "out" Demo.disk0 = ["a.tpl"; "b.tpl"].
Proof. reflexivity. Qed.

(** ** [renderTemplate] of the merged CLI *)

(** X15. [renderTemplate] of the merged CLI on a template that renders: with
    the output path [stdout] it sends the output to standard output and
    touches no file; with any other path it creates the directory of the path
    with [mkdirp], writes the output and reports it; and when the directory
    cannot be created it reports the error, returns [false] and writes
    nothing. *)
Theorem merged_renderTemplate_destinations (H : Host) (s : Merged.settings)
    (path tpl output : string) (ctx : value) (openDel closeDel : jv) (o : options)
    (w : world H) :
  Merged.resolve_delimiters H s path openDel closeDel = Ok o ->
  readFileSync H (w_fs w) path = Ok tpl ->
  Mark_up H tpl ctx (Some o) = Ok output ->
  let rendered := [merged_log_rendering path o; Rendered tpl ctx (Some o)] in
  Merged.renderTemplate H s path (JS.str "stdout") ctx openDel closeDel w
    = (Ret true, mkWorld (w_fs w) (w_trace w ++ rendered ++ [Stdout output])) /\
  (forall out fs1 fs2,
      out <> "stdout" ->
      mkdirp_sync H (w_fs w) (path_dirname H out) = Ok fs1 ->
      writeFileSync H fs1 out output None = Ok fs2 ->
      Merged.renderTemplate H s path (JS.str out) ctx openDel closeDel w
        = (Ret true,
           mkWorld fs2 (w_trace w ++ rendered ++
                        [MadeDir (path_dirname H out); Wrote out output None;
                         merged_log_written out]))) /\
  (forall out e,
      out <> "stdout" ->
      mkdirp_sync H (w_fs w) (path_dirname H out) = Err e ->
      Merged.renderTemplate H s path (JS.str out) ctx openDel closeDel w
        = (Ret false, mkWorld (w_fs w) (w_trace w ++ rendered ++ [merged_log_failed path e]))).
Proof.
  intros Hres Hr Hup rendered. subst rendered.
  unfold Merged.renderTemplate, merged_log_rendering, merged_log_written, merged_log_failed.
  rewrite Hres. step. rewrite Hr. step. rewrite Hup. step.
  split; [|split].
  - cbn [Merged.is_stdout JS.str String.eqb Ascii.eqb Bool.eqb]. step.
    now rewrite <- !app_assoc.
  - intros out fs1 fs2 Hout Hmk Hw. cbn [Merged.is_stdout JS.str Merged.as_path].
    apply String.eqb_neq in Hout. rewrite Hout. step. rewrite Hmk. step. rewrite Hw. step.
    now rewrite <- !app_assoc.
  - intros out e Hout Hmk. cbn [Merged.is_stdout JS.str Merged.as_path].
    apply String.eqb_neq in Hout. rewrite Hout. step. rewrite Hmk. step.
    now rewrite <- !app_assoc.
Qed.

(** [page.tpl] rendered to standard output. *)
Lemma merged_renderTemplate_destinations_witness :
  let s := Merged.mkSettings (VObj [("files", JS.empty_object)]) (JS.str "{{") (JS.str "}}") in
  let o := mkOptions (JS.str "<%") (JS.str "%>") in
  let w := @mkWorld Demo.h Demo.disk0 [] in
  (Merged.resolve_delimiters Demo.h s "page.tpl" (JS.str "<%") (JS.str "%>") = Ok o /\
   readFileSync Demo.h Demo.disk0 "page.tpl" = Ok "Hello" /\
   Mark_up Demo.h "Hello" (VObj []) (Some o) = Ok "<%Hello%>") /\
  Merged.renderTemplate Demo.h s "page.tpl" (JS.str "stdout") (VObj [])
    (JS.str "<%") (JS.str "%>") w
  = (Ret true,
     @mkWorld Demo.h Demo.disk0 [merged_log_rendering "page.tpl" o;
                         Rendered "Hello" (VObj []) (Some o); Stdout "<%Hello%>"]).
Proof.
  intros s o w. split; [repeat split|].
  exact (proj1 (merged_renderTemplate_destinations Demo.h s "page.tpl" "Hello" "<%Hello%>"
                  (VObj []) (JS.str "<%") (JS.str "%>") o w eq_refl eq_refl eq_refl)).
Defined.

(** ** [generateDir] *)

Lemma appends_weaken {H : Host} {A} (P Q : event -> Prop) (m : M H A) :
  (forall e, P e -> Q e) -> appends P m -> appends Q m.
Proof.
  intros HPQ Hm w. destruct (Hm w) as (evs & E & F). exists evs. split; [exact E|].
  eapply Forall_impl; eauto.
Qed.

Lemma processTemplateFile_effects (H : Host) (src destDir rel : string) (ctx : value) :
  appends (batch_effect H destDir ctx)
    (Merged.processTemplateFile H src (path_join H destDir rel) ctx).
Proof.
  unfold Merged.processTemplateFile, fs_statSync, fs_readFileSync, fs_writeFileSync.
  apply appends_bind; [apply appends_fs_read|intros st].
  apply appends_bind; [apply appends_fs_read|intros tpl].
  apply appends_bind; [apply appends_mark_up; cbn; auto|intros out].
  destruct (path_extname H src =? ".script")%string.
  - repeat (apply appends_bind; [apply appends_shell; cbn; eauto|intros _]).
    apply appends_shell; cbn; eauto.
  - apply appends_fs_update; cbn; eauto.
Qed.

Lemma generateDir_effects (H : Host) (depth : nat)
    (srcDir baseDir destDir : string) (ctx : value) :
  appends (batch_effect H destDir ctx)
    (Merged.generateDir H depth srcDir baseDir destDir ctx).
Proof.
  revert srcDir. induction depth as [|depth IH]; intros srcDir; simpl.
  - apply appends_throw.
  - apply appends_bind; [apply appends_fs_read|intros items].
    apply appends_forEach. intros item.
    apply appends_bind; [apply appends_fs_read|intros st].
    destruct (isDirectory st).
    + apply appends_bind; [apply appends_fs_update; cbn; eauto|intros _]. apply IH.
    + apply processTemplateFile_effects.
Qed.

Section Adds.

Variable H : Host.
Variable Q : list event -> Prop.
Hypothesis Q_nil : Q [].
Hypothesis Q_app : forall l1 l2, Q l1 -> Q l2 -> Q (l1 ++ l2)%list.

Lemma adds_nothing {A} (m : M H A) :
  (forall w, w_trace (snd (m w)) = w_trace w) -> adds Q m.
Proof. intros Hm w. exists []. now rewrite Hm, app_nil_r. Qed.

Lemma adds_bind {A B} (m : M H A) (k : A -> M H B) :
  adds Q m -> (forall a, adds Q (k a)) -> adds Q (bind m k).
Proof.
  intros Hm Hk w. unfold bind.
  destruct (Hm w) as (evs1 & E1 & Q1).
  destruct (m w) as [[a|e|c] w1]; cbn [snd] in *.
  - destruct (Hk a w1) as (evs2 & E2 & Q2).
    exists (evs1 ++ evs2)%list. rewrite E2, E1, app_assoc. auto.
  - eauto.
  - eauto.
Qed.

Lemma adds_forEach {A} (l : list A) (f : A -> M H unit) :
  (forall x, adds Q (f x)) -> adds Q (Merged.forEach H l f).
Proof.
  intros Hf. induction l as [|x l IH]; cbn [Merged.forEach].
  - now apply adds_nothing.
  - apply adds_bind; [apply Hf|intros _; exact IH].
Qed.

End Adds.

Lemma scripts_app (l1 l2 : list event) : scripts l1 -> scripts l2 -> scripts (l1 ++ l2).
Proof. intros H1 H2. induction H1; cbn; [exact H2|]. now constructor. Qed.

Lemma scripts_only_app (l1 l2 : list event) :
  scripts_only l1 -> scripts_only l2 -> scripts_only (l1 ++ l2).
Proof. unfold scripts_only. rewrite filter_app. apply scripts_app. Qed.

Lemma processTemplateFile_scripts (H : Host) (src dest : string) (ctx : value) :
  adds scripts_only (Merged.processTemplateFile H src dest ctx).
Proof.
  intros w. unfold Merged.processTemplateFile, Merged.shell. step.
  host_cases; cbn [snd w_trace]; rewrite <- ?app_assoc;
    first [ exists []; rewrite app_nil_r; split; [reflexivity|constructor]
          | eexists; (split; [reflexivity|]); unfold scripts_only; cbn;
            repeat constructor ].
Qed.

Lemma generateDir_scripts (H : Host) (depth : nat) (srcDir baseDir destDir : string)
    (ctx : value) :
  adds scripts_only (Merged.generateDir H depth srcDir baseDir destDir ctx).
Proof.
  revert srcDir. induction depth as [|depth IH]; intros srcDir; cbn [Merged.generateDir].
  - apply adds_nothing; [constructor|reflexivity].
  - apply adds_bind; [apply scripts_only_app| |].
    + apply adds_nothing; [constructor|]. intros w. unfold fs_readdirSync, fs_read.
      destruct (readdirSync H (w_fs w) srcDir); reflexivity.
    + intros items. apply adds_forEach; [constructor|apply scripts_only_app|].
      intros item. apply adds_bind; [apply scripts_only_app| |].
      * apply adds_nothing; [constructor|]. intros w. unfold fs_statSync, fs_read.
        destruct (statSync H (w_fs w) _); reflexivity.
      * intros st. destruct (isDirectory st); [|apply processTemplateFile_scripts].
        apply adds_bind; [apply scripts_only_app| |intros _; apply IH].
        intros w. unfold mkdirp, fs_update.
        destruct (mkdirp_sync H (w_fs w) _); cbn [snd w_trace].
        -- eexists. split; [reflexivity|]. constructor.
        -- exists []. rewrite app_nil_r. split; [reflexivity|constructor].
Qed.

Lemma processTemplateFile_walk_effects (H : Host) (src dest : string) (ctx : value) :
  appends (walk_effect ctx) (Merged.processTemplateFile H src dest ctx).
Proof.
  unfold Merged.processTemplateFile, fs_statSync, fs_readFileSync, fs_writeFileSync.
  apply appends_bind; [apply appends_fs_read|intros st].
  apply appends_bind; [apply appends_fs_read|intros tpl].
  apply appends_bind; [apply appends_mark_up; cbn; auto|intros out].
  destruct (path_extname H src =? ".script")%string.
  - repeat (apply appends_bind; [apply appends_shell; exact I|intros _]).
    apply appends_shell; exact I.
  - apply appends_fs_update; cbn; discriminate.
Qed.

Lemma generateDir_walk_effects (H : Host) (depth : nat)
    (srcDir baseDir destDir : string) (ctx : value) :
  appends (walk_effect ctx) (Merged.generateDir H depth srcDir baseDir destDir ctx).
Proof.
  revert srcDir. induction depth as [|depth IH]; intros srcDir; simpl.
  - apply appends_throw.
  - apply appends_bind; [apply appends_fs_read|intros items].
    apply appends_forEach. intros item.
    apply appends_bind; [apply appends_fs_read|intros st].
    destruct (isDirectory st).
    + apply appends_bind; [apply appends_fs_update; exact I|intros _]. apply IH.
    + apply processTemplateFile_walk_effects.
Qed.

(** X16. [generateDir], whatever the tree it walks and whether it completes or
    not, calls the engine only with the context it was given and with no
    options, gives every file it writes an explicit mode, and prints nothing
    on the console or on standard output, asks for no archive and does not
    chmod. The steps it takes in the shell come as whole scripts, one after
    the other: change directory, execute, change back. *)
Theorem generateDir_is_silent (H : Host) (depth : nat)
    (srcDir baseDir destDir : string) (ctx : value) (w : world H) :
  exists evs,
    w_trace (snd (Merged.generateDir H depth srcDir baseDir destDir ctx w))
      = (w_trace w ++ evs)%list /\
    Forall (walk_effect ctx) evs /\
    scripts (filter is_shell evs).
Proof.
  destruct (generateDir_walk_effects H depth srcDir baseDir destDir ctx w) as (evs & E & F).
  destruct (generateDir_scripts H depth srcDir baseDir destDir ctx w) as (evs' & E' & S).
  rewrite E in E'. apply app_inv_head in E'. subst evs'.
  exists evs. auto.
Qed.


Lemma substring_all (s : string) (m : nat) :
  (String.length s <= m)%nat -> String.substring 0 m s = s.
Proof.
  revert m. induction s as [|c s IH]; intros m Hm.
  - destruct m; reflexivity.
  - destruct m; [simpl in Hm; lia|]. simpl. rewrite IH; [reflexivity|simpl in Hm; lia].
Qed.

Lemma substring_skip (a b : string) (m : nat) :
  (String.length b <= m)%nat -> String.substring (String.length a) m (a ++ b) = b.
Proof.
  intros Hm. induction a as [|c a IH]; simpl.
  - now apply substring_all.
  - exact IH.
Qed.

Lemma length_append (a b : string) :
  String.length (a ++ b) = (String.length a + String.length b)%nat.
Proof. induction a as [|c a IH]; simpl; [reflexivity|now rewrite IH]. Qed.

(** [(a + b).substr(a.length)] is [b]. *)
Lemma substr_append (a b : string) : Merged.substr (a ++ b) (String.length a) = b.
Proof.
  unfold Merged.substr. apply substring_skip. rewrite length_append. lia.
Qed.

Lemma substr_one (c : ascii) (rest : string) : Merged.substr (String c rest) 1 = rest.
Proof. exact (substr_append (String c "") rest). Qed.

Lemma forEach_ext (H : Host) {A} (f g : A -> M H unit) (l : list A) (w : world H) :
  (forall x w', In x l -> f x w' = g x w') ->
  Merged.forEach H l f w = Merged.forEach H l g w.
Proof.
  revert w. induction l as [|x l IH]; intros w Hfg; cbn [Merged.forEach]; [reflexivity|].
  unfold bind. rewrite (Hfg x w (or_introl eq_refl)).
  destruct (g x w) as [[[]|e|c] w1]; try reflexivity.
  apply IH. intros y w' Hy. apply Hfg. now right.
Qed.

(** X17. Where [generateDir] puts the entries of a directory. Given the
    listing, the call is the loop over its entries in which a directory is
    created at, and any other entry processed into, the destination
    [path.join(destDir, rel)], where [rel] is what follows [baseDir] in the
    joined source path, whenever the joined source paths of the entries start
    with [baseDir]. When [baseDir] is one character long, as the default
    source [.] is, [rel] is the joined source path without its first
    character, for a first character in ASCII, whether that character is
    the one of [baseDir] or not. *)
Theorem generateDir_destination_by_prefix_length (H : Host) (depth : nat)
    (srcDir baseDir destDir : string) (ctx : value) (items : list string) (w : world H) :
  readdirSync H (w_fs w) srcDir = Ok items ->
  let visit (dest : string -> string) (item : string) : M H unit :=
    st <- fs_statSync H (path_join H srcDir item) ;;
    if isDirectory st then
      mkdirp H (dest item) ;;;
      Merged.generateDir H depth (path_join H srcDir item) baseDir destDir ctx
    else Merged.processTemplateFile H (path_join H srcDir item) (dest item) ctx in
  let r := Merged.generateDir H (S depth) srcDir baseDir destDir ctx w in
  (forall rel : string -> string,
      (forall item, In item items -> path_join H srcDir item = baseDir ++ rel item) ->
      r = Merged.forEach H items (visit (fun item => path_join H destDir (rel item))) w) /\
  (forall (c : string -> ascii) (rest : string -> string),
      String.length baseDir = 1%nat ->
      (forall item, In item items ->
         path_join H srcDir item = String (c item) (rest item) /\
         (nat_of_ascii (c item) < 128)%nat) ->
      r = Merged.forEach H items (visit (fun item => path_join H destDir (rest item))) w).
Proof.
  intros Hdir visit r.
  assert (E : fs_readdirSync H srcDir w = (Ret items, w)).
  { unfold fs_readdirSync, fs_read. now rewrite Hdir. }
  assert (Hr : r = Merged.forEach H items
                     (visit (fun item => path_join H destDir
                               (Merged.substr (path_join H srcDir item)
                                              (String.length baseDir)))) w).
  { subst r. cbn [Merged.generateDir]. now rewrite (bind_ret_eq _ _ _ _ _ E). }
  split.
  - intros rel Hrel. rewrite Hr. apply forEach_ext. intros item w' Hin.
    unfold visit. now rewrite (Hrel item Hin), substr_append.
  - intros c rest Hlen Hrest. rewrite Hr. apply forEach_ext. intros item w' Hin.
    unfold visit. destruct (Hrest item Hin) as [-> _]. now rewrite Hlen, substr_one.
Qed.

(** The directory [site], walked with itself as base. *)
Lemma generateDir_destination_by_prefix_length_witness :
  let w := @mkWorld Demo.h Demo.disk0 [] in
  readdirSync Demo.h Demo.disk0 "site" = Ok ["page.tpl"; "run.script"; "sub"] /\
  (forall item, In item ["page.tpl"; "run.script"; "sub"] ->
     path_join Demo.h "site" item = "site" ++ ("/" ++ item)) /\
  Merged.generateDir Demo.h 5 "site" "site" "out" (VObj []) w
  = Merged.forEach Demo.h ["page.tpl"; "run.script"; "sub"]
      (fun item =>
         st <- fs_statSync Demo.h (path_join Demo.h "site" item) ;;
         if isDirectory st then
           mkdirp Demo.h (path_join Demo.h "out" ("/" ++ item)) ;;;
           Merged.generateDir Demo.h 4 (path_join Demo.h "site" item) "site" "out" (VObj [])
         else Merged.processTemplateFile Demo.h (path_join Demo.h "site" item)
                (path_join Demo.h "out" ("/" ++ item)) (VObj [])) w.
Proof.
  intros w.
  assert (Hrel : forall item, In item ["page.tpl"; "run.script"; "sub"] ->
                   path_join Demo.h "site" item = "site" ++ ("/" ++ item)).
  { intros item [<-|[<-|[<-|[]]]]; reflexivity. }
  split; [reflexivity|]. split; [exact Hrel|].
  exact (proj1 (generateDir_destination_by_prefix_length Demo.h 4 "site" "site" "out" (VObj [])
                  ["page.tpl"; "run.script"; "sub"] w eq_refl)
           (fun item => "/" ++ item) Hrel).
Defined.

(** The merged CLI with no source path: [minimist] supplies [.], Node's
    [path.join] leaves no [./] in front of the entries, and both entries of
    the current directory are written without the first letter of their
    names. *)
Example merged_default_source_run :
  let parameters := Merged.with_defaults [("configuration", VStr "info.json")] in
  let r := Merged.run cwd_host 5 parameters cwd_disk in
  merged_source parameters = JS.str "." /\
  fst r = Ret tt /\
  filter is_write (w_trace (snd r))
    = [Wrote "generated/nfo.json" "{{{ctx}}}" (Some 420);
       Wrote "generated/age.tpl" "{{Hello}}" (Some 420)].
Proof. vm_compute. auto. Qed.

(** ** Batch mode of the merged CLI *)

Lemma batch_effects_unreported (H : Host) (destDir : string) (ctx : value)
    (srcInput : string) (evs : list event) :
  Forall (batch_effect H destDir ctx) evs -> unreported srcInput evs.
Proof.
  intros F. rewrite Forall_forall in F. split.
  - intros Hin. exact (F _ Hin).
  - intros dir Hin. exact (F _ Hin).
Qed.

(** X18. Batch mode of the merged CLI reports only when it is done. A batch
    that completes has created the output directory ([--outputDir], else
    [--destination]), listed the source directory and given every entry of the
    listing its turn in [generateDir], in order, with the output directory as
    destination; a directory it has created there and walked in turn. Only
    then has it printed that the directory is processed and, with [--zip],
    asked for the archive of the output directory. A batch that does not
    complete prints no such message and asks for no archive. *)
Theorem batch_mode_reports_when_done (H : Host) (depth : nat)
    (parameters : list (string * value)) (srcInput : string) (ctx : value) (w : world H) :
  let r := Merged.batch_mode H depth parameters srcInput ctx w in
  let outDir := JS.or (JS.assoc "outputDir" parameters) (JS.assoc "destination" parameters) in
  match fst r with
  | Ret _ =>
      exists depth' dir fs1 items w1,
        depth = S depth' /\
        outDir = Some (VStr dir) /\
        mkdirp_sync H (w_fs w) dir = Ok fs1 /\
        readdirSync H fs1 srcInput = Ok items /\
        turns (entry_done H depth' srcInput srcInput dir ctx) items
          (mkWorld fs1 (w_trace w ++ [MadeDir dir])) w1 /\
        r = (Ret tt,
             mkWorld (w_fs w1)
               (w_trace w1 ++ [merged_log_processed srcInput] ++
                (if JS.truthy (JS.assoc "zip" parameters) then [Zipped dir] else [])))
  | _ =>
      exists evs, w_trace (snd r) = (w_trace w ++ evs)%list /\ unreported srcInput evs
  end.
Proof.
  intros r outDir. subst r.
  destruct outDir as [[| | |dir| |]|] eqn:Hout; subst outDir;
    try (unfold Merged.batch_mode; rewrite Hout; cbn [Merged.as_path]; step;
         exists []; rewrite app_nil_r; split; [reflexivity|];
         split; [intros []|intros d []]).
  destruct (mkdirp_sync H (w_fs w) dir) as [fs1|e] eqn:Hmk.
  2: { unfold Merged.batch_mode. rewrite Hout. cbn [Merged.as_path]. step. rewrite Hmk.
       cbn [fst snd]. exists []. rewrite app_nil_r. split; [reflexivity|].
       split; [intros []|intros d []]. }
  rewrite (batch_mode_walk H depth parameters srcInput dir ctx fs1 w Hout Hmk).
  set (w0 := mkWorld fs1 (w_trace w ++ [MadeDir dir])).
  match goal with
  | |- context [?m w0] =>
      match type of (m w0) with
      | (outcome unit * world H)%type => remember (m w0) as r eqn:Hr
      end
  end.
  unfold bind at 1 in Hr.
  destruct (generateDir_effects H depth srcInput srcInput dir ctx w0) as (work & E & F).
  destruct (Merged.generateDir H depth srcInput srcInput dir ctx w0) as [[[]|e|c] w1] eqn:Hgen;
    cbn [fst snd w_trace] in *.
  - destruct depth as [|depth']; [discriminate Hgen|].
    destruct (readdirSync H fs1 srcInput) as [items|e] eqn:Hdir.
    2: { rewrite (generateDir_listing_fails H depth' srcInput srcInput dir ctx e w0 Hdir)
           in Hgen. discriminate Hgen. }
    pose proof (generateDir_walk H depth' srcInput srcInput dir ctx items w0 Hdir) as Hwalk.
    unfold walk_outcome in Hwalk. rewrite Hgen in Hwalk. cbn [fst snd] in Hwalk.
    assert (Er : r = (Ret tt,
                      mkWorld (w_fs w1)
                        (w_trace w1 ++ [merged_log_processed srcInput] ++
                         (if JS.truthy (JS.assoc "zip" parameters)
                          then [Zipped dir] else [])))).
    { subst r. unfold merged_log_processed, Merged.zipGenerated.
      destruct (JS.truthy (JS.assoc "zip" parameters)); step;
        rewrite <- ?app_assoc; reflexivity. }
    rewrite Er. cbn [fst]. exists depth', dir, fs1, items, w1.
    repeat (split; [reflexivity || assumption|]). reflexivity.
  - subst r. cbn [fst snd].
    exists ([MadeDir dir] ++ work)%list.
    split; [rewrite E; subst w0; cbn; now rewrite <- app_assoc|].
    destruct (batch_effects_unreported H dir ctx srcInput work F) as [Hlog Hzip].
    split; [intros [Hin|Hin]; [discriminate Hin|now apply Hlog]|].
    intros d [Hin|Hin]; [discriminate Hin|now apply (Hzip d)].
  - subst r. cbn [fst snd].
    exists ([MadeDir dir] ++ work)%list.
    split; [rewrite E; subst w0; cbn; now rewrite <- app_assoc|].
    destruct (batch_effects_unreported H dir ctx srcInput work F) as [Hlog Hzip].
    split; [intros [Hin|Hin]; [discriminate Hin|now apply Hlog]|].
    intros d [Hin|Hin]; [discriminate Hin|now apply (Hzip d)].
Qed.

(** ** Runs of the merged CLI that end early *)

(** Loading the configuration returns in the world it started in. *)
Lemma merged_load_config_ret (H : Host) (parameters : list (string * value))
    (s : Merged.settings) (w w1 : world H) :
  Merged.load_config H parameters w = (Ret s, w1) -> w1 = w.
Proof.
  unfold Merged.load_config. cbv zeta.
  destruct (JS.truthy (JS.assoc "config" parameters)); [|intros E; now inversion E].
  step. destruct (Merged.as_path _) as [p|]; [|discriminate].
  destruct (readFileSync H (w_fs w) p) as [raw|]; [|discriminate].
  destruct (JSON_parse H raw) as [obj|]; [|discriminate].
  destruct (Merged.read_config obj _) as [s1|]; [|discriminate].
  intros E. now inversion E.
Qed.

(** A run of the merged CLI that gets as far as its source path. *)
Lemma merged_main_reaches_source (H : Host) (depth : nat)
    (parameters : list (string * value)) (fs : fsys H) (s : Merged.settings)
    (context : value) (w2 : world H) :
  fst (Merged.load_config H parameters (mkWorld fs [])) = Ret s ->
  Merged.initContext H parameters (mkWorld fs []) = (Ret (Some context), w2) ->
  w2 = mkWorld fs [] /\
  Merged.run H depth parameters fs
  = match merged_source parameters with
    | Some (VStr src) =>
        if existsSync H fs src then
          (stat <- fs_statSync H src ;;
           (if isDirectory stat then Merged.batch_mode H depth parameters src context
            else Merged.single_file_mode H s parameters src context) ;;;
           make_executable H) (mkWorld fs (debug_output parameters context))
        else
          (Exit 1, mkWorld fs (debug_output parameters context ++
                               [merged_log_not_found (merged_source parameters)]))
    | _ => (Exit 1, mkWorld fs (debug_output parameters context ++
                                [merged_log_not_found (merged_source parameters)]))
    end.
Proof.
  intros Hcfg Hinit.
  assert (Hw2 : w2 = mkWorld fs []).
  { revert Hinit. unfold Merged.initContext, Merged.help.
    destruct (JS.truthy (JS.assoc "help" parameters)); [discriminate|].
    destruct (JS.truthy (JS.assoc "configuration" parameters));
      [|intros E; now inversion E].
    step. destruct (Merged.as_path _) as [p|]; [|discriminate].
    cbn [w_fs]. destruct (require_resolved H fs p); [|discriminate].
    intros E. now inversion E. }
  split; [exact Hw2|]. subst w2.
  unfold Merged.run, Merged.main.
  destruct (Merged.load_config H parameters (mkWorld fs [])) as [[s0|e|c] w1] eqn:Hload;
    try discriminate Hcfg.
  cbn [fst] in Hcfg. inversion Hcfg; subst s0.
  apply merged_load_config_ret in Hload as Hw1. subst w1.
  rewrite (bind_ret_eq _ _ _ _ _ Hload). rewrite (bind_ret_eq _ _ _ _ _ Hinit).
  fold (merged_source parameters). unfold debug_output, merged_log_context,
    merged_log_not_found.
  destruct (JS.truthy (JS.assoc "debug" parameters)); step;
    destruct (merged_source parameters) as [[| | |src| |]|]; step; try reflexivity;
    destruct (existsSync H fs src); reflexivity.
Qed.

(** X19. Three ways in which the merged CLI ends with status 1 once its
    configuration is loaded, each before anything is rendered or written:
    [--help], which prints the usage text whatever else is asked; a context
    document that cannot be loaded, which is reported on standard error; and a
    source path that does not exist, which is reported after the context that
    [--debug] prints. *)
Theorem merged_exits_with_one (H : Host) (depth : nat)
    (parameters : list (string * value)) (fs : fsys H) (s : Merged.settings) :
  fst (Merged.load_config H parameters (mkWorld fs [])) = Ret s ->
  let r := Merged.run H depth parameters fs in
  (JS.truthy (JS.assoc "help" parameters) = true ->
   r = (Exit 1, mkWorld fs [ConsoleLog Merged.help_text []])) /\
  (JS.truthy (JS.assoc "help" parameters) = false ->
   JS.truthy (JS.assoc "configuration" parameters) = true ->
   forall e,
     rbind (Merged.as_path (JS.assoc "configuration" parameters)) (require_resolved H fs)
       = Err e ->
     r = (Exit 1, mkWorld fs [merged_log_no_context (JS.assoc "configuration" parameters)])) /\
  (forall context w2,
     Merged.initContext H parameters (mkWorld fs []) = (Ret (Some context), w2) ->
     source_exists H fs (merged_source parameters) = false ->
     r = (Exit 1, mkWorld fs (debug_output parameters context ++
                              [merged_log_not_found (merged_source parameters)]))).
Proof.
  intros Hcfg r. subst r.
  assert (Hload : Merged.load_config H parameters (mkWorld fs []) = (Ret s, mkWorld fs [])).
  { destruct (Merged.load_config H parameters (mkWorld fs [])) as [[s0|e|c] w1] eqn:Hload;
      try discriminate Hcfg.
    cbn [fst] in Hcfg. inversion Hcfg; subst s0.
    pose proof (merged_load_config_ret _ _ _ _ _ Hload) as Hw1. now subst w1. }
  split; [|split].
  - intros Hhelp. unfold Merged.run, Merged.main. rewrite (bind_ret_eq _ _ _ _ _ Hload).
    unfold Merged.initContext, Merged.help. rewrite Hhelp. reflexivity.
  - intros Hhelp Hconf e Hreq. unfold Merged.run, Merged.main.
    rewrite (bind_ret_eq _ _ _ _ _ Hload).
    unfold Merged.initContext, merged_log_no_context. rewrite Hhelp, Hconf. step.
    destruct (Merged.as_path (JS.assoc "configuration" parameters)) as [p|]; step;
      [|reflexivity].
    cbn [rbind] in Hreq. rewrite Hreq. reflexivity.
  - intros context w2 Hinit Hsrc.
    destruct (merged_main_reaches_source H depth parameters fs s context w2 Hcfg Hinit)
      as [_ ->].
    unfold source_exists in Hsrc.
    destruct (merged_source parameters) as [[| | |src| |]|]; try reflexivity.
    now rewrite Hsrc.
Qed.

(** The merged CLI asked for help, asked for a context that does not
    exist, and given a source path that does not exist. *)
Lemma merged_exits_with_one_witness :
  let help := Merged.with_defaults [("help", VBool true); ("configuration", VStr "info.json")] in
  let s := merged_initial_settings help in
  fst (Merged.load_config Demo.h help (@mkWorld Demo.h Demo.disk0 [])) = Ret s /\
  let r := Merged.run Demo.h 5 help Demo.disk0 in
  (JS.truthy (JS.assoc "help" help) = true ->
   r = (Exit 1, @mkWorld Demo.h Demo.disk0 [ConsoleLog Merged.help_text []])) /\
  (JS.truthy (JS.assoc "help" help) = false ->
   JS.truthy (JS.assoc "configuration" help) = true ->
   forall e,
     rbind (Merged.as_path (JS.assoc "configuration" help))
       (require_resolved Demo.h Demo.disk0) = Err e ->
     r = (Exit 1, @mkWorld Demo.h Demo.disk0
                    [merged_log_no_context (JS.assoc "configuration" help)])) /\
  (forall context w2,
     Merged.initContext Demo.h help (@mkWorld Demo.h Demo.disk0 [])
       = (Ret (Some context), w2) ->
     source_exists Demo.h Demo.disk0 (merged_source help) = false ->
     r = (Exit 1, @mkWorld Demo.h Demo.disk0
                    (debug_output help context ++
                     [merged_log_not_found (merged_source help)]))).
Proof.
  intros help s. split; [reflexivity|].
  exact (merged_exits_with_one Demo.h 5 help Demo.disk0 s eq_refl).
Defined.

(** Those three runs. *)
Example merged_runs_ending_with_one :
  Merged.run Demo.h 5
    (Merged.with_defaults [("help", VBool true); ("configuration", VStr "info.json")])
    Demo.disk0
  = (Exit 1, @mkWorld Demo.h Demo.disk0 [ConsoleLog Merged.help_text []]) /\
  Merged.run Demo.h 5
    (Merged.with_defaults [("configuration", VStr "nope.json")]) Demo.disk0
  = (Exit 1, @mkWorld Demo.h Demo.disk0 [merged_log_no_context (JS.str "nope.json")]) /\
  Merged.run Demo.h 5
    (Merged.with_defaults [("configuration", VStr "info.json"); ("templates", VStr "nope.tpl");
                           ("debug", VBool true)])
    Demo.disk0
  = (Exit 1, @mkWorld Demo.h Demo.disk0
               [merged_log_context (VObj [("name", VStr "World"); ("items", VStr "a")]);
                merged_log_not_found (JS.str "nope.tpl")]).
Proof. repeat split. Qed.

(** ** What a run of the merged CLI appends to the trace *)

Lemma appends_bind_ret {H : Host} {A B} (P : event -> Prop) (a : A) (k : A -> M H B) :
  appends P (k a) -> appends P (bind (ret a) k).
Proof. intros Hk w. exact (Hk w). Qed.

Lemma appends_bind_throw {H : Host} {A B} (P : event -> Prop) (e : string)
    (k : A -> M H B) :
  appends P (bind (throw e) k).
Proof. intros w. exists []. cbn. now rewrite app_nil_r. Qed.

Lemma merged_renderTemplate_appends (H : Host) (P : event -> Prop) (s : Merged.settings)
    (src : string) (out : jv) (ctx : value) (od cd : jv) :
  (forall o tpl, Merged.resolve_delimiters H s src od cd = Ok o ->
                 P (Rendered tpl ctx (Some o))) ->
  (forall text args, P (ConsoleLog text args)) ->
  (forall text args, P (ConsoleError text args)) ->
  (forall data, P (Stdout data)) ->
  (forall p, out = Some (VStr p) -> p <> "stdout" -> P (MadeDir (path_dirname H p))) ->
  (forall p data, out = Some (VStr p) -> p <> "stdout" -> P (Wrote p data None)) ->
  appends P (Merged.renderTemplate H s src out ctx od cd).
Proof.
  intros HR HL HE HS HM HW. unfold Merged.renderTemplate.
  destruct (Merged.resolve_delimiters H s src od cd) as [o|e] eqn:Hres; cbn [lift].
  2: apply appends_bind_throw.
  apply appends_bind_ret.
  unfold fs_readFileSync, fs_writeFileSync, mkdirp, console_log, console_error,
    stdout_write.
  apply appends_try_catch.
  2: { intros e. apply appends_bind; [apply appends_emit; apply HE|intros _].
       apply appends_ret. }
  apply appends_bind; [apply appends_fs_read|intros tpl].
  apply appends_bind; [apply appends_emit; apply HL|intros _].
  apply appends_bind; [apply appends_mark_up; now apply HR|intros result].
  apply appends_bind; [|intros _; apply appends_ret].
  destruct (Merged.is_stdout out) eqn:Hstd; [apply appends_emit; apply HS|].
  destruct out as [[| | |p| |]|]; cbn [Merged.as_path lift];
    try apply appends_bind_throw.
  cbn [Merged.is_stdout] in Hstd. apply String.eqb_neq in Hstd.
  apply appends_bind_ret.
  apply appends_bind; [apply appends_fs_update; now apply HM|intros _].
  apply appends_bind; [apply appends_fs_update; now apply HW|intros _].
  apply appends_emit. apply HL.
Qed.

Lemma merged_single_file_appends (H : Host) (P : event -> Prop) (s : Merged.settings)
    (parameters : list (string * value)) (src : string) (ctx : value) :
  (forall o tpl, Merged.resolve_delimiters H s src (Merged.globalOpen s)
                   (Merged.globalClose s) = Ok o ->
                 P (Rendered tpl ctx (Some o))) ->
  (forall text args, P (ConsoleLog text args)) ->
  (forall text args, P (ConsoleError text args)) ->
  (forall data, P (Stdout data)) ->
  (forall p, merged_out_file parameters = Some (VStr p) -> p <> "stdout" ->
             P (MadeDir (path_dirname H p))) ->
  (forall p data, merged_out_file parameters = Some (VStr p) -> p <> "stdout" ->
                  P (Wrote p data None)) ->
  appends P (Merged.single_file_mode H s parameters src ctx).
Proof.
  intros HR HL HE HS HM HW. unfold Merged.single_file_mode.
  apply appends_bind; [now apply merged_renderTemplate_appends|intros _; apply appends_ret].
Qed.

Lemma merged_batch_mode_appends (H : Host) (P : event -> Prop) (depth : nat)
    (parameters : list (string * value)) (src : string) (ctx : value) :
  (forall dir e, batch_effect H dir ctx e -> P e) ->
  (forall p, P (MadeDir p)) ->
  (forall text args, P (ConsoleLog text args)) ->
  (forall dir, P (Zipped dir)) ->
  appends P (Merged.batch_mode H depth parameters src ctx).
Proof.
  intros HB HM HL HZ. unfold Merged.batch_mode, Merged.zipGenerated, mkdirp, console_log.
  apply appends_bind; [apply appends_lift|intros dir].
  apply appends_bind; [apply appends_fs_update; apply HM|intros _].
  apply appends_bind;
    [apply appends_weaken with (P := batch_effect H dir ctx);
     [apply HB|apply generateDir_effects]|intros _].
  apply appends_bind; [apply appends_emit; apply HL|intros _].
  destruct (JS.truthy _); [apply appends_emit; apply HZ|apply appends_ret].
Qed.

(** The events of a whole run satisfy [P] when the messages do and the
    work on the source path appends only such events. *)
Lemma merged_run_events (H : Host) (P : event -> Prop) (depth : nat)
    (parameters : list (string * value)) (fs : fsys H) :
  (forall text args, P (ConsoleError text args)) ->
  (forall text args, P (ConsoleLog text args)) ->
  P ChmodSelf ->
  (forall s context w2 src st,
      fst (Merged.load_config H parameters (mkWorld fs [])) = Ret s ->
      Merged.initContext H parameters (mkWorld fs []) = (Ret (Some context), w2) ->
      merged_source parameters = Some (VStr src) ->
      statSync H fs src = Ok st ->
      appends P (if isDirectory st then Merged.batch_mode H depth parameters src context
                 else Merged.single_file_mode H s parameters src context)) ->
  Forall P (w_trace (snd (Merged.run H depth parameters fs))).
Proof.
  intros HE HL HC Hwork.
  assert (Hall : appends_at P (Merged.main H depth parameters) (mkWorld fs [])).
  { unfold Merged.main.
    apply appends_at_bind; [now apply merged_load_config_appends|].
    intros s w1 Hcfg.
    pose proof (merged_load_config_ret _ _ _ _ _ Hcfg) as Hw1. subst w1.
    apply appends_at_bind; [now apply merged_initContext_appends|].
    intros init w2 Hinit.
    assert (Hfs2 : w_fs w2 = fs).
    { pose proof (merged_initContext_fs H parameters (mkWorld fs [])) as E.
      now rewrite Hinit in E. }
    destruct init as [context|]; [|apply appends_exit].
    apply appends_at_bind.
    { destruct (JS.truthy (JS.assoc "debug" parameters));
        [apply appends_emit; apply HL|apply appends_ret]. }
    intros [] w3 Hdbg.
    assert (Hfs3 : w_fs w3 = fs).
    { destruct (JS.truthy (JS.assoc "debug" parameters));
        unfold console_log, emit, ret in Hdbg; injection Hdbg as <-; exact Hfs2. }
    fold (merged_source parameters).
    destruct (merged_source parameters) as [[| | |src| |]|] eqn:Hsrc;
      try (apply appends_bind; [apply appends_emit; apply HE|intros _; apply appends_exit]).
    apply appends_at_bind; [apply appends_existsSync|].
    intros found w4 Hex. inversion Hex; subst found w4. clear Hex.
    destruct (negb _).
    { apply appends_bind; [apply appends_emit; apply HE|intros _; apply appends_exit]. }
    apply appends_at_bind; [apply appends_fs_read|].
    intros st w4 Hstat. unfold fs_statSync, fs_read in Hstat. rewrite Hfs3 in Hstat.
    destruct (statSync H fs src) as [st'|] eqn:Hst; [|discriminate Hstat].
    inversion Hstat; subst st' w4.
    apply appends_bind.
    - apply (Hwork s context w2 src st); auto. now rewrite Hcfg.
    - intros _. now apply appends_make_executable. }
  destruct Hall as (evs & E & F). unfold Merged.run. rewrite E. exact F.
Qed.

(** ** The context of the merged CLI *)

(** X20. The merged CLI hands the engine the context document as [require]
    returned it, in every call: no [items] field is added to it or wrapped. *)
Theorem merged_context_is_passed_as_loaded (H : Host) (depth : nat)
    (parameters : list (string * value)) (fs : fsys H) (p : string) (ctx : value) :
  JS.truthy (JS.assoc "help" parameters) = false ->
  JS.assoc "configuration" parameters = Some (VStr p) -> p <> "" ->
  require_resolved H fs p = Ok ctx ->
  Forall (renders_with ctx) (w_trace (snd (Merged.run H depth parameters fs))).
Proof.
  intros Hhelp Hconf Hp Hreq. apply merged_run_events; try (intros; same_context).
  intros s context w2 src st _ Hinit _ _.
  assert (context = ctx) as ->.
  { revert Hinit. unfold Merged.initContext. rewrite Hhelp, Hconf.
    cbn [JS.truthy]. apply String.eqb_neq in Hp. rewrite Hp. cbn [negb].
    step. cbn [Merged.as_path lift]. step. rewrite Hreq. intros E. now inversion E. }
  destruct (isDirectory st).
  - apply merged_batch_mode_appends; try (intros; same_context).
    intros dir e He. destruct e; try same_context. intros t c o E. inversion E; subst.
    apply He.
  - apply merged_single_file_appends; intros; same_context.
Qed.

(** The merged CLI on the directory [site] with the empty object of
    [empty.json] as context. *)
Lemma merged_context_is_passed_as_loaded_witness :
  let parameters :=
    Merged.with_defaults [("configuration", VStr "empty.json"); ("templateDir", VStr "site");
                          ("outputDir", VStr "out")] in
  (JS.truthy (JS.assoc "help" parameters) = false /\
   JS.assoc "configuration" parameters = Some (VStr "empty.json") /\
   "empty.json" <> "" /\
   require_resolved Demo.h Demo.disk0 "empty.json" = Ok (VObj [])) /\
  Forall (renders_with (VObj [])) (w_trace (snd (Merged.run Demo.h 5 parameters Demo.disk0))).
Proof.
  intros parameters.
  assert (Hp : "empty.json" <> "") by discriminate.
  split; [repeat split; exact Hp|].
  exact (merged_context_is_passed_as_loaded Demo.h 5 parameters Demo.disk0 "empty.json"
           (VObj []) eq_refl eq_refl Hp eq_refl).
Defined.

(** That run: the engine is called three times, on a context without an
    [items] field. *)
Example merged_context_run :
  let parameters :=
    Merged.with_defaults [("configuration", VStr "empty.json"); ("templateDir", VStr "site");
                          ("outputDir", VStr "out")] in
  filter (fun e => match e with Rendered _ _ _ => true | _ => false end)
    (w_trace (snd (Merged.run Demo.h 5 parameters Demo.disk0)))
  = [Rendered "P" (VObj []) None; Rendered "echo hi" (VObj []) None;
     Rendered "D" (VObj []) None].
Proof. vm_compute. reflexivity. Qed.

Lemma assoc_without (ks : list string) (ps : list (string * value)) (k : string) :
  JS.assoc k (fold_left (fun ps k => JS.assoc_del k ps) ks ps)
  = if existsb (String.eqb k) ks then None else JS.assoc k ps.
Proof.
  revert ps. induction ks as [|k0 ks IH]; intros ps; [reflexivity|].
  cbn [fold_left existsb]. rewrite IH.
  destruct (existsb (String.eqb k) ks); [now rewrite orb_true_r|].
  rewrite orb_false_r. destruct (k =? k0)%string eqn:E.
  - apply String.eqb_eq in E. subst. apply assoc_del_same.
  - apply String.eqb_neq in E. now apply assoc_del_other.
Qed.

(** X21. Without [--configuration] the context of the merged CLI is the
    command line itself: it has every property of the parsed arguments that is
    not one of the option names the CLI deletes, with its value, and none of
    those names; every call to the engine receives it. *)
Theorem merged_fallback_context (H : Host) (depth : nat)
    (parameters : list (string * value)) (fs : fsys H) :
  JS.truthy (JS.assoc "help" parameters) = false ->
  JS.truthy (JS.assoc "configuration" parameters) = false ->
  exists ps,
    (forall k, JS.assoc k ps = if is_own_option k then None else JS.assoc k parameters) /\
    (forall w, Merged.initContext H parameters w = (Ret (Some (VObj ps)), w)) /\
    Forall (renders_with (VObj ps)) (w_trace (snd (Merged.run H depth parameters fs))).
Proof.
  intros Hhelp Hconf.
  exists (fold_left (fun ps k => JS.assoc_del k ps) Merged.own_options parameters).
  assert (Hinit : forall w, Merged.initContext H parameters w
            = (Ret (Some (VObj (fold_left (fun ps k => JS.assoc_del k ps)
                                   Merged.own_options parameters))), w)).
  { intros w. unfold Merged.initContext. now rewrite Hhelp, Hconf. }
  split; [intros k; apply assoc_without|]. split; [exact Hinit|].
  apply merged_run_events; try (intros; same_context).
  intros s context w2 src st _ Hi _ _. rewrite Hinit in Hi. inversion Hi; subst context.
  destruct (isDirectory st).
  - apply merged_batch_mode_appends; try (intros; same_context).
    intros dir e He. destruct e; try same_context. intros t c o E. inversion E; subst.
    apply He.
  - apply merged_single_file_appends; intros; same_context.
Qed.

(** The merged CLI with [--name World] and no [--configuration]; [h] is the
    alias [minimist] keeps of [--help]. *)
Lemma merged_fallback_context_witness :
  let parameters :=
    Merged.with_defaults [("_", VArr [] []); ("name", VStr "World"); ("zip", VBool false);
                          ("help", VBool false); ("h", VBool false);
                          ("templates", VStr "page.tpl"); ("destination", VStr "stdout")] in
  (JS.truthy (JS.assoc "help" parameters) = false /\
   JS.truthy (JS.assoc "configuration" parameters) = false) /\
  exists ps,
    (forall k, JS.assoc k ps = if is_own_option k then None else JS.assoc k parameters) /\
    (forall w, Merged.initContext Demo.h parameters w = (Ret (Some (VObj ps)), w)) /\
    Forall (renders_with (VObj ps)) (w_trace (snd (Merged.run Demo.h 5 parameters Demo.disk0))).
Proof.
  intros parameters. split; [split; reflexivity|].
  exact (merged_fallback_context Demo.h 5 parameters Demo.disk0 eq_refl eq_refl).
Defined.

(** That run: the option [--name] and the alias [h] of [--help] are the
    data the template is rendered with. *)
Example merged_fallback_run :
  let parameters :=
    Merged.with_defaults [("_", VArr [] []); ("name", VStr "World"); ("zip", VBool false);
                          ("help", VBool false); ("h", VBool false);
                          ("templates", VStr "page.tpl"); ("destination", VStr "stdout")] in
  filter (fun e => match e with Rendered _ _ _ => true | _ => false end)
    (w_trace (snd (Merged.run Demo.h 5 parameters Demo.disk0)))
  = [Rendered "Hello" (VObj [("name", VStr "World"); ("h", VBool false)])
       (Some (mkOptions (JS.str "{{") (JS.str "}}")))].
Proof. vm_compute. reflexivity. Qed.

(** ** Delimiters of the merged CLI *)

Lemma or_truthy (a b : jv) : JS.truthy b = true -> JS.truthy (JS.or a b) = true.
Proof. intros Hb. unfold JS.or. destruct (JS.truthy a) eqn:E; auto. Qed.

Lemma merged_resolve_given (H : Host) (s : Merged.settings) (src : string)
    (od cd : jv) (o : options) :
  JS.truthy od = true -> JS.truthy cd = true ->
  Merged.resolve_delimiters H s src od cd = Ok o ->
  JS.truthy (openDelimiter o) = true /\ JS.truthy (closeDelimiter o) = true.
Proof.
  intros Ho Hc. unfold Merged.resolve_delimiters.
  destruct (JS.get _ "files") as [files|]; [|discriminate]. cbn [rbind].
  destruct (Delimiters.file_config files _) as [fc|]; [|discriminate]. cbn [rbind].
  destruct (JS.get fc "openDelimiter") as [fo|]; [|discriminate]. cbn [rbind].
  destruct (JS.get fc "closeDelimiter") as [fcl|]; [|discriminate]. cbn [rbind].
  intros E. inversion E; subst o. cbn. split; now apply or_truthy.
Qed.

Lemma merged_load_config_given (H : Host) (parameters : list (string * value))
    (w : world H) (s : Merged.settings) :
  fst (Merged.load_config H parameters w) = Ret s ->
  JS.truthy (Merged.globalOpen s) = true /\ JS.truthy (Merged.globalClose s) = true.
Proof.
  intros Hcfg.
  destruct (Merged.load_config H parameters w) as [r w'] eqn:Hload. cbn in Hcfg. subst r.
  revert Hload. unfold Merged.load_config. cbv zeta.
  set (s0 := Merged.mkSettings _ _ _).
  assert (H0 : JS.truthy (Merged.globalOpen s0) = true /\
               JS.truthy (Merged.globalClose s0) = true).
  { subst s0. cbn [Merged.globalOpen Merged.globalClose]. split; now apply or_truthy. }
  destruct (JS.truthy (JS.assoc "config" parameters));
    [|intros E; inversion E; subst; exact H0].
  step. destruct (Merged.as_path _) as [p|]; [|discriminate].
  destruct (readFileSync H (w_fs w) p) as [raw|]; [|discriminate].
  destruct (JSON_parse H raw) as [obj|]; [|discriminate].
  destruct (Merged.read_config obj s0) as [s1|] eqn:Hrc; [|discriminate].
  intros E. inversion E; subst.
  destruct (merged_read_config_kept_or_given obj s0 s Hrc) as [[Eo|Ho] [Ec|Hc]];
    destruct H0 as [Ho0 Hc0]; split; congruence.
Qed.

(** X22. Whenever a run of the merged CLI passes delimiters to the engine,
    both are given: an empty or missing flag falls back on [{{] or [}}], and
    neither the configuration nor the entry of a file can put an empty
    delimiter in their place. *)
Theorem merged_delimiters_are_never_empty (H : Host) (depth : nat)
    (parameters : list (string * value)) (fs : fsys H) :
  Forall delimiters_given (w_trace (snd (Merged.run H depth parameters fs))).
Proof.
  apply merged_run_events; try (intros; intros t c o E; discriminate E).
  intros s context w2 src st Hcfg _ _ _.
  destruct (merged_load_config_given H parameters _ s Hcfg) as [Ho Hc].
  destruct (isDirectory st).
  - apply merged_batch_mode_appends; try (intros; intros t c o E; discriminate E).
    intros dir e He. destruct e; try (intros t c o E; discriminate E).
    intros t c o E. inversion E; subst. destruct He as [_ He]. discriminate He.
  - apply merged_single_file_appends; try (intros; intros t c o E; discriminate E).
    intros o tpl Hres t c o' E. inversion E; subst.
    now apply merged_resolve_given with (1 := Ho) (2 := Hc) (3 := Hres).
Qed.

(** ** Single-file mode of the merged CLI *)

(** X23. When its source path is a file, a run of the merged CLI executes no
    command (also for a [.script] template), asks for no archive (also with
    [--zip]) and writes at most the output path, [--destination] before
    [--outputDir], with no explicit mode and after creating its directory; it
    never writes a file called [stdout]. *)
Theorem merged_single_file_mode_effects (H : Host) (depth : nat)
    (parameters : list (string * value)) (fs : fsys H) (src : string) (st : stats) :
  merged_source parameters = Some (VStr src) ->
  statSync H fs src = Ok st ->
  isDirectory st = false ->
  Forall (single_file_effect H (merged_out_file parameters))
    (w_trace (snd (Merged.run H depth parameters fs))).
Proof.
  intros Hsrc Hst Hfile. apply merged_run_events; try (intros; exact I).
  intros s context w2 src' st' _ _ Hsrc' Hst'.
  rewrite Hsrc in Hsrc'. inversion Hsrc'; subst src'.
  rewrite Hst in Hst'. inversion Hst'; subst st'. rewrite Hfile.
  apply merged_single_file_appends; try (intros; exact I); intros; cbn; eauto.
Qed.

(** The script [site/run.script] as the one template, with [--zip]. *)
Lemma merged_single_file_mode_effects_witness :
  let parameters :=
    Merged.with_defaults [("configuration", VStr "info.json");
                          ("templates", VStr "site/run.script");
                          ("destination", VStr "out/run.txt"); ("zip", VBool true)] in
  (merged_source parameters = Some (VStr "site/run.script") /\
   statSync Demo.h Demo.disk0 "site/run.script" = Ok (mkStats true false 493) /\
   isDirectory (mkStats true false 493) = false) /\
  Forall (single_file_effect Demo.h (merged_out_file parameters))
    (w_trace (snd (Merged.run Demo.h 5 parameters Demo.disk0))).
Proof.
  intros parameters. split; [repeat split|].
  exact (merged_single_file_mode_effects Demo.h 5 parameters Demo.disk0 "site/run.script"
           (mkStats true false 493) eq_refl eq_refl eq_refl).
Defined.

(** That run: the script is rendered and written like any template. *)
Example merged_single_script_run :
  let parameters :=
    Merged.with_defaults [("configuration", VStr "info.json");
                          ("templates", VStr "site/run.script");
                          ("destination", VStr "out/run.txt"); ("zip", VBool true)] in
  let r := Merged.run Demo.h 5 parameters Demo.disk0 in
  fst r = Ret tt /\
  filter is_write (w_trace (snd r)) = [Wrote "out/run.txt" "{{echo hi}}" None].
Proof. vm_compute. auto. Qed.

(** ** The delimiters of each file [renderTemplate] renders *)

Lemma precedence_same (a g : jv) : precedence [a; a] g = precedence [a] g.
Proof. cbn. destruct (JS.truthy a); reflexivity. Qed.

Lemma precedence_or (a b g : jv) :
  precedence [a; JS.or b g] g = precedence [a; b] g.
Proof.
  cbn. unfold JS.or. destruct (JS.truthy a); [reflexivity|].
  destruct (JS.truthy b) eqn:Hb; [now rewrite Hb|].
  destruct (JS.truthy g); reflexivity.
Qed.

(** One turn of the loop of directory mode on a regular file that can be
    read: the engine is called once, with the delimiters the [files] mapping
    gives for the entry, looked up by [renderTemplate] under the base name of
    the joined path and by the loop under the entry's name, and else the
    global ones. *)
Lemma enhanced_process_entry_engine_call (H : Host) (s : Enhanced.settings)
    (fm : list (string * value)) (tdir odir file tpl : string) (ctx : value)
    (n : Z) (st : stats) (w : world H) :
  let path := path_join H tdir file in
  JS.get (Some (Enhanced.config s)) "files" = Ok (Some (VObj fm)) ->
  entry_is_mapping fm (path_basename H path) ->
  entry_is_mapping fm file ->
  statSync H (w_fs w) path = Ok st -> isFile st = true ->
  readFileSync H (w_fs w) path = Ok tpl ->
  engine_calls (w_trace (snd (Enhanced.process_entry H s tdir odir ctx file n w)))
  = (engine_calls (w_trace w) ++
     [Some (mkOptions
              (precedence [file_override fm (path_basename H path) "openDelimiter";
                           file_override fm file "openDelimiter"]
                          (Enhanced.globalOpenDelimiter s))
              (precedence [file_override fm (path_basename H path) "closeDelimiter";
                           file_override fm file "closeDelimiter"]
                          (Enhanced.globalCloseDelimiter s)))])%list.
Proof.
  intros path Hfiles Hbase Hentry Hst Hfile Hr. subst path.
  unfold Enhanced.process_entry. step. rewrite Hst. step. rewrite Hfile. step.
  rewrite Hfiles. step.
  pose proof (file_config_entry fm file "openDelimiter" Hentry) as Ho.
  pose proof (file_config_entry fm file "closeDelimiter" Hentry) as Hc.
  destruct (Delimiters.file_config (Some (VObj fm)) file) as [fc|]; [|discriminate].
  cbn [rbind] in Ho, Hc. step. rewrite Ho. step. rewrite Hc. step.
  match goal with
  | |- context [Enhanced.renderTemplate H s ?p ?out ctx ?od ?cd w] =>
      pose proof (enhanced_renderTemplate_engine_call H s p out tpl ctx od cd _ w
                    (enhanced_resolve_delimiters H s fm p od cd Hfiles Hbase) Hr) as Hcall;
      destruct (Enhanced.renderTemplate H s p out ctx od cd w) as [[ok|e|c] w1]
  end; cbn [snd ret] in *; rewrite Hcall, !precedence_or; reflexivity.
Qed.

(** X24. [renderTemplate], in the enhanced and in the merged CLI, calls the
    engine with the pair resolved by precedence, each delimiter on its own:
    the value the [files] mapping gives for the template's base name if it
    gives one, else the delimiter the caller passes, and in the enhanced CLI
    the global one after that. In single-file mode the caller passes the
    global pair, so that the pair is the file's override and else the global
    one. In the enhanced CLI's directory mode the loop passes the override it
    looked up under the entry's name, and else the global pair: the same
    override whenever the base name of the joined path is the entry. With no
    delimiter flag and no configuration document the global pair is the
    built-in [{{], [}}]. *)
Theorem renderTemplate_delimiters_by_precedence (H : Host)
    (fm : list (string * value)) (path tpl : string) :
  entry_is_mapping fm (path_basename H path) ->
  let override := file_override fm (path_basename H path) in
  (forall s out ctx openDel closeDel w,
      JS.get (Some (Enhanced.config s)) "files" = Ok (Some (VObj fm)) ->
      readFileSync H (w_fs w) path = Ok tpl ->
      engine_calls
        (w_trace (snd (Enhanced.renderTemplate H s path out ctx openDel closeDel w)))
      = (engine_calls (w_trace w) ++
         [Some (mkOptions
                  (precedence [override "openDelimiter"; openDel]
                              (Enhanced.globalOpenDelimiter s))
                  (precedence [override "closeDelimiter"; closeDel]
                              (Enhanced.globalCloseDelimiter s)))])%list) /\
  (forall s out ctx openDel closeDel w,
      JS.get (Some (Merged.tplConfig s)) "files" = Ok (Some (VObj fm)) ->
      readFileSync H (w_fs w) path = Ok tpl ->
      engine_calls
        (w_trace (snd (Merged.renderTemplate H s path out ctx openDel closeDel w)))
      = (engine_calls (w_trace w) ++
         [Some (mkOptions (precedence [override "openDelimiter"] openDel)
                          (precedence [override "closeDelimiter"] closeDel))])%list) /\
  (forall s out ctx w,
      JS.get (Some (Enhanced.config s)) "files" = Ok (Some (VObj fm)) ->
      readFileSync H (w_fs w) path = Ok tpl ->
      JS.truthy out = true ->
      engine_calls (w_trace (snd (Enhanced.single_file_mode H s path out ctx w)))
      = (engine_calls (w_trace w) ++
         [Some (mkOptions
                  (precedence [override "openDelimiter"] (Enhanced.globalOpenDelimiter s))
                  (precedence [override "closeDelimiter"] (Enhanced.globalCloseDelimiter s)))])%list) /\
  (forall s parameters ctx w,
      JS.get (Some (Merged.tplConfig s)) "files" = Ok (Some (VObj fm)) ->
      readFileSync H (w_fs w) path = Ok tpl ->
      engine_calls (w_trace (snd (Merged.single_file_mode H s parameters path ctx w)))
      = (engine_calls (w_trace w) ++
         [Some (mkOptions
                  (precedence [override "openDelimiter"] (Merged.globalOpen s))
                  (precedence [override "closeDelimiter"] (Merged.globalClose s)))])%list) /\
  (forall s tdir odir file ctx n st w,
      path_join H tdir file = path ->
      JS.get (Some (Enhanced.config s)) "files" = Ok (Some (VObj fm)) ->
      entry_is_mapping fm file ->
      statSync H (w_fs w) path = Ok st -> isFile st = true ->
      readFileSync H (w_fs w) path = Ok tpl ->
      engine_calls (w_trace (snd (Enhanced.process_entry H s tdir odir ctx file n w)))
      = (engine_calls (w_trace w) ++
         [Some (mkOptions
                  (precedence [override "openDelimiter"; file_override fm file "openDelimiter"]
                              (Enhanced.globalOpenDelimiter s))
                  (precedence [override "closeDelimiter"; file_override fm file "closeDelimiter"]
                              (Enhanced.globalCloseDelimiter s)))])%list /\
      (path_basename H path = file ->
       forall k g, precedence [override k; file_override fm file k] g
                   = precedence [override k] g)) /\
  (forall argv w,
      let a := Enhanced.parse_args argv Enhanced.initial_args in
      forallb no_delimiter_flag argv = true ->
      JS.truthy (Enhanced.configPath a) = false ->
      exists s,
        Enhanced.load_config H a
          (Enhanced.mkSettings Enhanced.initial_config
             (Enhanced.argOpenDelimiter a) (Enhanced.argCloseDelimiter a)) w
        = (Ret s, w) /\
        Enhanced.globalOpenDelimiter s = JS.str "{{" /\
        Enhanced.globalCloseDelimiter s = JS.str "}}") /\
  (forall parameters w,
      JS.truthy (JS.assoc "config" parameters) = false ->
      exists s,
        Merged.load_config H parameters w = (Ret s, w) /\
        Merged.globalOpen s
          = precedence [JS.assoc "openDelimiter" parameters] (JS.str "{{") /\
        Merged.globalClose s
          = precedence [JS.assoc "closeDelimiter" parameters] (JS.str "}}")).
Proof.
  intros Hentry override.
  split; [|split; [|split; [|split; [|split; [|split]]]]].
  - intros s out ctx openDel closeDel w Hfiles Hr.
    apply enhanced_renderTemplate_engine_call with (tpl := tpl); [|exact Hr].
    now apply enhanced_resolve_delimiters.
  - intros s out ctx openDel closeDel w Hfiles Hr.
    apply merged_renderTemplate_engine_call with (tpl := tpl); [|exact Hr].
    now apply merged_resolve_delimiters.
  - intros s out ctx w Hfiles Hr Hout.
    now apply enhanced_single_file_engine_call with (tpl := tpl).
  - intros s parameters ctx w Hfiles Hr.
    now apply merged_single_file_engine_call with (tpl := tpl).
  - intros s tdir odir file ctx n st w Hpath Hfiles Hfile Hst Hreg Hr. subst path. split.
    + now apply enhanced_process_entry_engine_call with (tpl := tpl) (st := st).
    + intros Hbase k g. subst override. cbv beta. rewrite Hbase. apply precedence_same.
  - intros argv w a Hno Hcfg.
    destruct (parse_args_keeps_delimiters argv Enhanced.initial_args Hno) as [Eo Ec].
    fold a in Eo, Ec.
    exists (Enhanced.mkSettings Enhanced.initial_config
              (Enhanced.argOpenDelimiter a) (Enhanced.argCloseDelimiter a)).
    split; [|split; [exact Eo|exact Ec]].
    unfold Enhanced.load_config.
    destruct (Enhanced.configPath a) as [[| | |p| |]|]; try reflexivity.
    rewrite Hcfg. reflexivity.
  - intros parameters w Hcfg.
    exists (Merged.mkSettings (VObj [("files", JS.empty_object)])
              (JS.or (JS.assoc "openDelimiter" parameters) (JS.str "{{"))
              (JS.or (JS.assoc "closeDelimiter" parameters) (JS.str "}}"))).
    split; [|split; reflexivity].
    unfold Merged.load_config. cbv zeta. rewrite Hcfg. reflexivity.
Qed.

(** [pages/page.tpl] under the configuration of [config.json], which
    gives [page.tpl] the pair [<%], [%>], whatever the global pair is: in
    [renderTemplate] and in a turn of the loop of directory mode. *)
Lemma renderTemplate_delimiters_by_precedence_witness :
  let fm := [("page.tpl", VObj [("openDelimiter", VStr "<%");
                                ("closeDelimiter", VStr "%>")])] in
  entry_is_mapping fm (path_basename Demo.h "pages/page.tpl") /\
  (forall s out ctx openDel closeDel w,
    JS.get (Some (Enhanced.config s)) "files" = Ok (Some (VObj fm)) ->
    readFileSync Demo.h (w_fs w) "pages/page.tpl" = Ok "P" ->
    engine_calls
      (w_trace (snd (Enhanced.renderTemplate Demo.h s "pages/page.tpl" out ctx
                       openDel closeDel w)))
    = (engine_calls (w_trace w) ++ [Some (mkOptions (JS.str "<%") (JS.str "%>"))])%list) /\
  (forall s ctx n (w : world Demo.h),
    JS.get (Some (Enhanced.config s)) "files" = Ok (Some (VObj fm)) ->
    w_fs w = Demo.disk0 ->
    engine_calls
      (w_trace (snd (Enhanced.process_entry Demo.h s "pages" "out" ctx "page.tpl" n w)))
    = (engine_calls (w_trace w) ++ [Some (mkOptions (JS.str "<%") (JS.str "%>"))])%list).
Proof.
  intros fm.
  assert (Hentry : entry_is_mapping fm (path_basename Demo.h "pages/page.tpl")).
  { right. eexists. reflexivity. }
  split; [exact Hentry|].
  destruct (renderTemplate_delimiters_by_precedence Demo.h fm "pages/page.tpl" "P" Hentry)
    as (Hrender & _ & _ & _ & Hdir & _).
  split; [exact Hrender|].
  intros s ctx n w Hfiles Hw.
  refine (proj1 (Hdir s "pages" "out" "page.tpl" ctx n (mkStats true false 420) w
                   eq_refl Hfiles Hentry _ eq_refl _)); now rewrite Hw.
Defined.

(** The enhanced CLI in directory mode on [pages] with that
    configuration. *)
Example enhanced_directory_run_uses_override :
  engine_calls (w_trace (snd (Enhanced.run Demo.h
     ["--config"; "config.json"; "-t"; "pages"; "-d"; "out"; "info.json"] Demo.disk0)))
    = [Some (mkOptions (JS.str "<%") (JS.str "%>"))].
Proof. vm_compute. reflexivity. Qed.
